(** * adevtool: the generation front end and the makefile serializer

    A shallow embedding of [src/frontend/generate.ts] (file enumeration,
    override resolution, property extraction, sepolicy resolution, build-file
    generation) and of the board-makefile serializer
    ([serializeBoardMakefile] and the functions it calls).

    ECMAScript values are modelled as follows.
    - [string]: a JS string (a sequence of code units, here bytes).
    - [JSMap.t V]: a JS [Map<string, V>]: an association list in insertion
      order; [JSMap.wf] says the keys are pairwise distinct, which every
      value built by [set] from the empty map satisfies.
    - [list A]: a JS [Array<A>]; [push(...xs)] is [++].
    - [outcome A]: a computation that returns a value or throws. *)

From Stdlib Require Import String Ascii List Bool ZArith Lia.
From Stdlib Require Import Permutation Sorting.Sorted.
Import ListNotations.

Local Open Scope string_scope.
Local Open Scope list_scope.

(* ================================================================== *)
(** ** ECMAScript [Map] with string keys *)

Module JSMap.

Definition t (V : Type) : Type := list (string * V).

Definition empty {V : Type} : t V := [].

Definition entries {V : Type} (m : t V) : list (string * V) := m.

Definition keys {V : Type} (m : t V) : list string := map fst m.

Definition values {V : Type} (m : t V) : list V := map snd m.

Definition size {V : Type} (m : t V) : nat := length m.

Fixpoint get {V : Type} (k : string) (m : t V) : option V :=
  match m with
  | [] => None
  | (k', v) :: m' => if String.eqb k k' then Some v else get k m'
  end.

Definition has {V : Type} (k : string) (m : t V) : bool :=
  match get k m with Some _ => true | None => false end.

(** [m.set(k, v)]: an existing key keeps its position and takes the new
    value; a new key goes to the end. *)
Fixpoint set {V : Type} (k : string) (v : V) (m : t V) : t V :=
  match m with
  | [] => [(k, v)]
  | (k', v') :: m' =>
      if String.eqb k k' then (k', v) :: m' else (k', v') :: set k v m'
  end.

(** [m.delete(k)]. *)
Definition delete {V : Type} (k : string) (m : t V) : t V :=
  filter (fun e => negb (String.eqb k (fst e))) m.

(** [new Map(iterable)]: the entries are set one after the other. *)
Definition ofEntries {V : Type} (l : list (string * V)) : t V :=
  fold_left (fun m e => set (fst e) (snd e) m) l empty.

(** The keys of a [Map] are pairwise distinct. *)
Definition wf {V : Type} (m : t V) : Prop := NoDup (keys m).

End JSMap.

(* ================================================================== *)
(** ** ECMAScript strings *)

Module JSString.

Definition newline : string := String (ascii_of_nat 10) EmptyString.

Fixpoint drop (n : nat) (s : string) : string :=
  match n, s with
  | O, _ => s
  | S n', String _ s' => drop n' s'
  | S _, EmptyString => EmptyString
  end.

(** [s.replace(pat, '')] with a string pattern: the first occurrence of
    [pat] in [s] is removed; [s] is returned as it is when there is none. *)
Fixpoint replaceFirstWithEmpty (pat s : string) : string :=
  if String.prefix pat s then drop (String.length pat) s
  else match s with
       | EmptyString => EmptyString
       | String c s' => String c (replaceFirstWithEmpty pat s')
       end.

(** [xs.join(sep)]. *)
Definition join (sep : string) (xs : list string) : string :=
  String.concat sep xs.

(** [s.split(sep)] for a separator of one code unit. *)
Fixpoint split (sep : ascii) (s : string) : list string :=
  match s with
  | EmptyString => [EmptyString]
  | String c s' =>
      if Ascii.eqb c sep then EmptyString :: split sep s'
      else match split sep s' with
           | [] => [String c EmptyString]
           | h :: tl => String c h :: tl
           end
  end.

(** A template literal prints an absent value as [undefined]. *)
Definition ofOption (o : option string) : string :=
  match o with Some s => s | None => "undefined" end.

End JSString.

(* ================================================================== *)
(** ** [String.prototype.localeCompare] and [Array.prototype.sort] *)

(** [a.localeCompare(b)] with no locale argument compares in the collation
    of the host's default locale.  ECMAScript fixes no collation; it asks
    only that the function be a consistent comparator: the sign flips when
    the arguments are swapped, and [<= 0] is transitive.  A [Collation] is
    one such comparator. *)
Record Collation : Type := {
  localeCompare : string -> string -> Z;
  localeCompare_swap :
    forall a b, Z.sgn (localeCompare b a) = (- Z.sgn (localeCompare a b))%Z;
  localeCompare_trans :
    forall a b c,
      (localeCompare a b <= 0)%Z -> (localeCompare b c <= 0)%Z ->
      (localeCompare a c <= 0)%Z
}.

Module JSArray.

Section Sort.
Context {A : Type} (cmp : A -> A -> Z).

(** [x] goes in front of the first element it does not follow. *)
Fixpoint insert (x : A) (l : list A) : list A :=
  match l with
  | [] => [x]
  | y :: l' => if (cmp x y <=? 0)%Z then x :: y :: l' else y :: insert x l'
  end.

(** [xs.sort(cmp)]: the stable sort the language requires. *)
Fixpoint sort (l : list A) : list A :=
  match l with
  | [] => []
  | x :: l' => insert x (sort l')
  end.

End Sort.

(** [xs.includes(x)] on strings. *)
Definition includes (x : string) (xs : list string) : bool :=
  existsb (String.eqb x) xs.

End JSArray.

(** Code-unit order, the comparison of a host without collation data. *)
Definition codeUnitCompare (a b : string) : Z :=
  match String.compare a b with
  | Lt => (-1)%Z
  | Eq => 0%Z
  | Gt => 1%Z
  end.

(** ASCII letters in lower case. *)
Definition lowerAscii (c : ascii) : ascii :=
  let n := nat_of_ascii c in
  if ((65 <=? n) && (n <=? 90))%nat then ascii_of_nat (n + 32) else c.

Fixpoint lowerString (s : string) : string :=
  match s with
  | EmptyString => EmptyString
  | String c s' => String (lowerAscii c) (lowerString s')
  end.

(* ================================================================== *)
(** ** Computations that may throw *)

(** The one exception these functions raise by themselves: a property
    read on [undefined]. *)
Inductive JSError : Type :=
| TypeError.

Inductive outcome (A : Type) : Type :=
| Returns (a : A)
| Throws (e : JSError).

Arguments Returns {A} a.
Arguments Throws {A} e.

Definition bind {A B : Type} (c : outcome A) (k : A -> outcome B) : outcome B :=
  match c with
  | Returns a => k a
  | Throws e => Throws e
  end.

(** [o!.member]: the non-null assertion is erased by the compiler, so the
    read throws a [TypeError] when [o] is [undefined]. *)
Definition deref {A : Type} (o : option A) : outcome A :=
  match o with
  | Some a => Returns a
  | None => Throws TypeError
  end.

Notation "x <- c ;; k" := (bind c (fun x => k))
  (at level 61, c at next level, right associativity).

(* ================================================================== *)
(** ** Data model *)

(** partition -> property key -> value *)
Definition PartitionProps : Type := JSMap.t (JSMap.t string).

(** context label -> the source that defines it *)
Definition SelinuxContexts : Type := JSMap.t string.

Record SelinuxResolutions : Type := {
  sepolicyDirs : list string;
  missingContexts : list string
}.

(** partition -> resolutions *)
Definition SelinuxPartResolutions : Type := JSMap.t SelinuxResolutions.

Record VendorDirectories : Type := {
  out : string;
  proprietary : string;
  firmware : string;
  overlays : string;
  vintf : string;
  sepolicy : string
}.

(** The fields of [SystemState] that [generate.ts] reads. *)
Record SystemState : Type := {
  partitionFiles : JSMap.t (list string);
  partitionProps : PartitionProps;
  partitionSecontexts : JSMap.t SelinuxContexts
}.

Record PropResults : Type := {
  stockProps : PartitionProps;
  missingProps : option PartitionProps;
  fingerprint : option string;
  missingOtaParts : list string
}.

(** Modelled from the spec: the module metadata of [build/soong-info]
    (section 3, ModuleInfo): module name -> installed paths, class and
    owning source directory. *)
Record SoongModuleInfo : Type := {
  installedPaths : list string;
  moduleClass : string;
  owningDir : string
}.

Definition SoongModuleInfoMap : Type := JSMap.t SoongModuleInfo.

(** Modelled from the spec: the result of [findOverrideModules]
    (section 4.5): the override modules and the paths they build, each a
    set in insertion order. *)
Record OverrideModules : Type := {
  modules : list string;
  builtPaths : list string
}.

(** Modelled from the spec: the per-partition result of
    [diffPartitionProps] (section 4.3): [removed] holds the properties in
    stock that custom lacks, [changed] those in both with different values
    (key -> stock value and custom value). *)
Record PartitionPropChanges : Type := {
  removed : JSMap.t string;
  changed : JSMap.t (string * string)
}.

(** [s.add(x)] on a [Set<string>] kept in insertion order. *)
Definition setAdd (x : string) (s : list string) : list string :=
  if JSArray.includes x s then s else s ++ [x].

(** Modelled from the spec: [diffLists] of [blobs/file-list] (section
    4.3), with its arguments in the order of the call
    [diffLists(filesNew, filesRef)]: the stock items whose identity is
    absent from custom, in their order. *)
Definition diffLists (custom stock : list string) : list string :=
  filter (fun f => negb (JSArray.includes f custom)) stock.

(** Modelled from the spec: [removeSelfModules] of [build/soong-info]
    (section 4.5): the modules whose owning source directory is the tool's
    own output directory are taken out of the metadata. *)
Definition removeSelfModules (modulesMap : SoongModuleInfoMap)
    (proprietaryDir : string) : SoongModuleInfoMap :=
  filter (fun e => negb (String.eqb (owningDir (snd e)) proprietaryDir))
         modulesMap.

(** Modelled from the spec: [findOverrideModules] of [build/overrides]
    (section 4.5): each module's installed paths are compared against the
    candidate paths; on any match the module is recorded as an override
    module and its matched paths as built. *)
Definition findOverrideModules (targetPaths : list string)
    (modulesMap : SoongModuleInfoMap) : OverrideModules :=
  fold_left
    (fun acc e =>
       match filter (fun p => JSArray.includes p targetPaths)
                    (installedPaths (snd e)) with
       | [] => acc
       | matched =>
           {| modules := setAdd (fst e) (modules acc);
              builtPaths := fold_left (fun s p => setAdd p s) matched
                                      (builtPaths acc) |}
       end)
    (JSMap.entries modulesMap)
    {| modules := []; builtPaths := [] |}.

(** Modelled from the spec: the property diff of one partition. *)
Definition diffPartProps (propsRef propsNew : JSMap.t string)
    : PartitionPropChanges :=
  {| removed :=
       filter (fun e => negb (JSMap.has (fst e) propsNew)) propsRef;
     changed :=
       flat_map
         (fun e =>
            match JSMap.get (fst e) propsNew with
            | Some v' =>
                if String.eqb (snd e) v' then [] else [(fst e, (snd e, v'))]
            | None => []
            end)
         propsRef |}.

(** Modelled from the spec: [diffPartitionProps(stock, custom)] of
    [blobs/props] (sections 4.3 and 7): one entry for every partition that
    both images have; a partition absent from one image is skipped. *)
Definition diffPartitionProps (partPropsRef partPropsNew : PartitionProps)
    : JSMap.t PartitionPropChanges :=
  fold_left
    (fun acc e =>
       match JSMap.get (fst e) partPropsNew with
       | Some propsNew =>
           JSMap.set (fst e) (diffPartProps (snd e) propsNew) acc
       | None => acc
       end)
    (JSMap.entries partPropsRef)
    JSMap.empty.

(** Modelled from the spec: [diffPartContexts(ref, new)] of
    [selinux/contexts] (sections 3, 4.4 and 7): for every partition that
    both sides have, the labels of [new] that [ref] lacks; only the
    presence of a label counts. *)
Definition diffPartContexts (pctxRef pctxNew : JSMap.t SelinuxContexts)
    : JSMap.t (list string) :=
  fold_left
    (fun acc e =>
       match JSMap.get (fst e) pctxRef with
       | Some ctxRef =>
           JSMap.set (fst e)
             (filter (fun l => negb (JSMap.has l ctxRef)) (JSMap.keys (snd e)))
             acc
       | None => acc
       end)
    (JSMap.entries pctxNew)
    JSMap.empty.

(* ================================================================== *)
(** ** [src/frontend/generate.ts] *)

(** The fields of [DeviceConfig] that [generate.ts] reads:
    [device.name], [platform.sepolicy_dirs], [filters.props],
    [filters.partitions], [filters.sepolicy_dirs]. *)
Record DeviceConfig (Filters : Type) : Type := {
  device_name : string;
  platform_sepolicy_dirs : list string;
  filters_props : Filters;
  filters_partitions : Filters;
  filters_sepolicy_dirs : Filters
}.

Arguments device_name {Filters} _.
Arguments platform_sepolicy_dirs {Filters} _.
Arguments filters_props {Filters} _.
Arguments filters_partitions {Filters} _.
Arguments filters_sepolicy_dirs {Filters} _.

(** What [enumerateFiles] writes: the entries map and the spinner's text. *)
Record EnumState (BlobEntry : Type) : Type := {
  namedEntries : JSMap.t BlobEntry;
  spinnerText : string
}.

Arguments namedEntries {BlobEntry} _.
Arguments spinnerText {BlobEntry} _.

Section Generate.

(** The filter engine of [config/filters]: the type of a filter set and
    its verdict on one value, a pure and total function (spec 4.1). *)
Context {Filters : Type}.
Variable filterValue : Filters -> string -> bool.

(** [blobs/entry] and [blobs/file-list]: blob entries and their
    construction from a partition and a combined path. *)
Context {BlobEntry : Type}.
Variable combinedPartPathToEntry : string -> string -> BlobEntry.

(** [util/partitions]: the fixed, ordered partition list. *)
Variable ALL_SYS_PARTITIONS : list string.

(** [listPart(partition, root, filters)] on the file system at hand:
    the listing, or [None] for the [null] of an absent partition. *)
Variable listPart : string -> string -> Filters -> option (list string).

(** The file system readers of [blobs/props], [selinux/contexts],
    [util/fs] and [build/soong-info]. *)
Variable loadPartitionProps : string -> PartitionProps.
Variable parsePartContexts : string -> JSMap.t SelinuxContexts.
Variable parseContextsRecursive : string -> string -> SelinuxContexts.
Variable readFile : string -> string.
Variable parseModuleInfo : string -> SoongModuleInfoMap.

(** The directory a context source belongs to (spec 4.4, step 2). *)
Variable sourceDirOf : string -> string.

(** The collation [localeCompare] uses on this host. *)
Variable collation : Collation.

(** Modelled from the spec: [filterValues] of [config/filters]
    (section 4.1): the values the filter set keeps, in their order. *)
Definition filterValues (filters : Filters) (values : list string)
    : list string :=
  filter (filterValue filters) values.

(** Modelled from the spec: [filterKeys] of [config/filters]
    (section 4.1): the map loses the keys the filter set rejects. *)
Definition filterKeys {V : Type} (filters : Filters) (m : JSMap.t V)
    : JSMap.t V :=
  filter (fun e => filterValue filters (fst e)) m.

(** Lines 44-46: the custom listing of a partition. *)
Definition customFiles (filters : Filters) (customState : option SystemState)
    (customSrc : option string) (partition : string)
    : option (list string) :=
  match customState with
  | Some cs => JSMap.get partition (partitionFiles cs)
  | None =>
      match customSrc with
      | Some src => listPart partition src filters
      | None => Some []
      end
  end.

(** Lines 49-57: the diff, the forced files pushed after it, the re-sort. *)
Definition mergedMissingFiles (forceIncludeFilters : option Filters)
    (filesNew filesRef : list string) : list string :=
  let missingFiles := diffLists filesNew filesRef in
  match forceIncludeFilters with
  | Some forced =>
      JSArray.sort (localeCompare collation)
                   (missingFiles ++ filterValues forced filesRef)
  | None => missingFiles
  end.

(** Lines 59-62: one [namedEntries.set] per path. *)
Definition addEntries (partition : string) (missingFiles : list string)
    (entries : JSMap.t BlobEntry) : JSMap.t BlobEntry :=
  fold_left
    (fun m combinedPartPath =>
       JSMap.set combinedPartPath
                 (combinedPartPathToEntry partition combinedPartPath) m)
    missingFiles entries.

(** The body of the loop of [enumerateFiles]; a [continue] leaves the
    state as it is. *)
Definition enumeratePartition (filters : Filters)
    (forceIncludeFilters : option Filters) (customState : option SystemState)
    (stockSrc : string) (customSrc : option string)
    (st : EnumState BlobEntry) (partition : string) : EnumState BlobEntry :=
  match listPart partition stockSrc filters with
  | None => st
  | Some filesRef =>
      match customFiles filters customState customSrc partition with
      | None => st
      | Some filesNew =>
          {| namedEntries :=
               addEntries partition
                 (mergedMissingFiles forceIncludeFilters filesNew filesRef)
                 (namedEntries st);
             spinnerText := partition |}
      end
  end.

Definition enumerateFiles (filters : Filters)
    (forceIncludeFilters : option Filters) (customState : option SystemState)
    (stockSrc : string) (customSrc : option string)
    (st : EnumState BlobEntry) : EnumState BlobEntry :=
  fold_left
    (enumeratePartition filters forceIncludeFilters customState stockSrc
                        customSrc)
    ALL_SYS_PARTITIONS st.

(** Line 73. *)
Definition targetPrefix (config : DeviceConfig Filters) : string :=
  ("out/target/product/" ++ device_name config ++ "/")%string.

(** Lines 84-86: one [delete] per built path, the prefix replaced by the
    empty string. *)
Definition removeBuilt (prefix : string) (paths : list string)
    (entries : JSMap.t BlobEntry) : JSMap.t BlobEntry :=
  fold_left
    (fun m path =>
       JSMap.delete (JSString.replaceFirstWithEmpty prefix path) m)
    paths entries.

(** [resolveOverrides]: the built modules it returns and the entries map it
    leaves behind. *)
Definition resolveOverrides (config : DeviceConfig Filters)
    (dirs : VendorDirectories) (entries : JSMap.t BlobEntry)
    : list string * JSMap.t BlobEntry :=
  let targetPaths :=
    map (fun cPartPath => (targetPrefix config ++ cPartPath)%string)
        (JSMap.keys entries) in
  let moduleInfoPath := (targetPrefix config ++ "module-info.json")%string in
  let modulesMap := parseModuleInfo (readFile moduleInfoPath) in
  let modulesMap := removeSelfModules modulesMap (proprietary dirs) in
  let found := findOverrideModules targetPaths modulesMap in
  (modules found, removeBuilt (targetPrefix config) (builtPaths found) entries).

(** Lines 134-139: every partition's properties are filtered in place. *)
Definition filterAllProps (filters : Filters) (pp : PartitionProps)
    : PartitionProps :=
  map (fun e => (fst e, filterKeys filters (snd e))) pp.

(** Lines 129-131. *)
Definition customPropsOf (customState : option SystemState)
    (customSrc : option string) : PartitionProps :=
  match customState with
  | Some cs => partitionProps cs
  | None =>
      match customSrc with
      | Some src => loadPartitionProps src
      | None => JSMap.empty
      end
  end.

(** Lines 147-149. *)
Definition missingPropsOf (stock custom : PartitionProps) : PartitionProps :=
  JSMap.ofEntries
    (map (fun e => (fst e, removed (snd e)))
         (JSMap.entries (diffPartitionProps stock custom))).

(** Line 154: absent partition or key gives the empty set. *)
Definition customOtaPartsOf (custom : PartitionProps) : list string :=
  match JSMap.get "product" custom with
  | Some product =>
      match JSMap.get "ro.product.ab_ota_partitions" product with
      | Some v => JSString.split "," v
      | None => []
      end
  | None => []
  end.

Definition extractProps (config : DeviceConfig Filters)
    (customState : option SystemState) (stockSrc : string)
    (customSrc : option string) : outcome PropResults :=
  let stock := filterAllProps (filters_props config)
                              (loadPartitionProps stockSrc) in
  let custom := filterAllProps (filters_props config)
                               (customPropsOf customState customSrc) in
  system <- deref (JSMap.get "system" stock) ;;
  let fp := JSMap.get "ro.system.build.fingerprint" system in
  let missing := missingPropsOf stock custom in
  product <- deref (JSMap.get "product" stock) ;;
  ota <- deref (JSMap.get "ro.product.ab_ota_partitions" product) ;;
  let stockOtaParts := JSString.split "," ota in
  let customOtaParts := customOtaPartsOf custom in
  Returns
    {| stockProps := stock;
       missingProps := Some missing;
       fingerprint := fp;
       missingOtaParts :=
         filter
           (fun p => negb (JSArray.includes p customOtaParts)
                     && filterValue (filters_partitions config) p)
           stockOtaParts |}.

(** Lines 179-186: the contexts of every source directory, in configuration
    order, written into one table. *)
Definition sourceContextsOf (dirs : list string) : SelinuxContexts :=
  fold_left
    (fun sourceContexts dir =>
       fold_left
         (fun sc e => JSMap.set (fst e) (snd e) sc)
         (JSMap.entries (parseContextsRecursive dir "."))
         sourceContexts)
    dirs JSMap.empty.

(** Modelled from the spec: the resolution of one partition's missing
    labels (section 4.4, steps 2 and 3): a label found in the source table
    gives its source directory, once, in order of first discovery; a label
    not found is appended to the missing contexts; the directory filter is
    applied at the end. *)
Definition resolveContextDiffs (labels : list string)
    (sourceContexts : SelinuxContexts) (filters : Filters)
    : SelinuxResolutions :=
  let found :=
    fold_left
      (fun acc label =>
         match JSMap.get label sourceContexts with
         | Some source =>
             {| sepolicyDirs := setAdd (sourceDirOf source) (sepolicyDirs acc);
                missingContexts := missingContexts acc |}
         | None =>
             {| sepolicyDirs := sepolicyDirs acc;
                missingContexts := missingContexts acc ++ [label] |}
         end)
      labels {| sepolicyDirs := []; missingContexts := [] |} in
  {| sepolicyDirs := filterValues filters (sepolicyDirs found);
     missingContexts := missingContexts found |}.

(** Modelled from the spec: [resolvePartContextDiffs] of
    [selinux/contexts] (section 4.4): one resolution per partition of the
    diff. *)
Definition resolvePartContextDiffs (pctxDiffs : JSMap.t (list string))
    (sourceContexts : SelinuxContexts) (filters : Filters)
    : SelinuxPartResolutions :=
  map (fun e => (fst e, resolveContextDiffs (snd e) sourceContexts filters))
      pctxDiffs.

(** Lines 175-190: the resolutions before the APEX labels are added. *)
Definition ctxResolutionsOf (config : DeviceConfig Filters)
    (customState : option SystemState) (stockSrc customSrc : string)
    : SelinuxPartResolutions :=
  let stockContexts := parsePartContexts stockSrc in
  let customContexts :=
    match customState with
    | Some cs => partitionSecontexts cs
    | None => parsePartContexts customSrc
    end in
  let sourceContexts := sourceContextsOf (platform_sepolicy_dirs config) in
  let ctxDiffs := diffPartContexts customContexts stockContexts in
  resolvePartContextDiffs ctxDiffs sourceContexts
                          (filters_sepolicy_dirs config).

(** Lines 192-195: [push] on the [sepolicyDirs] of the vendor entry, when
    the map has one. *)
Definition addApexLabels (dirs : VendorDirectories)
    (ctxResolutions : SelinuxPartResolutions) : SelinuxPartResolutions :=
  if JSMap.has "vendor" ctxResolutions then
    match JSMap.get "vendor" ctxResolutions with
    | Some r =>
        JSMap.set "vendor"
          {| sepolicyDirs := sepolicyDirs r ++ [sepolicy dirs];
             missingContexts := missingContexts r |}
          ctxResolutions
    | None => ctxResolutions
    end
  else ctxResolutions.

Definition resolveSepolicyDirs (config : DeviceConfig Filters)
    (customState : option SystemState) (dirs : VendorDirectories)
    (stockSrc customSrc : string) : SelinuxPartResolutions :=
  addApexLabels dirs (ctxResolutionsOf config customState stockSrc customSrc).

(** [generateBuildFiles], lines 268-272: the packages of the device
    makefile that [generateBuild] made ([generated], absent when the
    makefile or its package list is), with the build packages pushed and
    the list sorted again. *)
Definition generateBuildFiles_packages (generated : option (list string))
    (buildPkgs : list string) : outcome (list string) :=
  packages <- deref generated ;;
  Returns (JSArray.sort (localeCompare collation) (packages ++ buildPkgs)).

End Generate.

(* ================================================================== *)
(** ** The makefile serializer *)

Module Make.

Definition backslash : string := String (ascii_of_nat 92) EmptyString.

Definition CONT_SEPARATOR : string :=
  (" " ++ backslash ++ JSString.newline ++ "    ")%string.

(** A read of a partition name that is not one of these five gives
    [undefined] (the names of [Object.prototype] members are not partition
    names and are left out of the model). *)
Definition SEPOLICY_PARTITION_VARS : JSMap.t string :=
  [ ("system", "BOARD_PLAT_PUBLIC_SEPOLICY_DIR");
    ("system_ext", "SYSTEM_EXT_PUBLIC_SEPOLICY_DIRS");
    ("product", "PRODUCT_PUBLIC_SEPOLICY_DIRS");
    ("vendor", "BOARD_VENDOR_SEPOLICY_DIRS");
    ("odm", "BOARD_ODM_SEPOLICY_DIRS") ].

Record BoardMakefile : Type := {
  abOtaPartitions : option (list string);
  boardInfo : option string;
  secontextResolutions : option SelinuxPartResolutions
}.

Section Serialize.

(** [util/headers]. *)
Variable MAKEFILE_HEADER : string.

Definition startBlocks : list string := [MAKEFILE_HEADER].

Definition finishBlocks (blocks : list string) : string :=
  (JSString.join (JSString.newline ++ JSString.newline) blocks
   ++ JSString.newline)%string.

(** The text of a continuation block. *)
Definition contBlock (variable : string) (items : list string) : string :=
  (variable ++ " += " ++ backslash ++ JSString.newline ++ "    "
   ++ JSString.join CONT_SEPARATOR items)%string.

Definition addContBlock (blocks : list string) (variable : string)
    (items : option (list string)) : list string :=
  match items with
  | Some items => blocks ++ [contBlock variable items]
  | None => blocks
  end.

(** The diagnostic line of one unresolved label (line 164). *)
Definition missingContextLine (partition c : string) : string :=
  ("# Missing " ++ partition ++ " SELinux context: " ++ c)%string.

(** Lines 158-166: what one entry of the resolutions adds to the blocks. *)
Definition pushPartition (blocks : list string)
    (e : string * SelinuxResolutions) : list string :=
  let partition := fst e in
  let partVar :=
    JSString.ofOption (JSMap.get partition SEPOLICY_PARTITION_VARS) in
  let blocks :=
    if (0 <? length (sepolicyDirs (snd e)))%nat
    then addContBlock blocks partVar (Some (sepolicyDirs (snd e)))
    else blocks in
  if (0 <? length (missingContexts (snd e)))%nat
  then blocks
       ++ [JSString.join JSString.newline
             (map (missingContextLine partition) (missingContexts (snd e)))]
  else blocks.

(** The blocks of [serializeBoardMakefile] before they are joined. *)
Definition boardBlocks (mk : BoardMakefile) : list string :=
  let blocks := startBlocks in
  let blocks :=
    blocks ++ ["BUILD_BROKEN_ELF_PREBUILT_PRODUCT_COPY_FILES := true"] in
  let blocks :=
    match abOtaPartitions mk with
    | Some parts =>
        if JSArray.includes "vendor" parts
        then blocks ++ ["BOARD_VENDORIMAGE_FILE_SYSTEM_TYPE := ext4"]
        else blocks
    | None => blocks
    end in
  let blocks := addContBlock blocks "AB_OTA_PARTITIONS" (abOtaPartitions mk) in
  let blocks :=
    match boardInfo mk with
    | Some info => blocks ++ [("TARGET_BOARD_INFO_FILE := " ++ info)%string]
    | None => blocks
    end in
  match secontextResolutions mk with
  | Some resolutions =>
      fold_left pushPartition (JSMap.entries resolutions) blocks
  | None => blocks
  end.

Definition serializeBoardMakefile (mk : BoardMakefile) : string :=
  finishBlocks (boardBlocks mk).

End Serialize.

End Make.

(* ================================================================== *)
(** ** Sample parameters, for closed instances *)

Module Sample.

(** A filter set that lists the values it matches. *)
Definition Filters : Type := list string.

Definition filterValue (filters : Filters) (value : string) : bool :=
  JSArray.includes value filters.

(** A blob entry as its partition and combined path. *)
Definition BlobEntry : Type := (string * string)%type.

Definition combinedPartPathToEntry (partition path : string) : BlobEntry :=
  (partition, path).

Definition ALL_SYS_PARTITIONS : list string :=
  ["system"; "system_ext"; "product"; "vendor"; "odm"].

(** A stock image with a system and a vendor partition and a custom image
    with a system partition only. *)
Definition listPart (partition root : string) (filters : Filters)
    : option (list string) :=
  if String.eqb root "stock" then
    if String.eqb partition "system"
    then Some ["system/bin/a"; "system/bin/b"]
    else if String.eqb partition "vendor"
    then Some ["vendor/lib/c.so"]
    else None
  else
    if String.eqb partition "system" then Some ["system/bin/a"] else None.

Definition config : DeviceConfig Filters :=
  {| device_name := "raven";
     platform_sepolicy_dirs := ["dirA"; "dirB"];
     filters_props :=
       ["ro.system.build.fingerprint"; "ro.product.ab_ota_partitions";
        "ro.a"; "ro.b"];
     filters_partitions := ["boot"; "vendor"];
     filters_sepolicy_dirs := ["dirA"; "dirB"] |}.

Definition dirs : VendorDirectories :=
  {| out := "vendor/google/raven";
     proprietary := "vendor/google/raven/proprietary";
     firmware := "vendor/google/raven/firmware";
     overlays := "vendor/google/raven/overlays";
     vintf := "vendor/google/raven/vintf";
     sepolicy := "vendor/google/raven/sepolicy" |}.

Definition emptyState : EnumState BlobEntry :=
  {| namedEntries := JSMap.empty; spinnerText := "" |}.

(** Built contexts: the stock image labels two vendor files that the
    custom image [custom] does not; the image [custom-system-only] has no
    vendor contexts at all. *)
Definition parsePartContexts (root : string) : JSMap.t SelinuxContexts :=
  if String.eqb root "stock" then
    [ ("system", [("ctxS", "plat_file_contexts")]);
      ("vendor", [("ctxA", "vendor_file_contexts");
                  ("ctxC", "vendor_file_contexts")]) ]
  else if String.eqb root "custom" then
    [ ("system", [("ctxS", "plat_file_contexts")]);
      ("vendor", []) ]
  else
    [ ("system", [("ctxS", "plat_file_contexts")]) ].

(** The source directories of the scenario of the spec (section 8). *)
Definition parseContextsRecursive (dir relative : string) : SelinuxContexts :=
  if String.eqb dir "dirA" then [("ctxA", "dirA/fileA")]
  else if String.eqb dir "dirB"
  then [("ctxA", "dirB/fileA2"); ("ctxB", "dirB/fileB")]
  else [].

Definition sourceDirOf (source : string) : string := substring 0 4 source.

(** Module metadata: [libfoo] was generated from the tool's own output
    directory, [libbar] is built from source. *)
Definition readFile (path : string) : string := path.

Definition parseModuleInfo (text : string) : SoongModuleInfoMap :=
  [ ("libfoo",
     {| installedPaths := ["out/target/product/raven/system/bin/b"];
        moduleClass := "EXECUTABLES";
        owningDir := "vendor/google/raven/proprietary" |});
    ("libbar",
     {| installedPaths := ["out/target/product/raven/vendor/lib/c.so"];
        moduleClass := "SHARED_LIBRARIES";
        owningDir := "hardware/google/bar" |}) ].

(** Properties: the stock image [stock] has a fingerprint, the stock image
    [stock-no-fingerprint] has a system partition without one; the custom
    image lacks [ro.a], differs on [ro.b] and has no vendor A/B partition. *)
Definition loadPartitionProps (root : string) : PartitionProps :=
  if String.eqb root "stock" then
    [ ("system", [("ro.system.build.fingerprint", "google/raven/raven:12");
                  ("ro.a", "1"); ("ro.b", "1"); ("ro.hidden", "x")]);
      ("product", [("ro.product.ab_ota_partitions", "boot,system,vendor")]) ]
  else if String.eqb root "stock-no-fingerprint" then
    [ ("system", [("ro.a", "1")]);
      ("product", [("ro.product.ab_ota_partitions", "boot,system,vendor")]) ]
  else
    [ ("system", [("ro.b", "2")]);
      ("product", [("ro.product.ab_ota_partitions", "boot,system")]) ].

Definition entries : JSMap.t BlobEntry :=
  [ ("system/bin/b", ("system", "system/bin/b"));
    ("vendor/lib/c.so", ("vendor", "vendor/lib/c.so")) ].

(** A board makefile with the resolutions of the scenario. *)
Definition MAKEFILE_HEADER : string := "# Generated by adevtool; do not edit.".

Definition vendorResolutions : SelinuxResolutions :=
  {| sepolicyDirs := ["dirB"; "vendor/google/raven/sepolicy"];
     missingContexts := ["ctxC"] |}.

Definition resolutions : SelinuxPartResolutions :=
  [ ("system", {| sepolicyDirs := []; missingContexts := [] |});
    ("vendor", vendorResolutions) ].

Definition boardMakefile : Make.BoardMakefile :=
  {| Make.abOtaPartitions := Some ["vendor"];
     Make.boardInfo := None;
     Make.secontextResolutions := Some resolutions |}.

End Sample.

(* ================================================================== *)
(** * Properties *)

(** ** Maps *)

Module JSMapFacts.
Import JSMap.

Section Facts.
Context {V : Type}.
Implicit Types (m : t V) (k : string) (v : V).

Lemma get_set_same k v m : get k (set k v m) = Some v.
Proof.
  induction m as [|[k' v'] m IH]; simpl.
  - now rewrite String.eqb_refl.
  - destruct (String.eqb k k') eqn:E; simpl; rewrite E; auto.
Qed.

Lemma get_set_other k k' v m : k <> k' -> get k (set k' v m) = get k m.
Proof.
  intros Hne. induction m as [|[k0 v0] m IH]; simpl.
  - apply String.eqb_neq in Hne. now rewrite Hne.
  - destruct (String.eqb k' k0) eqn:E; simpl.
    + apply String.eqb_eq in E. subst k0.
      apply String.eqb_neq in Hne. now rewrite Hne.
    + now rewrite IH.
Qed.

Lemma get_None_iff k m : get k m = None <-> ~ In k (keys m).
Proof.
  induction m as [|[k' v'] m IH]; simpl.
  - tauto.
  - destruct (String.eqb k k') eqn:E.
    + apply String.eqb_eq in E. subst. split; [discriminate | tauto].
    + apply String.eqb_neq in E. rewrite IH. intuition congruence.
Qed.

Lemma has_true_iff k m : has k m = true <-> In k (keys m).
Proof.
  unfold has. destruct (get k m) eqn:E.
  - split; auto. intros _.
    destruct (in_dec string_dec k (keys m)) as [H|H]; auto.
    apply get_None_iff in H. congruence.
  - apply get_None_iff in E. split; [discriminate | tauto].
Qed.

Lemma get_In k v m : get k m = Some v -> In (k, v) m.
Proof.
  induction m as [|[k' v'] m IH]; simpl; [discriminate|].
  destruct (String.eqb k k') eqn:E.
  - apply String.eqb_eq in E. intros [= ->]. subst. now left.
  - auto.
Qed.

Lemma In_get k v m : wf m -> In (k, v) m -> get k m = Some v.
Proof.
  unfold wf. induction m as [|[k' v'] m IH]; simpl; [tauto|].
  intros Hnd [Heq | Hin].
  - injection Heq as -> ->. now rewrite String.eqb_refl.
  - inversion Hnd as [|? ? Hnotin Hnd']; subst.
    destruct (String.eqb k k') eqn:E.
    + apply String.eqb_eq in E. subst k'.
      exfalso. apply Hnotin. now apply (in_map fst) in Hin.
    + auto.
Qed.

Lemma keys_set k v m :
  keys (set k v m) = if has k m then keys m else keys m ++ [k].
Proof.
  unfold has. induction m as [|[k' v'] m IH]; simpl; auto.
  destruct (String.eqb k k') eqn:E; simpl; auto.
  rewrite IH. now destruct (get k m).
Qed.

Lemma wf_set k v m : wf m -> wf (set k v m).
Proof.
  unfold wf. intros Hnd. rewrite keys_set.
  destruct (has k m) eqn:E; auto.
  assert (Hk : ~ In k (keys m)).
  { intros Hin. apply has_true_iff in Hin. congruence. }
  clear E. induction (keys m) as [|a l IH]; simpl.
  - constructor; [tauto | constructor].
  - inversion Hnd; subst. constructor.
    + rewrite in_app_iff. simpl in *. intuition congruence.
    + apply IH; auto. simpl in Hk. tauto.
Qed.

Lemma In_keys_set k k' v m :
  In k (keys (set k' v m)) <-> k = k' \/ In k (keys m).
Proof.
  rewrite keys_set. destruct (has k' m) eqn:E.
  - apply has_true_iff in E. intuition congruence.
  - rewrite in_app_iff. simpl. intuition congruence.
Qed.

(** A filter that looks at the key only does not disturb the lookup of a
    key it keeps, and empties the lookup of a key it drops. *)
Lemma get_filter_key (p : string -> bool) k m :
  get k (filter (fun e => p (fst e)) m) = if p k then get k m else None.
Proof.
  induction m as [|[k' v'] m IH]; simpl.
  - now destruct (p k).
  - destruct (p k') eqn:Ep; simpl.
    + destruct (String.eqb k k') eqn:E; auto.
      apply String.eqb_eq in E. subst. now rewrite Ep.
    + rewrite IH. destruct (String.eqb k k') eqn:E; auto.
      apply String.eqb_eq in E. subst. now rewrite Ep.
Qed.

Lemma keys_filter_key (p : string -> bool) m :
  keys (filter (fun e => p (fst e)) m) = filter p (keys m).
Proof.
  unfold keys. induction m as [|[k' v'] m IH]; simpl; auto.
  destruct (p k'); simpl; now rewrite IH.
Qed.

Lemma wf_filter (p : string * V -> bool) m : wf m -> wf (filter p m).
Proof.
  unfold wf, keys. induction m as [|[k' v'] m IH]; simpl; auto.
  intros Hnd. inversion Hnd; subst.
  destruct (p (k', v')); simpl; auto.
  constructor; auto.
  intros Hin. apply in_map_iff in Hin. destruct Hin as [[k0 v0] [Hk Hin]].
  apply filter_In in Hin. destruct Hin as [Hin _].
  simpl in Hk. subst. apply (in_map fst) in Hin. auto.
Qed.

(** Writing a list of entries one after the other: the last write of a key
    wins, and keys that are not written keep their value. *)
Lemma get_fold_set_absent k (es : list (string * V)) m :
  get k es = None ->
  get k (fold_left (fun m e => set (fst e) (snd e) m) es m) = get k m.
Proof.
  revert m. induction es as [|[k' v'] es IH]; simpl; intros m; auto.
  destruct (String.eqb k k') eqn:E; [discriminate|].
  intros H. rewrite IH; auto.
  apply get_set_other. now apply String.eqb_neq.
Qed.

Lemma get_fold_set k (es : list (string * V)) m :
  wf es ->
  get k (fold_left (fun m e => set (fst e) (snd e) m) es m) =
  match get k es with Some v => Some v | None => get k m end.
Proof.
  unfold wf. revert m. induction es as [|[k' v'] es IH]; simpl; intros m Hnd; auto.
  inversion Hnd as [|? ? Hnotin Hnd']; subst.
  destruct (String.eqb k k') eqn:E.
  - apply String.eqb_eq in E. subst k'.
    rewrite get_fold_set_absent by now apply get_None_iff.
    apply get_set_same.
  - rewrite IH by assumption.
    destruct (get k es); auto.
    apply get_set_other. now apply String.eqb_neq.
Qed.

Lemma wf_fold_set (es : list (string * V)) m :
  wf m -> wf (fold_left (fun m e => set (fst e) (snd e) m) es m).
Proof.
  revert m. induction es as [|[k' v'] es IH]; simpl; intros m Hm; auto.
  apply IH. now apply wf_set.
Qed.

Lemma get_ofEntries k (es : list (string * V)) :
  wf es -> get k (ofEntries es) = get k es.
Proof.
  intros Hwf. unfold ofEntries. rewrite get_fold_set by assumption.
  now destruct (get k es).
Qed.

(** The lookup of a map does not depend on the order of its entries. *)
Lemma get_Permutation k m m' :
  wf m -> Permutation m m' -> get k m = get k m'.
Proof.
  intros Hwf Hp.
  assert (Hwf' : wf m').
  { unfold wf, keys in *. eapply Permutation_NoDup; [|exact Hwf].
    now apply Permutation_map. }
  destruct (get k m) eqn:E.
  - apply get_In in E. symmetry. apply In_get; auto.
    eapply Permutation_in; eauto.
  - destruct (get k m') eqn:E'; auto.
    apply get_In in E'. apply Permutation_sym in Hp.
    eapply Permutation_in in E'; eauto.
    apply In_get in E'; auto. congruence.
Qed.

End Facts.

Lemma get_map_values {V W : Type} (f : V -> W) k (m : t V) :
  get k (map (fun e => (fst e, f (snd e))) m) = option_map f (get k m).
Proof.
  induction m as [|[k' v'] m IH]; simpl; auto.
  destruct (String.eqb k k'); auto.
Qed.

Lemma keys_map_values {V W : Type} (f : V -> W) (m : t V) :
  keys (map (fun e => (fst e, f (snd e))) m) = keys m.
Proof.
  unfold keys. rewrite map_map. now apply map_ext.
Qed.

End JSMapFacts.

(** ** Sorting *)

Module JSArrayFacts.
Import JSArray.

Section SortFacts.
Context {A : Type} (cmp : A -> A -> Z).

Lemma insert_Permutation x l : Permutation (x :: l) (insert cmp x l).
Proof.
  induction l as [|y l IH]; simpl; auto.
  destruct (cmp x y <=? 0)%Z; auto.
  eapply perm_trans; [apply perm_swap|]. now apply perm_skip.
Qed.

Lemma sort_Permutation l : Permutation l (sort cmp l).
Proof.
  induction l as [|x l IH]; simpl; auto.
  eapply perm_trans; [|apply insert_Permutation]. now apply perm_skip.
Qed.

Lemma In_sort x l : In x (sort cmp l) <-> In x l.
Proof.
  split; apply Permutation_in;
    [apply Permutation_sym|]; apply sort_Permutation.
Qed.

End SortFacts.

Section Collated.
Variable c : Collation.

Definition le (a b : string) : Prop := (localeCompare c a b <= 0)%Z.

Lemma le_total a b : le a b \/ le b a.
Proof.
  unfold le. pose proof (localeCompare_swap c a b) as H.
  destruct (Z.le_gt_cases (localeCompare c a b) 0) as [Hle|Hgt]; auto.
  right. rewrite (Z.sgn_pos _ Hgt) in H.
  destruct (Z.le_gt_cases (localeCompare c b a) 0) as [Hle'|Hgt']; auto.
  rewrite (Z.sgn_pos _ Hgt') in H. discriminate.
Qed.

Lemma insert_sorted x l :
  StronglySorted le l -> StronglySorted le (insert (localeCompare c) x l).
Proof.
  induction 1 as [|y l Hs IH Hall]; simpl.
  - constructor; constructor.
  - destruct (localeCompare c x y <=? 0)%Z eqn:E.
    + apply Z.leb_le in E. constructor.
      * now constructor.
      * constructor; auto.
        eapply Forall_impl; [|exact Hall].
        intros z Hz. eapply localeCompare_trans; eauto.
    + apply Z.leb_gt in E. constructor; auto.
      assert (Hyx : le y x).
      { destruct (le_total x y) as [H|H]; auto. unfold le in H. lia. }
      rewrite Forall_forall in *. intros z Hz.
      eapply Permutation_in in Hz;
        [|apply Permutation_sym, insert_Permutation].
      destruct Hz as [<-|Hz]; auto.
Qed.

Lemma sort_sorted l : StronglySorted le (sort (localeCompare c) l).
Proof.
  induction l as [|x l IH]; simpl; [constructor|].
  now apply insert_sorted.
Qed.

End Collated.

End JSArrayFacts.

(** ** Two collations *)

Lemma ascii_compare_trans a b c :
  Ascii.compare a b <> Gt -> Ascii.compare b c <> Gt ->
  Ascii.compare a c <> Gt.
Proof.
  unfold Ascii.compare. intros H1 H2.
  change (N_of_ascii a <= N_of_ascii c)%N.
  change (N_of_ascii a <= N_of_ascii b)%N in H1.
  change (N_of_ascii b <= N_of_ascii c)%N in H2.
  lia.
Qed.

Lemma ascii_compare_Eq a b : Ascii.compare a b = Eq -> a = b.
Proof.
  unfold Ascii.compare. intros H. apply N.compare_eq in H.
  rewrite <- (ascii_N_embedding a), <- (ascii_N_embedding b). now f_equal.
Qed.

Lemma string_compare_trans a : forall b c,
  String.compare a b <> Gt -> String.compare b c <> Gt ->
  String.compare a c <> Gt.
Proof.
  induction a as [|x a IH]; intros [|y b] [|z c]; simpl;
    try congruence.
  destruct (Ascii.compare x y) eqn:Exy; try congruence;
  destruct (Ascii.compare y z) eqn:Eyz; try congruence.
  - apply ascii_compare_Eq in Exy, Eyz. subst.
    assert (E : Ascii.compare z z = Eq).
    { unfold Ascii.compare. apply N.compare_refl. }
    rewrite E. apply IH.
  - apply ascii_compare_Eq in Exy. subst. now rewrite Eyz.
  - apply ascii_compare_Eq in Eyz. subst. now rewrite Exy.
  - intros _ _.
    assert (H : Ascii.compare x z <> Gt).
    { apply (ascii_compare_trans x y z); congruence. }
    destruct (Ascii.compare x z) eqn:Exz; try congruence.
    apply ascii_compare_Eq in Exz. subst.
    rewrite Ascii.compare_antisym in Exy. rewrite Eyz in Exy. discriminate.
Qed.

Lemma codeUnitCompare_swap a b :
  Z.sgn (codeUnitCompare b a) = (- Z.sgn (codeUnitCompare a b))%Z.
Proof.
  unfold codeUnitCompare. rewrite (String.compare_antisym b a).
  now destruct (String.compare a b).
Qed.

Lemma codeUnitCompare_le a b :
  (codeUnitCompare a b <= 0)%Z <-> String.compare a b <> Gt.
Proof.
  unfold codeUnitCompare. destruct (String.compare a b); split;
    intros; try lia; congruence.
Qed.

Lemma codeUnitCompare_trans a b c :
  (codeUnitCompare a b <= 0)%Z -> (codeUnitCompare b c <= 0)%Z ->
  (codeUnitCompare a c <= 0)%Z.
Proof.
  rewrite !codeUnitCompare_le. apply string_compare_trans.
Qed.

(** Code-unit order. *)
Definition codeUnitCollation : Collation :=
  {| localeCompare := codeUnitCompare;
     localeCompare_swap := codeUnitCompare_swap;
     localeCompare_trans := codeUnitCompare_trans |}.

(** An order that ignores the case of ASCII letters, as the collations of
    most locales do at their first level. *)
Definition caseFoldCollation : Collation :=
  {| localeCompare :=
       fun a b => codeUnitCompare (lowerString a) (lowerString b);
     localeCompare_swap :=
       fun a b => codeUnitCompare_swap (lowerString a) (lowerString b);
     localeCompare_trans :=
       fun a b c =>
         codeUnitCompare_trans (lowerString a) (lowerString b)
                               (lowerString c) |}.

(** The sort is stable: elements that compare as equal keep the order
    they had before. *)
Lemma filter_equiv_insert (c : Collation) (x a : string) (l : list string) :
  let eqv := fun y => (localeCompare c x y =? 0)%Z in
  filter eqv (JSArray.insert (localeCompare c) a l) =
  if eqv a then a :: filter eqv l else filter eqv l.
Proof.
  intros eqv. induction l as [|y l IH]; simpl; auto.
  destruct (localeCompare c a y <=? 0)%Z eqn:E; simpl; auto.
  rewrite IH. apply Z.leb_gt in E.
  destruct (eqv a) eqn:Ea; auto.
  destruct (eqv y) eqn:Ey; auto.
  exfalso. unfold eqv in Ea, Ey. apply Z.eqb_eq in Ea, Ey.
  pose proof (localeCompare_swap c x a) as Hs. rewrite Ea in Hs. simpl in Hs.
  assert (Hax : (localeCompare c a x <= 0)%Z).
  { destruct (localeCompare c a x); simpl in Hs; try discriminate; lia. }
  assert (Hxy : (localeCompare c x y <= 0)%Z) by lia.
  pose proof (localeCompare_trans c a x y Hax Hxy). lia.
Qed.

Lemma sort_stable (c : Collation) (x : string) (l : list string) :
  let eqv := fun y => (localeCompare c x y =? 0)%Z in
  filter eqv (JSArray.sort (localeCompare c) l) = filter eqv l.
Proof.
  intros eqv. induction l as [|a l IH]; simpl; auto.
  unfold eqv. rewrite filter_equiv_insert. fold eqv. rewrite IH.
  reflexivity.
Qed.

(** ** [enumerateFiles] *)

Lemma count_occ_filter (p : string -> bool) (l : list string) (x : string) :
  count_occ string_dec (filter p l) x =
  if p x then count_occ string_dec l x else 0.
Proof.
  induction l as [|y l IH]; simpl.
  - now destruct (p x).
  - destruct (p y) eqn:Ey; simpl; destruct (string_dec y x) as [->|Hne];
      rewrite IH.
    + rewrite Ey. reflexivity.
    + reflexivity.
    + rewrite Ey. reflexivity.
    + reflexivity.
Qed.

Lemma count_occ_NoDup_In (l : list string) (x : string) :
  NoDup l -> In x l -> count_occ string_dec l x = 1.
Proof.
  intros Hnd Hin.
  pose proof (proj1 (NoDup_count_occ string_dec l) Hnd x).
  pose proof (proj1 (count_occ_In string_dec l x) Hin). lia.
Qed.

Lemma includes_true_iff (x : string) (l : list string) :
  JSArray.includes x l = true <-> In x l.
Proof.
  unfold JSArray.includes. rewrite existsb_exists. split.
  - intros [y [Hy E]]. apply String.eqb_eq in E. now subst.
  - intros H. exists x. split; auto. apply String.eqb_refl.
Qed.

Section EnumerateFiles.
Context {Filters : Type} (filterValue : Filters -> string -> bool).
Context {BlobEntry : Type}
        (combinedPartPathToEntry : string -> string -> BlobEntry).
Context (collation : Collation).

Lemma In_keys_addEntries partition missingFiles (entries : JSMap.t BlobEntry) k :
  In k (JSMap.keys (addEntries combinedPartPathToEntry partition
                               missingFiles entries))
  <-> In k missingFiles \/ In k (JSMap.keys entries).
Proof.
  unfold addEntries. revert entries.
  induction missingFiles as [|f l IH]; simpl; intros entries.
  - tauto.
  - rewrite IH, JSMapFacts.In_keys_set. intuition congruence.
Qed.

Lemma wf_addEntries partition missingFiles (entries : JSMap.t BlobEntry) :
  JSMap.wf entries ->
  JSMap.wf (addEntries combinedPartPathToEntry partition missingFiles entries).
Proof.
  unfold addEntries. revert entries.
  induction missingFiles as [|f l IH]; simpl; intros entries Hwf; auto.
  apply IH. now apply JSMapFacts.wf_set.
Qed.

Lemma mergedMissingFiles_Permutation forced filesNew filesRef :
  Permutation
    (diffLists filesNew filesRef ++ filterValues filterValue forced filesRef)
    (mergedMissingFiles filterValue collation (Some forced) filesNew filesRef).
Proof. apply JSArrayFacts.sort_Permutation. Qed.

(** C1 (as amended): a stock file that the force-include filter set selects
    is in the merged missing list whatever the custom list holds; the
    merged list holds it once when the custom list has it and twice when it
    does not (the diff and the forced files both bring it); the entries map
    filled from the merged list has it as a key exactly once. *)
Theorem forced_file_in_missing_set
    (forced : Filters) (filesNew filesRef : list string) (partition : string)
    (entries : JSMap.t BlobEntry) (f : string) :
  NoDup filesRef ->
  JSMap.wf entries ->
  In f filesRef ->
  filterValue forced f = true ->
  let merged :=
    mergedMissingFiles filterValue collation (Some forced) filesNew filesRef in
  let final := addEntries combinedPartPathToEntry partition merged entries in
  In f merged /\
  count_occ string_dec merged f =
    (if JSArray.includes f filesNew then 1 else 2) /\
  JSMap.wf final /\
  count_occ string_dec (JSMap.keys final) f = 1.
Proof.
  intros Hnd Hwf Hin Hforced merged final.
  assert (Hcount : count_occ string_dec merged f =
                   if JSArray.includes f filesNew then 1 else 2).
  { unfold merged.
    rewrite <- (proj1 (Permutation_count_occ string_dec _ _)
                  (mergedMissingFiles_Permutation forced filesNew filesRef) f).
    rewrite count_occ_app. unfold diffLists, filterValues.
    rewrite !count_occ_filter, Hforced.
    rewrite (count_occ_NoDup_In filesRef f Hnd Hin).
    now destruct (JSArray.includes f filesNew). }
  assert (Hmerged : In f merged).
  { apply (count_occ_In string_dec). rewrite Hcount.
    destruct (JSArray.includes f filesNew); lia. }
  assert (Hfinal : JSMap.wf final) by now apply wf_addEntries.
  repeat split; auto.
  apply count_occ_NoDup_In; auto.
  apply In_keys_addEntries. now left.
Qed.

(** C3 (as amended): with a force-include filter set, the merged missing
    list is the diff and the forced files in the order of the host's
    collation; the packages of the device makefile are the generated
    packages and the build packages in that order; the sort is stable.  The
    order is that of [localeCompare] in the host's default locale. *)
Theorem ordered_outputs_sorted_in_host_collation
    (forced : Filters) (filesNew filesRef generated buildPkgs : list string) :
  let merged :=
    mergedMissingFiles filterValue collation (Some forced) filesNew filesRef in
  let unsorted :=
    diffLists filesNew filesRef ++ filterValues filterValue forced filesRef in
  (StronglySorted (JSArrayFacts.le collation) merged /\
   Permutation unsorted merged /\
   forall x,
     filter (fun y => (localeCompare collation x y =? 0)%Z) merged =
     filter (fun y => (localeCompare collation x y =? 0)%Z) unsorted) /\
  exists packages,
    generateBuildFiles_packages collation (Some generated) buildPkgs
      = Returns packages /\
    StronglySorted (JSArrayFacts.le collation) packages /\
    Permutation (generated ++ buildPkgs) packages /\
    forall x,
      filter (fun y => (localeCompare collation x y =? 0)%Z) packages =
      filter (fun y => (localeCompare collation x y =? 0)%Z)
             (generated ++ buildPkgs).
Proof.
  intros merged unsorted. split.
  - repeat split.
    + apply JSArrayFacts.sort_sorted.
    + apply mergedMissingFiles_Permutation.
    + intros x. apply sort_stable.
  - eexists. split; [reflexivity|]. repeat split.
    + apply JSArrayFacts.sort_sorted.
    + apply JSArrayFacts.sort_Permutation.
    + intros x. apply sort_stable.
Qed.

Context (ALL_SYS_PARTITIONS : list string).
Context (listPart : string -> string -> Filters -> option (list string)).

Section Skip.
Variables (filters : Filters) (forceIncludeFilters : option Filters)
          (customState : option SystemState) (stockSrc : string)
          (customSrc : option string).

Let body :=
  enumeratePartition filterValue combinedPartPathToEntry listPart collation
    filters forceIncludeFilters customState stockSrc customSrc.

Lemma enumerateFiles_without partition parts :
  (forall st, body st partition = st) ->
  forall st,
    fold_left body parts st =
    fold_left body
      (filter (fun q => negb (String.eqb q partition)) parts) st.
Proof.
  intros Hskip. induction parts as [|q parts IH]; simpl; intros st; auto.
  destruct (String.eqb q partition) eqn:E; simpl.
  - apply String.eqb_eq in E. subst q. rewrite Hskip. apply IH.
  - apply IH.
Qed.

End Skip.

(** C7: a partition that the stock root or the custom source does not list
    is skipped: the loop body leaves the entries map (and the spinner) as
    they are, no exception is raised, and the whole enumeration is the
    enumeration over the partition set without that partition. *)
Theorem absent_partition_is_skipped
    (filters : Filters) (forceIncludeFilters : option Filters)
    (customState : option SystemState) (stockSrc : string)
    (customSrc : option string) (partition : string)
    (st : EnumState BlobEntry) :
  listPart partition stockSrc filters = None \/
  customFiles listPart filters customState customSrc partition = None ->
  enumeratePartition filterValue combinedPartPathToEntry listPart collation
    filters forceIncludeFilters customState stockSrc customSrc st partition
    = st /\
  enumerateFiles filterValue combinedPartPathToEntry ALL_SYS_PARTITIONS
    listPart collation filters forceIncludeFilters customState stockSrc
    customSrc st
  = enumerateFiles filterValue combinedPartPathToEntry
      (filter (fun q => negb (String.eqb q partition)) ALL_SYS_PARTITIONS)
      listPart collation filters forceIncludeFilters customState stockSrc
      customSrc st.
Proof.
  intros Habsent.
  assert (Hskip : forall st',
    enumeratePartition filterValue combinedPartPathToEntry listPart collation
      filters forceIncludeFilters customState stockSrc customSrc st' partition
    = st').
  { intros st'. unfold enumeratePartition.
    destruct Habsent as [-> | Hc]; auto.
    destruct (listPart partition stockSrc filters); auto.
    now rewrite Hc. }
  split; [apply Hskip|].
  unfold enumerateFiles. now apply enumerateFiles_without.
Qed.

End EnumerateFiles.


Ltac nodup_strings :=
  repeat (constructor; [simpl; intuition discriminate|]); constructor.

Lemma forced_file_in_missing_set_witness :
  let merged :=
    mergedMissingFiles Sample.filterValue codeUnitCollation
      (Some ["system/bin/b"]) ["system/bin/a"]
      ["system/bin/a"; "system/bin/b"] in
  let final :=
    addEntries Sample.combinedPartPathToEntry "system" merged JSMap.empty in
  In "system/bin/b" merged /\
  count_occ string_dec merged "system/bin/b" =
    (if JSArray.includes "system/bin/b" ["system/bin/a"] then 1 else 2) /\
  JSMap.wf final /\
  count_occ string_dec (JSMap.keys final) "system/bin/b" = 1.
Proof.
  apply (forced_file_in_missing_set Sample.filterValue
           Sample.combinedPartPathToEntry codeUnitCollation
           ["system/bin/b"] ["system/bin/a"]
           ["system/bin/a"; "system/bin/b"] "system" JSMap.empty
           "system/bin/b").
  - nodup_strings.
  - constructor.
  - simpl. auto.
  - reflexivity.
Defined.

(** C1 fails as stated: a forced stock file that the custom list lacks is
    twice in the merged, re-sorted list. *)
Lemma forced_file_listed_twice :
  let filesRef := ["system/bin/b"] in
  let filesNew := @nil string in
  let forced := ["system/bin/b"] in
  let merged :=
    mergedMissingFiles Sample.filterValue codeUnitCollation (Some forced)
      filesNew filesRef in
  NoDup filesRef /\
  In "system/bin/b" filesRef /\
  Sample.filterValue forced "system/bin/b" = true /\
  merged = ["system/bin/b"; "system/bin/b"] /\
  ~ count_occ string_dec merged "system/bin/b" <= 1.
Proof.
  simpl. repeat split.
  - nodup_strings.
  - auto.
  - vm_compute. lia.
Qed.

(** C3 fails as stated: the order of the packages follows the collation of
    the host.  In code-unit order [B] comes before [a]; in an order that
    ignores case [a] comes before [B]. *)
Lemma packages_order_depends_on_collation :
  generateBuildFiles_packages codeUnitCollation (Some ["a"]) ["B"]
    = Returns ["B"; "a"] /\
  generateBuildFiles_packages caseFoldCollation (Some ["a"]) ["B"]
    = Returns ["a"; "B"] /\
  generateBuildFiles_packages codeUnitCollation (Some ["a"]) ["B"]
    <> generateBuildFiles_packages caseFoldCollation (Some ["a"]) ["B"].
Proof.
  repeat split; try reflexivity. vm_compute. discriminate.
Qed.

Lemma absent_partition_is_skipped_witness :
  enumeratePartition Sample.filterValue Sample.combinedPartPathToEntry
    Sample.listPart codeUnitCollation [] None None "stock" (Some "custom")
    Sample.emptyState "odm"
    = Sample.emptyState /\
  enumerateFiles Sample.filterValue Sample.combinedPartPathToEntry
    Sample.ALL_SYS_PARTITIONS Sample.listPart codeUnitCollation [] None None
    "stock" (Some "custom") Sample.emptyState
  = enumerateFiles Sample.filterValue Sample.combinedPartPathToEntry
      (filter (fun q => negb (String.eqb q "odm")) Sample.ALL_SYS_PARTITIONS)
      Sample.listPart codeUnitCollation [] None None "stock" (Some "custom")
      Sample.emptyState.
Proof.
  apply (absent_partition_is_skipped Sample.filterValue
           Sample.combinedPartPathToEntry codeUnitCollation
           Sample.ALL_SYS_PARTITIONS Sample.listPart [] None None "stock"
           (Some "custom") "odm" Sample.emptyState).
  left. reflexivity.
Defined.

(** The sample images: the vendor partition is in the stock root and not
    in the custom source, so only the system partition is diffed. *)
Example enumerateFiles_sample :
  enumerateFiles Sample.filterValue Sample.combinedPartPathToEntry
    Sample.ALL_SYS_PARTITIONS Sample.listPart codeUnitCollation [] None None
    "stock" (Some "custom") Sample.emptyState
  = {| namedEntries := [("system/bin/b", ("system", "system/bin/b"))];
       spinnerText := "system" |}.
Proof. reflexivity. Qed.

(** ** [resolveSepolicyDirs] *)

Section SourceContexts.
Variable parseContextsRecursive : string -> string -> SelinuxContexts.
Variable L : string.

Let write (sourceContexts : SelinuxContexts) (dir : string) :=
  fold_left (fun sc e => JSMap.set (fst e) (snd e) sc)
            (JSMap.entries (parseContextsRecursive dir "."))
            sourceContexts.

Lemma get_later_dirs_silent post : forall sc,
  (forall d, In d post -> JSMap.get L (parseContextsRecursive d ".") = None) ->
  JSMap.get L (fold_left write post sc) = JSMap.get L sc.
Proof.
  induction post as [|d post IH]; simpl; intros sc Hnone; auto.
  rewrite IH by auto. unfold write.
  apply JSMapFacts.get_fold_set_absent. apply Hnone. now left.
Qed.

Lemma get_last_definition pre B post s :
  JSMap.wf (parseContextsRecursive B ".") ->
  JSMap.get L (parseContextsRecursive B ".") = Some s ->
  (forall d, In d post -> JSMap.get L (parseContextsRecursive d ".") = None) ->
  JSMap.get L (sourceContextsOf parseContextsRecursive (pre ++ B :: post))
    = Some s.
Proof.
  intros Hwf HB Hpost. unfold sourceContextsOf.
  rewrite fold_left_app. simpl.
  change (JSMap.get L
            (fold_left write post (write (fold_left write pre JSMap.empty) B))
          = Some s).
  rewrite get_later_dirs_silent by assumption.
  unfold write, JSMap.entries. rewrite JSMapFacts.get_fold_set by assumption.
  now rewrite HB.
Qed.

End SourceContexts.

(** C2: when a label is defined by several source directories, the
    combined table maps it to the definition of the last of them in
    configuration order; the order of the entries inside a directory's
    table (the traversal order) does not change that. *)
Theorem later_directory_wins
    (parseContextsRecursive : string -> string -> SelinuxContexts)
    (pre : list string) (B : string) (post : list string) (L s : string) :
  JSMap.wf (parseContextsRecursive B ".") ->
  JSMap.get L (parseContextsRecursive B ".") = Some s ->
  (forall d, In d post -> JSMap.get L (parseContextsRecursive d ".") = None) ->
  JSMap.get L (sourceContextsOf parseContextsRecursive (pre ++ B :: post))
    = Some s /\
  forall otherTraversal : string -> string -> SelinuxContexts,
    (forall d, In d (pre ++ B :: post) ->
       JSMap.wf (otherTraversal d ".") /\
       Permutation (parseContextsRecursive d ".") (otherTraversal d ".")) ->
    JSMap.get L (sourceContextsOf otherTraversal (pre ++ B :: post)) = Some s.
Proof.
  intros Hwf HB Hpost. split.
  - now apply get_last_definition.
  - intros other Hother.
    assert (HinB : In B (pre ++ B :: post)).
    { apply in_or_app. right. now left. }
    destruct (Hother B HinB) as [HwfB HpB].
    apply get_last_definition; auto.
    + rewrite <- (JSMapFacts.get_Permutation L _ _ Hwf HpB). exact HB.
    + intros d Hd.
      assert (Hin : In d (pre ++ B :: post)).
      { apply in_or_app. right. now right. }
      destruct (Hother d Hin) as [Hwfd Hpd].
      rewrite (JSMapFacts.get_Permutation L _ _ Hwfd (Permutation_sym Hpd)).
      now apply Hpost.
Qed.

Lemma has_keys_eq {V W : Type} (k : string) (m : JSMap.t V) (m' : JSMap.t W) :
  JSMap.keys m = JSMap.keys m' -> JSMap.has k m = JSMap.has k m'.
Proof.
  intros Hk. apply Bool.eq_iff_eq_true.
  now rewrite !JSMapFacts.has_true_iff, Hk.
Qed.

Lemma In_keys_diffPartContexts (pctxRef : JSMap.t SelinuxContexts) k :
  forall (es : JSMap.t SelinuxContexts) (acc : JSMap.t (list string)),
  In k (JSMap.keys
          (fold_left
             (fun acc e =>
                match JSMap.get (fst e) pctxRef with
                | Some ctxRef =>
                    JSMap.set (fst e)
                      (filter (fun l => negb (JSMap.has l ctxRef))
                              (JSMap.keys (snd e)))
                      acc
                | None => acc
                end) es acc))
  <-> In k (JSMap.keys acc)
      \/ (In k (JSMap.keys es) /\ JSMap.has k pctxRef = true).
Proof.
  induction es as [|[p ctx] es IH]; simpl; intros acc.
  - tauto.
  - rewrite IH. unfold JSMap.has at 2.
    destruct (JSMap.get p pctxRef) eqn:E.
    + rewrite JSMapFacts.In_keys_set. split.
      * intros [[->|H]|[H1 H2]]; auto.
        right. split; auto. unfold JSMap.has. now rewrite E.
      * intros [H|[[->|H1] H2]]; auto.
    + split.
      * intros [H|[H1 H2]]; auto.
      * intros [H|[[->|H1] H2]]; auto.
        unfold JSMap.has in H2. rewrite E in H2. discriminate.
Qed.

Lemma has_diffPartContexts (pctxRef pctxNew : JSMap.t SelinuxContexts) k :
  JSMap.has k (diffPartContexts pctxRef pctxNew)
  = JSMap.has k pctxNew && JSMap.has k pctxRef.
Proof.
  apply Bool.eq_iff_eq_true.
  rewrite andb_true_iff, !JSMapFacts.has_true_iff.
  unfold diffPartContexts, JSMap.entries.
  rewrite In_keys_diffPartContexts. simpl.
  rewrite JSMapFacts.has_true_iff. tauto.
Qed.

(** C5 (as amended): the vendor entry of the resolutions, when the context
    diff produced one, leaves [resolveSepolicyDirs] with the tool's
    sepolicy directory appended to its directories and its missing contexts
    untouched; without a vendor entry nothing is injected.  Every other
    entry is as the resolution left it.  There is a vendor entry exactly
    when both the stock and the custom contexts list the vendor
    partition. *)
Theorem vendor_entry_receives_sepolicy_dir
    {Filters : Type} (filterValue : Filters -> string -> bool)
    (parsePartContexts : string -> JSMap.t SelinuxContexts)
    (parseContextsRecursive : string -> string -> SelinuxContexts)
    (sourceDirOf : string -> string)
    (config : DeviceConfig Filters) (customState : option SystemState)
    (dirs : VendorDirectories) (stockSrc customSrc : string) :
  let before :=
    ctxResolutionsOf filterValue parsePartContexts parseContextsRecursive
      sourceDirOf config customState stockSrc customSrc in
  let after :=
    resolveSepolicyDirs filterValue parsePartContexts parseContextsRecursive
      sourceDirOf config customState dirs stockSrc customSrc in
  let customContexts :=
    match customState with
    | Some cs => partitionSecontexts cs
    | None => parsePartContexts customSrc
    end in
  JSMap.get "vendor" after =
    option_map
      (fun r => {| sepolicyDirs := sepolicyDirs r ++ [sepolicy dirs];
                   missingContexts := missingContexts r |})
      (JSMap.get "vendor" before) /\
  (forall partition, partition <> "vendor" ->
     JSMap.get partition after = JSMap.get partition before) /\
  JSMap.keys after = JSMap.keys before /\
  JSMap.has "vendor" before =
    JSMap.has "vendor" (parsePartContexts stockSrc)
    && JSMap.has "vendor" customContexts.
Proof.
  intros before after customContexts.
  assert (Hafter : after = addApexLabels dirs before) by reflexivity.
  rewrite Hafter. unfold addApexLabels.
  repeat split.
  - destruct (JSMap.has "vendor" before) eqn:Eh.
    + unfold JSMap.has in Eh. destruct (JSMap.get "vendor" before) eqn:Eg;
        [|discriminate].
      simpl. apply JSMapFacts.get_set_same.
    + unfold JSMap.has in Eh. now destruct (JSMap.get "vendor" before).
  - intros partition Hne.
    destruct (JSMap.has "vendor" before); auto.
    destruct (JSMap.get "vendor" before); auto.
    now apply JSMapFacts.get_set_other.
  - destruct (JSMap.has "vendor" before) eqn:Eh; auto.
    destruct (JSMap.get "vendor" before); auto.
    rewrite JSMapFacts.keys_set. now rewrite Eh.
  - rewrite <- has_diffPartContexts.
    apply has_keys_eq.
    unfold before, ctxResolutionsOf, resolvePartContextDiffs. cbv zeta.
    apply (JSMapFacts.keys_map_values
             (fun labels =>
                resolveContextDiffs filterValue sourceDirOf labels
                  (sourceContextsOf parseContextsRecursive
                     (platform_sepolicy_dirs config))
                  (filters_sepolicy_dirs config))).
Qed.

Lemma later_directory_wins_witness :
  JSMap.get "ctxA"
    (sourceContextsOf Sample.parseContextsRecursive (["dirA"] ++ "dirB" :: []))
    = Some "dirB/fileA2" /\
  forall otherTraversal : string -> string -> SelinuxContexts,
    (forall d, In d (["dirA"] ++ "dirB" :: []) ->
       JSMap.wf (otherTraversal d ".") /\
       Permutation (Sample.parseContextsRecursive d ".")
                   (otherTraversal d ".")) ->
    JSMap.get "ctxA" (sourceContextsOf otherTraversal (["dirA"] ++ "dirB" :: []))
      = Some "dirB/fileA2".
Proof.
  apply (later_directory_wins Sample.parseContextsRecursive
           ["dirA"] "dirB" [] "ctxA" "dirB/fileA2").
  - nodup_strings.
  - reflexivity.
  - intros d [].
Defined.

(** The scenario of the spec: the vendor partition misses [ctxA] and
    [ctxC]; [ctxA] resolves to [dirB] and [ctxC] stays unresolved; the tool's
    own sepolicy directory follows. *)
Example resolveSepolicyDirs_sample :
  resolveSepolicyDirs Sample.filterValue Sample.parsePartContexts
    Sample.parseContextsRecursive Sample.sourceDirOf Sample.config None
    Sample.dirs "stock" "custom"
  = [ ("system", {| sepolicyDirs := []; missingContexts := [] |});
      ("vendor", {| sepolicyDirs := ["dirB"; "vendor/google/raven/sepolicy"];
                    missingContexts := ["ctxC"] |}) ].
Proof. reflexivity. Qed.

(** C5 fails as stated: when the custom image has no vendor contexts the
    resolutions have no vendor entry, and the tool's sepolicy directory is
    injected nowhere. *)
Lemma no_vendor_entry_no_injection :
  let result :=
    resolveSepolicyDirs Sample.filterValue Sample.parsePartContexts
      Sample.parseContextsRecursive Sample.sourceDirOf Sample.config None
      Sample.dirs "stock" "custom-system-only" in
  result = [("system", {| sepolicyDirs := []; missingContexts := [] |})] /\
  JSMap.get "vendor" result = None /\
  Forall (fun e => ~ In (sepolicy Sample.dirs) (sepolicyDirs (snd e))) result.
Proof.
  repeat split. constructor; [|constructor]. simpl. tauto.
Qed.

(** ** [resolveOverrides] *)

Lemma In_setAdd (x y : string) (s : list string) :
  In x (setAdd y s) <-> x = y \/ In x s.
Proof.
  unfold setAdd. destruct (JSArray.includes y s) eqn:E.
  - apply includes_true_iff in E. intuition congruence.
  - rewrite in_app_iff. simpl. intuition congruence.
Qed.

Lemma In_fold_setAdd (x : string) (ps : list string) : forall s,
  In x (fold_left (fun s p => setAdd p s) ps s) <-> In x ps \/ In x s.
Proof.
  induction ps as [|p ps IH]; simpl; intros s.
  - tauto.
  - rewrite IH, In_setAdd. intuition congruence.
Qed.

Section FindOverrideModules.
Variable targetPaths : list string.

Let step (acc : OverrideModules) (e : string * SoongModuleInfo) :=
  match filter (fun p => JSArray.includes p targetPaths)
               (installedPaths (snd e)) with
  | [] => acc
  | matched =>
      {| modules := setAdd (fst e) (modules acc);
         builtPaths := fold_left (fun s p => setAdd p s) matched
                                 (builtPaths acc) |}
  end.

(** An override module is a module of the metadata. *)
Lemma modules_step_subset (x : string) (es : SoongModuleInfoMap) : forall acc,
  In x (modules (fold_left step es acc)) ->
  In x (modules acc) \/ In x (JSMap.keys es).
Proof.
  induction es as [|e es IH]; simpl; intros acc H; auto.
  apply IH in H. destruct H as [H|H]; auto.
  unfold step in H.
  destruct (filter (fun p => JSArray.includes p targetPaths)
                   (installedPaths (snd e))); auto.
  simpl in H. apply In_setAdd in H. intuition.
Qed.

(** A built path is one of the candidate paths. *)
Lemma builtPaths_step_subset (x : string) (es : SoongModuleInfoMap) : forall acc,
  In x (builtPaths (fold_left step es acc)) ->
  In x (builtPaths acc) \/ In x targetPaths.
Proof.
  induction es as [|e es IH]; simpl; intros acc H; auto.
  apply IH in H. destruct H as [H|H]; auto.
  unfold step in H.
  destruct (filter (fun p => JSArray.includes p targetPaths)
                   (installedPaths (snd e))) as [|m ms] eqn:E; auto.
  simpl in H. rewrite In_fold_setAdd, In_setAdd in H.
  assert (Hm : forall p, In p (m :: ms) -> In p targetPaths).
  { intros p Hp. rewrite <- E in Hp. apply filter_In in Hp.
    now apply includes_true_iff. }
  destruct H as [H|[->|H]]; auto.
  - right. apply Hm. now right.
  - right. apply Hm. now left.
Qed.

Lemma modules_findOverrideModules (x : string) (mm : SoongModuleInfoMap) :
  In x (modules (findOverrideModules targetPaths mm)) -> In x (JSMap.keys mm).
Proof.
  intros H. apply modules_step_subset in H. simpl in H. tauto.
Qed.

Lemma builtPaths_findOverrideModules (x : string) (mm : SoongModuleInfoMap) :
  In x (builtPaths (findOverrideModules targetPaths mm)) -> In x targetPaths.
Proof.
  intros H. apply builtPaths_step_subset in H. simpl in H. tauto.
Qed.

End FindOverrideModules.

(** C4: a module whose metadata comes from the tool's own output
    (proprietary) directory is taken out of the module map before the
    override matching, so it is not among the override modules that
    [resolveOverrides] returns. *)
Theorem self_module_is_no_override
    {Filters BlobEntry : Type}
    (readFile : string -> string)
    (parseModuleInfo : string -> SoongModuleInfoMap)
    (config : DeviceConfig Filters) (dirs : VendorDirectories)
    (entries : JSMap.t BlobEntry) (name : string) (info : SoongModuleInfo) :
  let modulesMap :=
    parseModuleInfo
      (readFile (targetPrefix config ++ "module-info.json")%string) in
  JSMap.wf modulesMap ->
  In (name, info) modulesMap ->
  owningDir info = proprietary dirs ->
  ~ In name (JSMap.keys (removeSelfModules modulesMap (proprietary dirs))) /\
  ~ In name (fst (resolveOverrides readFile parseModuleInfo config dirs
                                   entries)).
Proof.
  intros modulesMap Hwf Hin Hown.
  assert (Hgone : ~ In name (JSMap.keys
                     (removeSelfModules modulesMap (proprietary dirs)))).
  { intros Hk. unfold JSMap.keys in Hk. apply in_map_iff in Hk.
    destruct Hk as [[n info'] [Hn Hk]]. simpl in Hn. subst n.
    unfold removeSelfModules in Hk. apply filter_In in Hk.
    destruct Hk as [Hk Hkeep].
    apply (JSMapFacts.In_get _ _ _ Hwf) in Hin, Hk.
    rewrite Hin in Hk. injection Hk as <-.
    simpl in Hkeep. rewrite Hown, String.eqb_refl in Hkeep. discriminate. }
  split; auto.
  intros Hmod. apply Hgone.
  unfold resolveOverrides in Hmod. simpl in Hmod.
  now apply modules_findOverrideModules in Hmod.
Qed.

Lemma self_module_is_no_override_witness :
  ~ In "libfoo"
      (JSMap.keys
         (removeSelfModules
            (Sample.parseModuleInfo
               (Sample.readFile
                  (targetPrefix Sample.config ++ "module-info.json")%string))
            (proprietary Sample.dirs))) /\
  ~ In "libfoo"
      (fst (resolveOverrides Sample.readFile Sample.parseModuleInfo
              Sample.config Sample.dirs Sample.entries)).
Proof.
  apply (self_module_is_no_override Sample.readFile Sample.parseModuleInfo
           Sample.config Sample.dirs Sample.entries "libfoo"
           {| installedPaths := ["out/target/product/raven/system/bin/b"];
              moduleClass := "EXECUTABLES";
              owningDir := "vendor/google/raven/proprietary" |}).
  - nodup_strings.
  - simpl. auto.
  - reflexivity.
Defined.

(** On the sample metadata only [libbar] overrides, and only its path
    leaves the entries. *)
Example resolveOverrides_sample :
  resolveOverrides Sample.readFile Sample.parseModuleInfo Sample.config
    Sample.dirs Sample.entries
  = (["libbar"], [("system/bin/b", ("system", "system/bin/b"))]).
Proof. reflexivity. Qed.

Lemma string_app_inj (p a b : string) :
  (p ++ a)%string = (p ++ b)%string -> a = b.
Proof.
  induction p as [|c p IH]; simpl; auto.
  intros [= H]. auto.
Qed.

Lemma prefix_app (p s : string) : String.prefix p (p ++ s) = true.
Proof.
  induction p as [|c p IH]; simpl.
  - now destruct s.
  - destruct (ascii_dec c c); [exact IH | congruence].
Qed.

Lemma drop_app (p s : string) :
  JSString.drop (String.length p) (p ++ s) = s.
Proof. induction p as [|c p IH]; simpl; auto. Qed.

(** Replacing the prefix of a prefixed path gives the path back: the first
    occurrence of the prefix is the one in front. *)
Lemma replace_prefixed (p s : string) :
  JSString.replaceFirstWithEmpty p (p ++ s) = s.
Proof.
  assert (H : forall t,
             JSString.replaceFirstWithEmpty p t =
             if String.prefix p t then JSString.drop (String.length p) t
             else match t with
                  | EmptyString => EmptyString
                  | String c t' =>
                      String c (JSString.replaceFirstWithEmpty p t')
                  end).
  { intros t. destruct t; reflexivity. }
  rewrite H, prefix_app. apply drop_app.
Qed.

Lemma removeBuilt_filter {BlobEntry : Type} (prefix : string)
    (paths : list string) : forall entries : JSMap.t BlobEntry,
  removeBuilt prefix paths entries =
  filter
    (fun e =>
       negb (existsb
               (fun path =>
                  String.eqb (JSString.replaceFirstWithEmpty prefix path)
                             (fst e))
               paths))
    entries.
Proof.
  unfold removeBuilt.
  induction paths as [|p paths IH]; simpl; intros entries.
  - induction entries as [|e es IHe]; simpl; congruence.
  - rewrite IH. unfold JSMap.delete.
    induction entries as [|e es IHe]; simpl; auto.
    destruct (String.eqb (JSString.replaceFirstWithEmpty prefix p) (fst e));
      simpl; rewrite IHe; reflexivity.
Qed.

(** C8: [resolveOverrides] returns the override modules found and leaves
    the entries map without the entries whose prefixed path was built, and
    with every other entry, its value and its position unchanged; the
    override modules, passed on among the build packages, are all in the
    packages of the device makefile. *)
Theorem built_paths_removed_modules_packaged
    {Filters BlobEntry : Type}
    (readFile : string -> string)
    (parseModuleInfo : string -> SoongModuleInfoMap)
    (collation : Collation)
    (config : DeviceConfig Filters) (dirs : VendorDirectories)
    (entries : JSMap.t BlobEntry) (generated otherPkgs : list string) :
  let targetPaths :=
    map (fun cPartPath => (targetPrefix config ++ cPartPath)%string)
        (JSMap.keys entries) in
  let modulesMap :=
    removeSelfModules
      (parseModuleInfo
         (readFile (targetPrefix config ++ "module-info.json")%string))
      (proprietary dirs) in
  let found := findOverrideModules targetPaths modulesMap in
  let result :=
    resolveOverrides readFile parseModuleInfo config dirs entries in
  fst result = modules found /\
  snd result =
    filter
      (fun e =>
         negb (JSArray.includes (targetPrefix config ++ fst e)%string
                                (builtPaths found)))
      entries /\
  exists packages,
    generateBuildFiles_packages collation (Some generated)
                                (fst result ++ otherPkgs)
      = Returns packages /\
    Forall (fun m => In m packages) (fst result).
Proof.
  intros targetPaths modulesMap found result.
  split; [reflexivity|]. split.
  - change (snd result)
      with (removeBuilt (targetPrefix config) (builtPaths found) entries).
    rewrite removeBuilt_filter. apply filter_ext_in.
    intros e He. f_equal. apply Bool.eq_iff_eq_true.
    rewrite includes_true_iff, existsb_exists. split.
    + intros [p [Hp Heq]]. apply String.eqb_eq in Heq.
      pose proof (builtPaths_findOverrideModules _ _ _ Hp) as Ht.
      unfold targetPaths in Ht. apply in_map_iff in Ht.
      destruct Ht as [k [Hk _]]. subst p.
      rewrite replace_prefixed in Heq. now subst k.
    + intros Hin. eexists. split; [exact Hin|].
      rewrite replace_prefixed. apply String.eqb_refl.
  - eexists. split; [reflexivity|].
    apply Forall_forall. intros m Hm.
    apply JSArrayFacts.In_sort. apply in_or_app. right.
    apply in_or_app. now left.
Qed.

(** ** [extractProps] *)

Section DiffPartitionProps.
Variable partPropsNew : PartitionProps.

Let step (acc : JSMap.t PartitionPropChanges) (e : string * JSMap.t string) :=
  match JSMap.get (fst e) partPropsNew with
  | Some propsNew => JSMap.set (fst e) (diffPartProps (snd e) propsNew) acc
  | None => acc
  end.

Lemma wf_diff_step (es : PartitionProps) : forall acc,
  JSMap.wf acc -> JSMap.wf (fold_left step es acc).
Proof.
  induction es as [|e es IH]; simpl; intros acc Hacc; auto.
  apply IH. unfold step.
  destruct (JSMap.get (fst e) partPropsNew); auto.
  now apply JSMapFacts.wf_set.
Qed.

Lemma get_diff_step_absent part (es : PartitionProps) : forall acc,
  JSMap.get part es = None ->
  JSMap.get part (fold_left step es acc) = JSMap.get part acc.
Proof.
  induction es as [|[k v] es IH]; simpl; intros acc Hn; auto.
  destruct (String.eqb part k) eqn:E; [discriminate|].
  rewrite IH by assumption. unfold step. simpl.
  destruct (JSMap.get k partPropsNew); auto.
  apply JSMapFacts.get_set_other. now apply String.eqb_neq.
Qed.

Lemma get_diff_step part (es : PartitionProps) : forall acc,
  JSMap.wf es ->
  JSMap.get part (fold_left step es acc) =
  match JSMap.get part es, JSMap.get part partPropsNew with
  | Some propsRef, Some propsNew => Some (diffPartProps propsRef propsNew)
  | _, _ => JSMap.get part acc
  end.
Proof.
  unfold JSMap.wf.
  induction es as [|[k v] es IH]; simpl; intros acc Hwf; auto.
  inversion Hwf as [|? ? Hnotin Hwf']; subst.
  destruct (String.eqb part k) eqn:E.
  - apply String.eqb_eq in E. subst k.
    rewrite get_diff_step_absent by now apply JSMapFacts.get_None_iff.
    unfold step. simpl.
    destruct (JSMap.get part partPropsNew); auto.
    apply JSMapFacts.get_set_same.
  - rewrite IH by assumption.
    assert (Hacc : JSMap.get part (step acc (k, v)) = JSMap.get part acc).
    { unfold step. simpl. destruct (JSMap.get k partPropsNew); auto.
      apply JSMapFacts.get_set_other. now apply String.eqb_neq. }
    rewrite Hacc. reflexivity.
Qed.

Lemma get_diffPartitionProps part (partPropsRef : PartitionProps) :
  JSMap.wf partPropsRef ->
  JSMap.get part (diffPartitionProps partPropsRef partPropsNew) =
  match JSMap.get part partPropsRef, JSMap.get part partPropsNew with
  | Some propsRef, Some propsNew => Some (diffPartProps propsRef propsNew)
  | _, _ => None
  end.
Proof.
  intros Hwf. unfold diffPartitionProps, JSMap.entries.
  change (JSMap.get part (fold_left step partPropsRef JSMap.empty) =
          match JSMap.get part partPropsRef, JSMap.get part partPropsNew with
          | Some propsRef, Some propsNew =>
              Some (diffPartProps propsRef propsNew)
          | _, _ => None
          end).
  rewrite get_diff_step by assumption.
  destruct (JSMap.get part partPropsRef); auto.
Qed.

Lemma wf_diffPartitionProps (partPropsRef : PartitionProps) :
  JSMap.wf (diffPartitionProps partPropsRef partPropsNew).
Proof.
  unfold diffPartitionProps, JSMap.entries.
  change (JSMap.wf (fold_left step partPropsRef JSMap.empty)).
  apply wf_diff_step. constructor.
Qed.

End DiffPartitionProps.

Lemma get_missingPropsOf part (stock custom : PartitionProps) :
  JSMap.get part (missingPropsOf stock custom) =
  option_map removed (JSMap.get part (diffPartitionProps stock custom)).
Proof.
  unfold missingPropsOf, JSMap.entries.
  rewrite JSMapFacts.get_ofEntries.
  - apply JSMapFacts.get_map_values.
  - unfold JSMap.wf. rewrite JSMapFacts.keys_map_values.
    apply wf_diffPartitionProps.
Qed.

Lemma get_removed key (propsRef propsNew : JSMap.t string) :
  JSMap.get key (removed (diffPartProps propsRef propsNew)) =
  if JSMap.has key propsNew then None else JSMap.get key propsRef.
Proof.
  unfold diffPartProps. simpl.
  rewrite (JSMapFacts.get_filter_key
             (fun k => negb (JSMap.has k propsNew)) key propsRef).
  now destruct (JSMap.has key propsNew).
Qed.

Section ExtractProps.
Context {Filters : Type} (filterValue : Filters -> string -> bool).
Context (loadPartitionProps : string -> PartitionProps).

Lemma get_filterAllProps part (filters : Filters) (pp : PartitionProps) :
  JSMap.get part (filterAllProps filterValue filters pp) =
  option_map (filterKeys filterValue filters) (JSMap.get part pp).
Proof. apply JSMapFacts.get_map_values. Qed.

Lemma get_filterKeys key (filters : Filters) (m : JSMap.t string) :
  JSMap.get key (filterKeys filterValue filters m) =
  if filterValue filters key then JSMap.get key m else None.
Proof. apply (JSMapFacts.get_filter_key (filterValue filters)). Qed.

Lemma wf_filterAllProps (filters : Filters) (pp : PartitionProps) :
  JSMap.wf pp -> JSMap.wf (filterAllProps filterValue filters pp).
Proof.
  unfold JSMap.wf, filterAllProps. now rewrite JSMapFacts.keys_map_values.
Qed.

(** What [extractProps] returns when it returns. *)
Lemma extractProps_Returns (config : DeviceConfig Filters)
    (customState : option SystemState) (stockSrc : string)
    (customSrc : option string) (r : PropResults) :
  extractProps filterValue loadPartitionProps config customState stockSrc
               customSrc = Returns r ->
  let stock := filterAllProps filterValue (filters_props config)
                              (loadPartitionProps stockSrc) in
  let custom :=
    filterAllProps filterValue (filters_props config)
      (customPropsOf loadPartitionProps customState customSrc) in
  exists system product ota,
    JSMap.get "system" stock = Some system /\
    JSMap.get "product" stock = Some product /\
    JSMap.get "ro.product.ab_ota_partitions" product = Some ota /\
    stockProps r = stock /\
    missingProps r = Some (missingPropsOf stock custom) /\
    fingerprint r = JSMap.get "ro.system.build.fingerprint" system.
Proof.
  intros Hrun stock custom. unfold extractProps in Hrun.
  fold stock in Hrun. fold custom in Hrun.
  destruct (JSMap.get "system" stock) as [system|] eqn:Es;
    [|discriminate].
  destruct (JSMap.get "product" stock) as [product|] eqn:Ep;
    [|discriminate].
  simpl in Hrun.
  destruct (JSMap.get "ro.product.ab_ota_partitions" product) as [ota|] eqn:Eo;
    [|discriminate].
  simpl in Hrun. injection Hrun as <-.
  exists system, product, ota. simpl. auto 10.
Qed.

End ExtractProps.

(** C6: the [missingProps] that [extractProps] hands on hold, for every
    partition that both images have, exactly the removed properties: those
    of the (filtered) stock properties whose key the (filtered) custom
    properties lack, with the stock value.  A property present in both,
    with whatever values, is not among them. *)
Theorem missingProps_are_the_removed_props
    {Filters : Type} (filterValue : Filters -> string -> bool)
    (loadPartitionProps : string -> PartitionProps)
    (config : DeviceConfig Filters) (customState : option SystemState)
    (stockSrc : string) (customSrc : option string) (r : PropResults) :
  let stock := filterAllProps filterValue (filters_props config)
                              (loadPartitionProps stockSrc) in
  let custom :=
    filterAllProps filterValue (filters_props config)
      (customPropsOf loadPartitionProps customState customSrc) in
  JSMap.wf (loadPartitionProps stockSrc) ->
  extractProps filterValue loadPartitionProps config customState stockSrc
               customSrc = Returns r ->
  exists missing,
    missingProps r = Some missing /\
    (forall part,
       JSMap.get part missing =
       option_map removed (JSMap.get part (diffPartitionProps stock custom))) /\
    (forall part key value,
       (exists props, JSMap.get part missing = Some props /\
                      JSMap.get key props = Some value)
       <-> (exists propsStock propsCustom,
              JSMap.get part stock = Some propsStock /\
              JSMap.get part custom = Some propsCustom /\
              JSMap.get key propsStock = Some value /\
              JSMap.get key propsCustom = None)) /\
    (forall part props propsCustom key,
       JSMap.get part missing = Some props ->
       JSMap.get part custom = Some propsCustom ->
       JSMap.has key propsCustom = true ->
       JSMap.get key props = None).
Proof.
  intros stock custom Hwf Hrun.
  apply extractProps_Returns in Hrun.
  destruct Hrun as (system & product & ota & _ & _ & _ & _ & Hm & _).
  fold stock in Hm. fold custom in Hm.
  exists (missingPropsOf stock custom). split; [exact Hm|].
  assert (Hstock : JSMap.wf stock) by now apply wf_filterAllProps.
  assert (Hget : forall part,
    JSMap.get part (missingPropsOf stock custom) =
    match JSMap.get part stock, JSMap.get part custom with
    | Some ps, Some pc => Some (removed (diffPartProps ps pc))
    | _, _ => None
    end).
  { intros part. rewrite get_missingPropsOf, get_diffPartitionProps by auto.
    destruct (JSMap.get part stock); auto.
    destruct (JSMap.get part custom); auto. }
  split; [|split].
  - intros part. apply get_missingPropsOf.
  - intros part key value. rewrite Hget. split.
    + intros [props [Hp Hk]].
      destruct (JSMap.get part stock) as [ps|]; [|discriminate].
      destruct (JSMap.get part custom) as [pc|]; [|discriminate].
      assert (Hprops : props = removed (diffPartProps ps pc))
        by congruence.
      rewrite Hprops, get_removed in Hk.
      exists ps, pc. unfold JSMap.has in Hk.
      destruct (JSMap.get key pc); [discriminate|]. auto.
    + intros (ps & pc & -> & -> & Hk & Hn).
      eexists. split; [reflexivity|].
      rewrite get_removed. unfold JSMap.has. now rewrite Hn.
  - intros part props pc key Hp Hc Hhas. rewrite Hget, Hc in Hp.
    destruct (JSMap.get part stock) as [ps|]; [|discriminate].
    assert (Hprops : props = removed (diffPartProps ps pc)) by congruence.
    rewrite Hprops, get_removed. now rewrite Hhas.
Qed.

(** The scenario of the spec: [ro.a] is in stock and not in custom, [ro.b]
    differs, [ro.hidden] is filtered out. *)
Example extractProps_sample :
  extractProps Sample.filterValue Sample.loadPartitionProps Sample.config
    None "stock" (Some "custom")
  = Returns
      {| stockProps :=
           [ ("system",
              [("ro.system.build.fingerprint", "google/raven/raven:12");
               ("ro.a", "1"); ("ro.b", "1")]);
             ("product",
              [("ro.product.ab_ota_partitions", "boot,system,vendor")]) ];
         missingProps :=
           Some [ ("system",
                   [("ro.system.build.fingerprint", "google/raven/raven:12");
                    ("ro.a", "1")]);
                  ("product", []) ];
         fingerprint := Some "google/raven/raven:12";
         missingOtaParts := ["vendor"] |}.
Proof. reflexivity. Qed.

Lemma missingProps_are_the_removed_props_witness :
  let stock := filterAllProps Sample.filterValue (filters_props Sample.config)
                              (Sample.loadPartitionProps "stock") in
  let custom :=
    filterAllProps Sample.filterValue (filters_props Sample.config)
      (customPropsOf Sample.loadPartitionProps None (Some "custom")) in
  exists missing,
    Some [ ("system",
            [("ro.system.build.fingerprint", "google/raven/raven:12");
             ("ro.a", "1")]);
           ("product", []) ] = Some missing /\
    (forall part,
       JSMap.get part missing =
       option_map removed (JSMap.get part (diffPartitionProps stock custom))) /\
    (forall part key value,
       (exists props, JSMap.get part missing = Some props /\
                      JSMap.get key props = Some value)
       <-> (exists propsStock propsCustom,
              JSMap.get part stock = Some propsStock /\
              JSMap.get part custom = Some propsCustom /\
              JSMap.get key propsStock = Some value /\
              JSMap.get key propsCustom = None)) /\
    (forall part props propsCustom key,
       JSMap.get part missing = Some props ->
       JSMap.get part custom = Some propsCustom ->
       JSMap.has key propsCustom = true ->
       JSMap.get key props = None).
Proof.
  apply (missingProps_are_the_removed_props Sample.filterValue
           Sample.loadPartitionProps Sample.config None "stock"
           (Some "custom")
           {| stockProps :=
                [ ("system",
                   [("ro.system.build.fingerprint", "google/raven/raven:12");
                    ("ro.a", "1"); ("ro.b", "1")]);
                  ("product",
                   [("ro.product.ab_ota_partitions", "boot,system,vendor")]) ];
              missingProps :=
                Some [ ("system",
                        [("ro.system.build.fingerprint",
                          "google/raven/raven:12");
                         ("ro.a", "1")]);
                       ("product", []) ];
              fingerprint := Some "google/raven/raven:12";
              missingOtaParts := ["vendor"] |}).
  - nodup_strings.
  - reflexivity.
Defined.

(** C10 (as amended): [extractProps] throws a [TypeError] when the stock
    properties have no system partition, no product partition, or a product
    partition without [ro.product.ab_ota_partitions]; nothing is skipped.
    A system partition without [ro.system.build.fingerprint] does not make
    it fail: the fingerprint of the result is then undefined. *)
Theorem extractProps_dereferences_stock_props
    {Filters : Type} (filterValue : Filters -> string -> bool)
    (loadPartitionProps : string -> PartitionProps)
    (config : DeviceConfig Filters) (customState : option SystemState)
    (stockSrc : string) (customSrc : option string) :
  let stock := loadPartitionProps stockSrc in
  let run :=
    extractProps filterValue loadPartitionProps config customState stockSrc
                 customSrc in
  (JSMap.get "system" stock = None -> run = Throws TypeError) /\
  (JSMap.get "product" stock = None -> run = Throws TypeError) /\
  (forall product,
     JSMap.get "product" stock = Some product ->
     JSMap.get "ro.product.ab_ota_partitions" product = None ->
     run = Throws TypeError) /\
  (forall system product ota,
     JSMap.get "system" stock = Some system ->
     JSMap.get "product" stock = Some product ->
     JSMap.get "ro.product.ab_ota_partitions" product = Some ota ->
     filterValue (filters_props config) "ro.product.ab_ota_partitions"
       = true ->
     exists r,
       run = Returns r /\
       fingerprint r =
         if filterValue (filters_props config) "ro.system.build.fingerprint"
         then JSMap.get "ro.system.build.fingerprint" system
         else None).
Proof.
  intros stock run. unfold run, extractProps.
  rewrite !get_filterAllProps. fold stock.
  repeat split.
  - intros ->. reflexivity.
  - intros ->. simpl. now destruct (JSMap.get "system" stock).
  - intros product -> Hota. simpl.
    rewrite get_filterKeys, Hota.
    destruct (JSMap.get "system" stock); simpl;
      now destruct (filterValue (filters_props config)
                                "ro.product.ab_ota_partitions").
  - intros system product ota -> -> Hota Hkeep. simpl.
    rewrite !get_filterKeys, Hota, Hkeep. simpl.
    eexists. split; reflexivity.
Qed.

Lemma extractProps_dereferences_stock_props_witness :
  exists r,
    extractProps Sample.filterValue Sample.loadPartitionProps Sample.config
      None "stock-no-fingerprint" (Some "custom") = Returns r /\
    fingerprint r =
      if Sample.filterValue (filters_props Sample.config)
                            "ro.system.build.fingerprint"
      then JSMap.get "ro.system.build.fingerprint" [("ro.a", "1")]
      else None.
Proof.
  apply (proj2 (proj2 (proj2
           (extractProps_dereferences_stock_props Sample.filterValue
              Sample.loadPartitionProps Sample.config None
              "stock-no-fingerprint" (Some "custom"))))
           [("ro.a", "1")]
           [("ro.product.ab_ota_partitions", "boot,system,vendor")]
           "boot,system,vendor");
    reflexivity.
Defined.

(** C10 fails as stated: a stock image whose system partition has no
    [ro.system.build.fingerprint] does not make [extractProps] fail. *)
Lemma missing_fingerprint_does_not_throw :
  JSMap.get "system" (Sample.loadPartitionProps "stock-no-fingerprint")
    = Some [("ro.a", "1")] /\
  JSMap.get "ro.system.build.fingerprint" [("ro.a", "1")] = None /\
  extractProps Sample.filterValue Sample.loadPartitionProps Sample.config
    None "stock-no-fingerprint" (Some "custom")
  = Returns
      {| stockProps :=
           [ ("system", [("ro.a", "1")]);
             ("product",
              [("ro.product.ab_ota_partitions", "boot,system,vendor")]) ];
         missingProps := Some [("system", [("ro.a", "1")]); ("product", [])];
         fingerprint := None;
         missingOtaParts := ["vendor"] |}.
Proof. repeat split. Qed.

(** ** [serializeBoardMakefile] *)

Module MakeFacts.
Import Make.

Local Open Scope string_scope.

Lemma append_assoc (a b c : string) : (a ++ b) ++ c = a ++ b ++ c.
Proof. induction a as [|x a IH]; simpl; congruence. Qed.

Lemma append_nil_r (a : string) : a ++ "" = a.
Proof. induction a as [|x a IH]; simpl; congruence. Qed.

(** The text in front of and behind one element of a joined list. *)
Definition before (sep : string) (l : list string) : string :=
  fold_right (fun y acc => y ++ sep ++ acc) "" l.

Definition behind (sep : string) (l : list string) : string :=
  fold_right (fun y acc => sep ++ y ++ acc) "" l.

Lemma join_cons (sep x : string) (l : list string) :
  JSString.join sep (x :: l) = x ++ behind sep l.
Proof.
  revert x. induction l as [|y l IH]; intros x.
  - simpl. now rewrite append_nil_r.
  - change (x ++ sep ++ JSString.join sep (y :: l) = x ++ behind sep (y :: l)).
    rewrite IH. reflexivity.
Qed.

Lemma join_split (sep : string) (l1 : list string) (x : string)
    (l2 : list string) :
  JSString.join sep (l1 ++ x :: l2)%list = before sep l1 ++ x ++ behind sep l2.
Proof.
  induction l1 as [|y l1 IH].
  - apply join_cons.
  - simpl app. rewrite join_cons.
    assert (H : behind sep (l1 ++ x :: l2)%list
                = sep ++ JSString.join sep (l1 ++ x :: l2)%list).
    { destruct l1; simpl app; rewrite join_cons; reflexivity. }
    rewrite H, IH. simpl before. rewrite !append_assoc. reflexivity.
Qed.

Lemma before_ends (sep : string) (l : list string) :
  l <> [] -> exists a, before sep l = a ++ sep.
Proof.
  induction l as [|y l IH]; [congruence|]. intros _.
  destruct l as [|z l].
  - exists y. simpl. now rewrite append_nil_r.
  - destruct IH as [a Ha]; [discriminate|].
    exists (y ++ sep ++ a).
    change (y ++ sep ++ before sep (z :: l) = (y ++ sep ++ a) ++ sep).
    rewrite Ha, !append_assoc. reflexivity.
Qed.

Lemma newline_before (l : list string) :
  exists x, forall rest,
    JSString.newline ++ before JSString.newline l ++ rest
    = x ++ JSString.newline ++ rest.
Proof.
  destruct l as [|y l].
  - exists "". reflexivity.
  - destruct (before_ends JSString.newline (y :: l)) as [a Ha];
      [discriminate|].
    exists (JSString.newline ++ a). intros rest.
    rewrite Ha, !append_assoc. reflexivity.
Qed.

Lemma behind_newline (l : list string) (t : string) :
  exists y,
    behind JSString.newline l ++ JSString.newline ++ t = JSString.newline ++ y.
Proof.
  destruct l as [|z l].
  - exists t. reflexivity.
  - exists (z ++ behind JSString.newline l ++ JSString.newline ++ t).
    change (behind JSString.newline (z :: l))
      with (JSString.newline ++ z ++ behind JSString.newline l).
    rewrite !append_assoc. reflexivity.
Qed.

Lemma behind_blocks_newline (l : list string) :
  exists t,
    behind (JSString.newline ++ JSString.newline) l ++ JSString.newline
    = JSString.newline ++ t.
Proof.
  destruct l as [|z l].
  - exists "". reflexivity.
  - exists (JSString.newline ++ z
            ++ behind (JSString.newline ++ JSString.newline) l
            ++ JSString.newline).
    change (behind (JSString.newline ++ JSString.newline) (z :: l))
      with ((JSString.newline ++ JSString.newline) ++ z
            ++ behind (JSString.newline ++ JSString.newline) l).
    rewrite !append_assoc. reflexivity.
Qed.

Section Blocks.
Variable MAKEFILE_HEADER : string.

(** A line of a block that is not the first block is a line of the
    serialized text: it stands between two newlines. *)
Lemma line_of_block (l1 l2 m1 m2 : list string) (line : string) :
  l1 <> [] ->
  exists pre post,
    finishBlocks
      (l1 ++ JSString.join JSString.newline (m1 ++ line :: m2)%list :: l2)%list
    = pre ++ JSString.newline ++ line ++ JSString.newline ++ post.
Proof.
  intros Hl1. unfold finishBlocks. rewrite !join_split.
  destruct (before_ends (JSString.newline ++ JSString.newline) l1 Hl1)
    as [a Ha].
  destruct (newline_before m1) as [x Hx].
  destruct (behind_blocks_newline l2) as [t Ht].
  destruct (behind_newline m2 t) as [y Hy].
  exists (a ++ JSString.newline ++ x), y.
  rewrite Ha, !append_assoc, Hx, Ht, Hy. reflexivity.
Qed.

(** What one entry of the resolutions pushes. *)
Definition partitionBlocks (e : string * SelinuxResolutions) : list string :=
  (match sepolicyDirs (snd e) with
   | [] => []
   | dirs =>
       [contBlock
          (JSString.ofOption (JSMap.get (fst e) SEPOLICY_PARTITION_VARS))
          dirs]
   end
   ++
   match missingContexts (snd e) with
   | [] => []
   | contexts =>
       [JSString.join JSString.newline
          (map (missingContextLine (fst e)) contexts)]
   end)%list.

Lemma pushPartition_blocks (blocks : list string)
    (e : string * SelinuxResolutions) :
  pushPartition blocks e = (blocks ++ partitionBlocks e)%list.
Proof.
  unfold pushPartition, partitionBlocks, addContBlock.
  destruct (sepolicyDirs (snd e)) as [|d ds];
    destruct (missingContexts (snd e)) as [|c cs]; simpl;
    rewrite <- ?List.app_assoc, ?List.app_nil_r; reflexivity.
Qed.

Lemma fold_pushPartition (es : list (string * SelinuxResolutions)) :
  forall blocks,
    fold_left pushPartition es blocks
    = (blocks ++ flat_map partitionBlocks es)%list.
Proof.
  induction es as [|e es IH]; simpl; intros blocks.
  - now rewrite List.app_nil_r.
  - rewrite IH, pushPartition_blocks, <- List.app_assoc. reflexivity.
Qed.

(** The blocks in front of the sepolicy part. *)
Definition baseBlocks (mk : BoardMakefile) : list string :=
  boardBlocks MAKEFILE_HEADER
    {| abOtaPartitions := abOtaPartitions mk;
       boardInfo := boardInfo mk;
       secontextResolutions := None |}.

Lemma boardBlocks_resolutions (mk : BoardMakefile)
    (resolutions : SelinuxPartResolutions) :
  secontextResolutions mk = Some resolutions ->
  boardBlocks MAKEFILE_HEADER mk
  = (baseBlocks mk ++ flat_map partitionBlocks resolutions)%list.
Proof.
  intros Hres. unfold baseBlocks, boardBlocks. rewrite Hres. simpl.
  apply fold_pushPartition.
Qed.

Lemma baseBlocks_nonempty (mk : BoardMakefile) : baseBlocks mk <> [].
Proof.
  unfold baseBlocks, boardBlocks, addContBlock, startBlocks. simpl.
  destruct (abOtaPartitions mk) as [parts|];
    [destruct (JSArray.includes "vendor" parts)|];
    destruct (boardInfo mk); discriminate.
Qed.

End Blocks.

End MakeFacts.

Lemma contBlock_is_no_comment (partition : string) (c : string)
    (cs : list string) :
  Make.contBlock
    (JSString.ofOption (JSMap.get partition Make.SEPOLICY_PARTITION_VARS)) []
  <> JSString.join JSString.newline
       (map (Make.missingContextLine partition) (c :: cs)).
Proof.
  simpl map. rewrite MakeFacts.join_cons.
  unfold Make.contBlock, Make.missingContextLine. simpl.
  repeat match goal with
         | |- context [String.eqb ?a ?b] => destruct (String.eqb a b)
         end; simpl; discriminate.
Qed.

(** The blocks of one entry of the resolutions, in terms of the serializer's
    own functions: each unresolved label is a line of the serialized text;
    the entry pushes its sepolicy block exactly when its directory list is
    not empty, and its comment block follows; the blocks it pushes are
    blocks of the makefile. *)
Lemma partition_blocks_of_board_makefile
    (MAKEFILE_HEADER : string) (mk : Make.BoardMakefile)
    (resolutions : SelinuxPartResolutions) (partition : string)
    (r : SelinuxResolutions) :
  Make.secontextResolutions mk = Some resolutions ->
  In (partition, r) resolutions ->
  let partVar :=
    JSString.ofOption (JSMap.get partition Make.SEPOLICY_PARTITION_VARS) in
  let dirsBlock :=
    match sepolicyDirs r with
    | [] => []
    | dirs => [Make.contBlock partVar dirs]
    end in
  let contextsBlock :=
    match missingContexts r with
    | [] => []
    | contexts =>
        [JSString.join JSString.newline
           (map (Make.missingContextLine partition) contexts)]
    end in
  (forall c, In c (missingContexts r) ->
     exists pre post,
       Make.serializeBoardMakefile MAKEFILE_HEADER mk
       = (pre ++ JSString.newline ++ Make.missingContextLine partition c
          ++ JSString.newline ++ post)%string) /\
  (forall blocks,
     Make.pushPartition blocks (partition, r)
     = blocks ++ dirsBlock ++ contextsBlock) /\
  (sepolicyDirs r <> [] <->
   In (Make.contBlock partVar (sepolicyDirs r))
      (Make.pushPartition [] (partition, r))) /\
  (exists front back,
     front <> [] /\
     Make.boardBlocks MAKEFILE_HEADER mk
     = front ++ dirsBlock ++ contextsBlock ++ back).
Proof.
  intros Hres Hin partVar dirsBlock contextsBlock.
  assert (Hpush : forall blocks,
            Make.pushPartition blocks (partition, r)
            = blocks ++ dirsBlock ++ contextsBlock).
  { intros blocks. apply MakeFacts.pushPartition_blocks. }
  pose proof (MakeFacts.boardBlocks_resolutions MAKEFILE_HEADER mk
                resolutions Hres) as Hblocks.
  destruct (in_split _ _ Hin) as (r1 & r2 & Hsplit).
  rewrite Hsplit, flat_map_app in Hblocks. simpl flat_map in Hblocks.
  change (MakeFacts.partitionBlocks (partition, r))
    with (dirsBlock ++ contextsBlock) in Hblocks.
  pose proof (MakeFacts.baseBlocks_nonempty MAKEFILE_HEADER mk) as Hbase.
  repeat split.
  - intros c Hc. unfold Make.serializeBoardMakefile. rewrite Hblocks.
    unfold contextsBlock.
    destruct (missingContexts r) as [|c0 cs] eqn:Ecs; [contradiction|].
    apply (in_map (Make.missingContextLine partition)) in Hc.
    destruct (in_split _ _ Hc) as (m1 & m2 & Hm). rewrite Hm.
    set (front := MakeFacts.baseBlocks MAKEFILE_HEADER mk
                  ++ flat_map MakeFacts.partitionBlocks r1 ++ dirsBlock).
    replace (MakeFacts.baseBlocks MAKEFILE_HEADER mk
             ++ flat_map MakeFacts.partitionBlocks r1
             ++ (dirsBlock ++ [JSString.join JSString.newline
                                 (m1 ++ Make.missingContextLine partition c
                                  :: m2)])
             ++ flat_map MakeFacts.partitionBlocks r2)
      with (front ++ JSString.join JSString.newline
                       (m1 ++ Make.missingContextLine partition c :: m2)
                  :: flat_map MakeFacts.partitionBlocks r2).
    + apply MakeFacts.line_of_block. unfold front.
      destruct (MakeFacts.baseBlocks MAKEFILE_HEADER mk);
        [congruence | discriminate].
    + unfold front. rewrite <- !List.app_assoc. reflexivity.
  - exact Hpush.
  - intros Hdirs. rewrite Hpush. simpl. apply in_or_app. left.
    unfold dirsBlock. destruct (sepolicyDirs r); [congruence|]. now left.
  - intros Hblock. rewrite Hpush in Hblock. simpl in Hblock.
    intros Hnil. unfold dirsBlock, contextsBlock in Hblock.
    rewrite Hnil in Hblock. simpl in Hblock.
    destruct (missingContexts r) as [|c cs]; simpl in Hblock;
      [contradiction|].
    destruct Hblock as [Heq|[]].
    symmetry in Heq. revert Heq. apply contBlock_is_no_comment.
  - exists (MakeFacts.baseBlocks MAKEFILE_HEADER mk
            ++ flat_map MakeFacts.partitionBlocks r1),
           (flat_map MakeFacts.partitionBlocks r2).
    split.
    + destruct (MakeFacts.baseBlocks MAKEFILE_HEADER mk);
        [congruence | discriminate].
    + rewrite Hblocks, <- !List.app_assoc. reflexivity.
Qed.

(** The sepolicy variable of a partition, as the table of lines 9-15
    spells it. *)
Lemma partVar_of_partition (partition : string) :
  JSString.ofOption (JSMap.get partition Make.SEPOLICY_PARTITION_VARS)
  = if String.eqb partition "system" then "BOARD_PLAT_PUBLIC_SEPOLICY_DIR"
    else if String.eqb partition "system_ext"
         then "SYSTEM_EXT_PUBLIC_SEPOLICY_DIRS"
    else if String.eqb partition "product" then "PRODUCT_PUBLIC_SEPOLICY_DIRS"
    else if String.eqb partition "vendor" then "BOARD_VENDOR_SEPOLICY_DIRS"
    else if String.eqb partition "odm" then "BOARD_ODM_SEPOLICY_DIRS"
    else "undefined".
Proof.
  unfold Make.SEPOLICY_PARTITION_VARS. cbn [JSMap.get].
  repeat match goal with
         | |- context [String.eqb partition ?b] =>
             destruct (String.eqb partition b)
         end; reflexivity.
Qed.

(** A block that is not the first block stands in the serialized text
    after an empty line and ends its line. *)
Lemma block_of_text (front rest : list string) (block : string) :
  front <> [] ->
  exists pre post,
    Make.finishBlocks (front ++ block :: rest)
    = (pre ++ JSString.newline ++ JSString.newline ++ block
       ++ JSString.newline ++ post)%string.
Proof.
  intros Hfront. unfold Make.finishBlocks. rewrite MakeFacts.join_split.
  destruct (MakeFacts.before_ends (JSString.newline ++ JSString.newline)
              front Hfront) as [a Ha].
  destruct (MakeFacts.behind_blocks_newline rest) as [t Ht].
  exists a, t.
  rewrite Ha, !MakeFacts.append_assoc, Ht. reflexivity.
Qed.

(** C9: for every entry [(partition, r)] of the resolutions given to the
    serializer, with the text written out character by character:
    - each unresolved label [c] of the entry is the line
      [# Missing <partition> SELinux context: <c>] of the serialized text;
    - when the entry has sepolicy directories, the block
      [<VAR> += \] followed by the directories, four spaces in front of
      each and [ \] between them, is in the serialized text after an empty
      line, where [<VAR>] is the variable of the partition in the table of
      lines 9-15 and [undefined] for any other partition;
    - the entry pushes that block exactly when its directory list is not
      empty, and the block of its comment lines, joined by newlines,
      exactly when it has unresolved labels, in this order and nothing
      else;
    - the blocks it pushes are blocks of the makefile, behind the header. *)
Theorem unresolved_contexts_are_surfaced
    (MAKEFILE_HEADER : string) (mk : Make.BoardMakefile)
    (resolutions : SelinuxPartResolutions) (partition : string)
    (r : SelinuxResolutions) :
  Make.secontextResolutions mk = Some resolutions ->
  In (partition, r) resolutions ->
  let nl := String (ascii_of_nat 10) EmptyString in
  let bs := String (ascii_of_nat 92) EmptyString in
  let partVar :=
    if String.eqb partition "system" then "BOARD_PLAT_PUBLIC_SEPOLICY_DIR"
    else if String.eqb partition "system_ext"
         then "SYSTEM_EXT_PUBLIC_SEPOLICY_DIRS"
    else if String.eqb partition "product" then "PRODUCT_PUBLIC_SEPOLICY_DIRS"
    else if String.eqb partition "vendor" then "BOARD_VENDOR_SEPOLICY_DIRS"
    else if String.eqb partition "odm" then "BOARD_ODM_SEPOLICY_DIRS"
    else "undefined" in
  let line (c : string) :=
    ("# Missing " ++ partition ++ " SELinux context: " ++ c)%string in
  let dirsText (dirs : list string) :=
    (partVar ++ " += " ++ bs ++ nl ++ "    "
     ++ String.concat (" " ++ bs ++ nl ++ "    ") dirs)%string in
  let dirsBlock :=
    match sepolicyDirs r with
    | [] => []
    | dirs => [dirsText dirs]
    end in
  let contextsBlock :=
    match missingContexts r with
    | [] => []
    | contexts => [String.concat nl (map line contexts)]
    end in
  (forall c, In c (missingContexts r) ->
     exists pre post,
       Make.serializeBoardMakefile MAKEFILE_HEADER mk
       = (pre ++ nl ++ "# Missing " ++ partition ++ " SELinux context: " ++ c
          ++ nl ++ post)%string) /\
  (sepolicyDirs r <> [] ->
     exists pre post,
       Make.serializeBoardMakefile MAKEFILE_HEADER mk
       = (pre ++ nl ++ nl ++ dirsText (sepolicyDirs r) ++ nl ++ post)%string) /\
  (forall blocks,
     Make.pushPartition blocks (partition, r)
     = blocks ++ dirsBlock ++ contextsBlock) /\
  (sepolicyDirs r <> [] <->
   In (dirsText (sepolicyDirs r)) (Make.pushPartition [] (partition, r))) /\
  (exists front back,
     front <> [] /\
     Make.boardBlocks MAKEFILE_HEADER mk
     = front ++ dirsBlock ++ contextsBlock ++ back).
Proof.
  intros Hres Hin nl bs partVar line dirsText dirsBlock contextsBlock.
  destruct (partition_blocks_of_board_makefile MAKEFILE_HEADER mk
              resolutions partition r Hres Hin)
    as (Hline & Hpush & Hdirs & Hblocks).
  assert (HpartVar :
            JSString.ofOption
              (JSMap.get partition Make.SEPOLICY_PARTITION_VARS) = partVar)
    by apply partVar_of_partition.
  rewrite HpartVar in Hpush, Hdirs, Hblocks.
  split; [|split; [|split; [|split]]].
  - intros c Hc. destruct (Hline c Hc) as (pre & post & Htext).
    exists pre, post. rewrite Htext.
    unfold Make.missingContextLine.
    rewrite !MakeFacts.append_assoc. reflexivity.
  - intros Hnonempty.
    destruct Hblocks as (front & back & Hfront & Hblocks).
    unfold Make.serializeBoardMakefile. rewrite Hblocks.
    destruct (sepolicyDirs r) as [|d ds] eqn:Edirs; [congruence|].
    cbn [app].
    exact (block_of_text front _ (Make.contBlock partVar (d :: ds)) Hfront).
  - exact Hpush.
  - exact Hdirs.
  - exact Hblocks.
Qed.

Lemma unresolved_contexts_are_surfaced_witness :
  let nl := String (ascii_of_nat 10) EmptyString in
  let bs := String (ascii_of_nat 92) EmptyString in
  let dirsText :=
    ("BOARD_VENDOR_SEPOLICY_DIRS += " ++ bs ++ nl
     ++ "    dirB " ++ bs ++ nl
     ++ "    vendor/google/raven/sepolicy")%string in
  (forall c, In c ["ctxC"] ->
     exists pre post,
       Make.serializeBoardMakefile Sample.MAKEFILE_HEADER Sample.boardMakefile
       = (pre ++ nl ++ "# Missing vendor SELinux context: " ++ c
          ++ nl ++ post)%string) /\
  (["dirB"; "vendor/google/raven/sepolicy"] <> [] ->
     exists pre post,
       Make.serializeBoardMakefile Sample.MAKEFILE_HEADER Sample.boardMakefile
       = (pre ++ nl ++ nl ++ dirsText ++ nl ++ post)%string) /\
  (forall blocks,
     Make.pushPartition blocks ("vendor", Sample.vendorResolutions)
     = blocks ++ [dirsText] ++ ["# Missing vendor SELinux context: ctxC"]) /\
  (["dirB"; "vendor/google/raven/sepolicy"] <> [] <->
   In dirsText (Make.pushPartition [] ("vendor", Sample.vendorResolutions))) /\
  (exists front back,
     front <> [] /\
     Make.boardBlocks Sample.MAKEFILE_HEADER Sample.boardMakefile
     = front ++ [dirsText] ++ ["# Missing vendor SELinux context: ctxC"]
       ++ back).
Proof.
  apply (unresolved_contexts_are_surfaced Sample.MAKEFILE_HEADER
           Sample.boardMakefile Sample.resolutions "vendor"
           Sample.vendorResolutions).
  - reflexivity.
  - simpl. auto.
Defined.

(** The text of the sample board makefile. *)
Example serializeBoardMakefile_sample :
  Make.serializeBoardMakefile Sample.MAKEFILE_HEADER Sample.boardMakefile
  = JSString.join JSString.newline
      [ "# Generated by adevtool; do not edit.";
        "";
        "BUILD_BROKEN_ELF_PREBUILT_PRODUCT_COPY_FILES := true";
        "";
        "BOARD_VENDORIMAGE_FILE_SYSTEM_TYPE := ext4";
        "";
        ("AB_OTA_PARTITIONS += " ++ Make.backslash)%string;
        "    vendor";
        "";
        ("BOARD_VENDOR_SEPOLICY_DIRS += " ++ Make.backslash)%string;
        ("    dirB " ++ Make.backslash)%string;
        "    vendor/google/raven/sepolicy";
        "";
        "# Missing vendor SELinux context: ctxC";
        "" ].
Proof. reflexivity. Qed.

(* ================================================================== *)
(** * Further properties of the front end *)

(** ** More on maps *)

Module JSMapMore.
Import JSMap.

Section More.
Context {V : Type}.
Implicit Types (m : t V) (k : string) (v : V).

Lemma get_app k (m m' : t V) :
  get k (m ++ m') = match get k m with Some v => Some v | None => get k m' end.
Proof.
  induction m as [|[k0 v0] m IH]; simpl; auto.
  destruct (String.eqb k k0); auto.
Qed.

(** After a run of writes a key holds its last write, or what it held. *)
Lemma get_writes k (ws : list (string * V)) : forall m,
  get k (fold_left (fun m e => set (fst e) (snd e) m) ws m) =
  match get k (rev ws) with Some v => Some v | None => get k m end.
Proof.
  induction ws as [|[k0 v0] ws IH]; simpl; intros m; auto.
  rewrite IH, get_app. simpl.
  destruct (get k (rev ws)); auto.
  destruct (String.eqb k k0) eqn:E.
  - apply String.eqb_eq in E. subst. apply JSMapFacts.get_set_same.
  - apply JSMapFacts.get_set_other. now apply String.eqb_neq.
Qed.

(** Writes never drop or move a key: new keys go behind the old ones. *)
Lemma keys_writes (ws : list (string * V)) : forall m,
  exists added,
    keys (fold_left (fun m e => set (fst e) (snd e) m) ws m) = keys m ++ added.
Proof.
  induction ws as [|[k0 v0] ws IH]; simpl; intros m.
  - exists []. now rewrite app_nil_r.
  - destruct (IH (set k0 v0 m)) as [added Ha]. rewrite Ha.
    rewrite JSMapFacts.keys_set. destruct (has k0 m).
    + now exists added.
    + exists (k0 :: added). now rewrite <- app_assoc.
Qed.

Lemma In_keys_writes k (ws : list (string * V)) : forall m,
  In k (keys (fold_left (fun m e => set (fst e) (snd e) m) ws m))
  <-> In k (map fst ws) \/ In k (keys m).
Proof.
  induction ws as [|[k0 v0] ws IH]; simpl; intros m.
  - tauto.
  - rewrite IH, JSMapFacts.In_keys_set. intuition congruence.
Qed.

(** Writes to keys that are all there leave the key list as it is. *)
Lemma keys_writes_present (ws : list (string * V)) : forall m,
  (forall k, In k (map fst ws) -> In k (keys m)) ->
  keys (fold_left (fun m e => set (fst e) (snd e) m) ws m) = keys m.
Proof.
  induction ws as [|[k0 v0] ws IH]; simpl; intros m Hin; auto.
  assert (Hk : keys (set k0 v0 m) = keys m).
  { rewrite JSMapFacts.keys_set.
    assert (H : has k0 m = true) by (apply JSMapFacts.has_true_iff; auto).
    now rewrite H. }
  rewrite IH; auto.
  intros k Hk'. rewrite Hk. auto.
Qed.

(** Two maps with the same keys in the same order and the same lookups
    are the same map. *)
Lemma map_ext (m1 : t V) : forall m2 : t V,
  wf m1 -> keys m1 = keys m2 -> (forall k, get k m1 = get k m2) -> m1 = m2.
Proof.
  unfold wf.
  induction m1 as [|[k v] m1 IH]; intros [|[k' v'] m2] Hwf Hk Hg;
    simpl in *; try discriminate; auto.
  injection Hk as <- Hk. inversion Hwf as [|? ? Hnotin Hwf']; subst.
  pose proof (Hg k) as Hv. rewrite String.eqb_refl in Hv.
  injection Hv as <-. f_equal.
  apply IH; auto.
  intros k0. pose proof (Hg k0) as H0.
  destruct (String.eqb k0 k) eqn:E; auto.
  apply String.eqb_eq in E. subst k0.
  assert (H1 : get k m1 = None) by now apply JSMapFacts.get_None_iff.
  assert (H2 : get k m2 = None).
  { apply JSMapFacts.get_None_iff. now rewrite <- Hk. }
  congruence.
Qed.

(** Replaying a run of writes on its own result changes nothing. *)
Lemma writes_idempotent (ws : list (string * V)) (m : t V) :
  wf m ->
  let run := fold_left (fun m e => set (fst e) (snd e) m) ws in
  run (run m) = run m.
Proof.
  intros Hwf run. symmetry. apply map_ext.
  - now apply JSMapFacts.wf_fold_set.
  - symmetry. apply keys_writes_present.
    intros k Hk. apply In_keys_writes. now left.
  - intros k. unfold run. rewrite !get_writes.
    now destruct (get k (rev ws)).
Qed.

End More.

End JSMapMore.

(** ** [enumerateFiles], continued *)

Section EnumerateFilesMore.
Context {Filters : Type} (filterValue : Filters -> string -> bool).
Context {BlobEntry : Type}
        (combinedPartPathToEntry : string -> string -> BlobEntry).
Context (listPart : string -> string -> Filters -> option (list string)).
Context (collation : Collation).
Variables (filters : Filters) (forceIncludeFilters : option Filters)
          (customState : option SystemState) (stockSrc : string)
          (customSrc : option string).

(** The [namedEntries.set] calls of one partition, in order. *)
Definition partitionWrites (partition : string) : list (string * BlobEntry) :=
  match listPart partition stockSrc filters with
  | None => []
  | Some filesRef =>
      match customFiles listPart filters customState customSrc partition with
      | None => []
      | Some filesNew =>
          map (fun path => (path, combinedPartPathToEntry partition path))
              (mergedMissingFiles filterValue collation forceIncludeFilters
                                  filesNew filesRef)
      end
  end.

(** Whether the loop body reaches its end for a partition. *)
Definition partitionListed (partition : string) : bool :=
  match listPart partition stockSrc filters with
  | None => false
  | Some _ =>
      match customFiles listPart filters customState customSrc partition with
      | None => false
      | Some _ => true
      end
  end.

Let body :=
  enumeratePartition filterValue combinedPartPathToEntry listPart collation
    filters forceIncludeFilters customState stockSrc customSrc.

Lemma addEntries_writes partition missingFiles (m : JSMap.t BlobEntry) :
  addEntries combinedPartPathToEntry partition missingFiles m =
  fold_left (fun m e => JSMap.set (fst e) (snd e) m)
    (map (fun path => (path, combinedPartPathToEntry partition path))
         missingFiles) m.
Proof.
  unfold addEntries. revert m.
  induction missingFiles as [|f l IH]; simpl; intros m; auto.
Qed.

Lemma namedEntries_body st partition :
  namedEntries (body st partition) =
  fold_left (fun m e => JSMap.set (fst e) (snd e) m)
            (partitionWrites partition) (namedEntries st).
Proof.
  unfold body, enumeratePartition, partitionWrites.
  destruct (listPart partition stockSrc filters); auto.
  destruct (customFiles listPart filters customState customSrc partition);
    auto.
  simpl. apply addEntries_writes.
Qed.

Lemma spinnerText_body st partition :
  spinnerText (body st partition) =
  if partitionListed partition then partition else spinnerText st.
Proof.
  unfold body, enumeratePartition, partitionListed.
  destruct (listPart partition stockSrc filters); auto.
  destruct (customFiles listPart filters customState customSrc partition);
    auto.
Qed.

Lemma namedEntries_fold parts : forall st,
  namedEntries (fold_left body parts st) =
  fold_left (fun m e => JSMap.set (fst e) (snd e) m)
            (flat_map partitionWrites parts) (namedEntries st).
Proof.
  induction parts as [|p parts IH]; simpl; intros st; auto.
  rewrite IH, fold_left_app, namedEntries_body. reflexivity.
Qed.

Lemma spinnerText_fold parts : forall st,
  spinnerText (fold_left body parts st) =
  last (filter partitionListed parts) (spinnerText st).
Proof.
  induction parts as [|p parts IH]; simpl; intros st; auto.
  rewrite IH, spinnerText_body.
  destruct (partitionListed p) eqn:E; auto.
  generalize (filter partitionListed parts) as l.
  intros l. destruct l as [|x l]; auto.
  change (last (x :: l) p = last (x :: l) (spinnerText st)).
  generalize x. induction l as [|y l IHl]; intros x0; auto.
  change (last (y :: l) p = last (y :: l) (spinnerText st)). apply IHl.
Qed.

End EnumerateFilesMore.

Lemma last_default_irrelevant {A : Type} (l : list A) (d d' : A) :
  l <> [] -> last l d = last l d'.
Proof.
  induction l as [|x l IH]; [congruence|]. intros _.
  destruct l as [|y l]; auto.
  change (last (y :: l) d = last (y :: l) d'). apply IH. discriminate.
Qed.

Lemma EnumState_ext {BlobEntry : Type} (a b : EnumState BlobEntry) :
  namedEntries a = namedEntries b -> spinnerText a = spinnerText b -> a = b.
Proof. destruct a, b. simpl. congruence. Qed.

(** X1: [enumerateFiles] only adds to the entries map: the keys it finds
    stay where they are, the keys it adds follow them, and the keys stay
    pairwise distinct. *)
Theorem enumerateFiles_only_adds
    {Filters : Type} (filterValue : Filters -> string -> bool)
    {BlobEntry : Type}
    (combinedPartPathToEntry : string -> string -> BlobEntry)
    (ALL_SYS_PARTITIONS : list string)
    (listPart : string -> string -> Filters -> option (list string))
    (collation : Collation)
    (filters : Filters) (forceIncludeFilters : option Filters)
    (customState : option SystemState) (stockSrc : string)
    (customSrc : option string) (st : EnumState BlobEntry) :
  JSMap.wf (namedEntries st) ->
  let result :=
    enumerateFiles filterValue combinedPartPathToEntry ALL_SYS_PARTITIONS
      listPart collation filters forceIncludeFilters customState stockSrc
      customSrc st in
  JSMap.wf (namedEntries result) /\
  exists added,
    JSMap.keys (namedEntries result) = JSMap.keys (namedEntries st) ++ added.
Proof.
  intros Hwf result. unfold result, enumerateFiles.
  rewrite namedEntries_fold. split.
  - now apply JSMapFacts.wf_fold_set.
  - apply JSMapMore.keys_writes.
Qed.

Lemma enumerateFiles_only_adds_witness :
  let st : EnumState Sample.BlobEntry :=
    {| namedEntries := [("vendor/etc/x", ("vendor", "vendor/etc/x"))];
       spinnerText := "" |} in
  let result :=
    enumerateFiles Sample.filterValue Sample.combinedPartPathToEntry
      Sample.ALL_SYS_PARTITIONS Sample.listPart codeUnitCollation [] None None
      "stock" (Some "custom") st in
  JSMap.wf (namedEntries result) /\
  exists added,
    JSMap.keys (namedEntries result) = JSMap.keys (namedEntries st) ++ added.
Proof.
  apply (enumerateFiles_only_adds Sample.filterValue
           Sample.combinedPartPathToEntry Sample.ALL_SYS_PARTITIONS
           Sample.listPart codeUnitCollation [] None None "stock"
           (Some "custom")).
  nodup_strings.
Defined.

(** X2: [enumerateFiles] is idempotent: run again on the state it left,
    with the same images and filters, it leaves that state as it is. *)
Theorem enumerateFiles_idempotent
    {Filters : Type} (filterValue : Filters -> string -> bool)
    {BlobEntry : Type}
    (combinedPartPathToEntry : string -> string -> BlobEntry)
    (ALL_SYS_PARTITIONS : list string)
    (listPart : string -> string -> Filters -> option (list string))
    (collation : Collation)
    (filters : Filters) (forceIncludeFilters : option Filters)
    (customState : option SystemState) (stockSrc : string)
    (customSrc : option string) (st : EnumState BlobEntry) :
  JSMap.wf (namedEntries st) ->
  let run :=
    enumerateFiles filterValue combinedPartPathToEntry ALL_SYS_PARTITIONS
      listPart collation filters forceIncludeFilters customState stockSrc
      customSrc in
  run (run st) = run st.
Proof.
  intros Hwf run. unfold run, enumerateFiles. apply EnumState_ext.
  - rewrite !namedEntries_fold.
    now apply (JSMapMore.writes_idempotent
                 (flat_map
                    (partitionWrites filterValue combinedPartPathToEntry
                       listPart collation filters forceIncludeFilters
                       customState stockSrc customSrc)
                    ALL_SYS_PARTITIONS)).
  - rewrite !spinnerText_fold.
    destruct (filter
                (partitionListed listPart filters customState stockSrc
                                 customSrc) ALL_SYS_PARTITIONS) eqn:E; auto.
    apply last_default_irrelevant. discriminate.
Qed.

Lemma enumerateFiles_idempotent_witness :
  let run :=
    enumerateFiles Sample.filterValue Sample.combinedPartPathToEntry
      Sample.ALL_SYS_PARTITIONS Sample.listPart codeUnitCollation []
      (Some ["system/bin/a"]) None "stock" (Some "custom") in
  run (run Sample.emptyState) = run Sample.emptyState.
Proof.
  apply (enumerateFiles_idempotent Sample.filterValue
           Sample.combinedPartPathToEntry Sample.ALL_SYS_PARTITIONS
           Sample.listPart codeUnitCollation [] (Some ["system/bin/a"]) None
           "stock" (Some "custom") Sample.emptyState).
  constructor.
Defined.

(** X3: [enumerateFiles] reads listings of the stock root and, without a
    custom state, of the custom source only, and always with its
    [filters]: two file systems that agree there give the same result.
    With a custom state the custom source is not read at all. *)
Theorem enumerateFiles_reads_only_its_roots
    {Filters : Type} (filterValue : Filters -> string -> bool)
    {BlobEntry : Type}
    (combinedPartPathToEntry : string -> string -> BlobEntry)
    (ALL_SYS_PARTITIONS : list string)
    (listPart listPart' : string -> string -> Filters -> option (list string))
    (collation : Collation)
    (filters : Filters) (forceIncludeFilters : option Filters)
    (customState : option SystemState) (stockSrc : string)
    (customSrc customSrc' : option string) (st : EnumState BlobEntry) :
  (forall partition,
     listPart partition stockSrc filters
     = listPart' partition stockSrc filters) ->
  (customState = None ->
     customSrc = customSrc' /\
     forall src partition, customSrc = Some src ->
       listPart partition src filters = listPart' partition src filters) ->
  enumerateFiles filterValue combinedPartPathToEntry ALL_SYS_PARTITIONS
    listPart collation filters forceIncludeFilters customState stockSrc
    customSrc st
  = enumerateFiles filterValue combinedPartPathToEntry ALL_SYS_PARTITIONS
      listPart' collation filters forceIncludeFilters customState stockSrc
      customSrc' st.
Proof.
  intros Hstock Hcustom. unfold enumerateFiles.
  revert st. induction ALL_SYS_PARTITIONS as [|p parts IH]; simpl;
    intros st; auto.
  rewrite IH. f_equal.
  unfold enumeratePartition. rewrite Hstock.
  destruct (listPart' p stockSrc filters); auto.
  assert (Hc : customFiles listPart filters customState customSrc p
               = customFiles listPart' filters customState customSrc' p).
  { unfold customFiles. destruct customState; auto.
    destruct (Hcustom eq_refl) as [<- Hsrc].
    destruct customSrc as [src|]; auto. }
  now rewrite Hc.
Qed.

Lemma enumerateFiles_reads_only_its_roots_witness :
  enumerateFiles Sample.filterValue Sample.combinedPartPathToEntry
    Sample.ALL_SYS_PARTITIONS Sample.listPart codeUnitCollation [] None
    (Some {| partitionFiles := [("system", ["system/bin/a"])];
             partitionProps := [];
             partitionSecontexts := [] |})
    "stock" (Some "custom") Sample.emptyState
  = enumerateFiles Sample.filterValue Sample.combinedPartPathToEntry
      Sample.ALL_SYS_PARTITIONS
      (fun partition root filters =>
         if String.eqb root "stock"
         then Sample.listPart partition root filters
         else None)
      codeUnitCollation [] None
      (Some {| partitionFiles := [("system", ["system/bin/a"])];
               partitionProps := [];
               partitionSecontexts := [] |})
      "stock" None Sample.emptyState.
Proof.
  apply (enumerateFiles_reads_only_its_roots Sample.filterValue
           Sample.combinedPartPathToEntry Sample.ALL_SYS_PARTITIONS
           Sample.listPart
           (fun partition root filters =>
              if String.eqb root "stock"
              then Sample.listPart partition root filters
              else None)).
  - intros partition. reflexivity.
  - intros H. discriminate H.
Defined.

(** ** [extractProps], continued *)

(** X4: [extractProps] returns exactly when the stock properties, after
    the props filter, have a system partition, a product partition and the
    product property [ro.product.ab_ota_partitions]; in every other case it
    throws a [TypeError].  The custom image has no say in this. *)
Theorem extractProps_returns_iff
    {Filters : Type} (filterValue : Filters -> string -> bool)
    (loadPartitionProps : string -> PartitionProps)
    (config : DeviceConfig Filters) (customState : option SystemState)
    (stockSrc : string) (customSrc : option string) :
  let stock := filterAllProps filterValue (filters_props config)
                              (loadPartitionProps stockSrc) in
  let run :=
    extractProps filterValue loadPartitionProps config customState stockSrc
                 customSrc in
  let complete :=
    exists system product ota,
      JSMap.get "system" stock = Some system /\
      JSMap.get "product" stock = Some product /\
      JSMap.get "ro.product.ab_ota_partitions" product = Some ota in
  ((exists r, run = Returns r) <-> complete) /\
  (run = Throws TypeError <-> ~ complete).
Proof.
  intros stock run complete.
  assert (Hret : (exists r, run = Returns r) <-> complete).
  { split.
    - intros [r Hr]. apply extractProps_Returns in Hr.
      destruct Hr as (system & product & ota & Hs & Hp & Ho & _).
      now exists system, product, ota.
    - intros (system & product & ota & Hs & Hp & Ho).
      unfold run, extractProps. fold stock. rewrite Hs, Hp. simpl.
      rewrite Ho. simpl. eexists. reflexivity. }
  split; auto. rewrite <- Hret. split.
  - intros Hthrow [r Hr]. congruence.
  - intros Hno. destruct run as [r|[]] eqn:E; auto.
    exfalso. apply Hno. now exists r.
Qed.

(** X5: the missing A/B partitions that [extractProps] returns are, in
    stock order, the stock partitions of [ro.product.ab_ota_partitions]
    that the custom value does not list and that the partitions filter
    keeps; when the custom image has no product partition or no such
    property, they are all the stock partitions the filter keeps. *)
Theorem missingOtaParts_are_stock_only
    {Filters : Type} (filterValue : Filters -> string -> bool)
    (loadPartitionProps : string -> PartitionProps)
    (config : DeviceConfig Filters) (customState : option SystemState)
    (stockSrc : string) (customSrc : option string) (r : PropResults) :
  let custom :=
    filterAllProps filterValue (filters_props config)
      (customPropsOf loadPartitionProps customState customSrc) in
  extractProps filterValue loadPartitionProps config customState stockSrc
               customSrc = Returns r ->
  exists product ota,
    JSMap.get "product" (stockProps r) = Some product /\
    JSMap.get "ro.product.ab_ota_partitions" product = Some ota /\
    (forall p,
       In p (missingOtaParts r) <->
       In p (JSString.split "," ota) /\
       ~ In p (customOtaPartsOf custom) /\
       filterValue (filters_partitions config) p = true) /\
    ((JSMap.get "product" custom = None \/
      exists customProduct,
        JSMap.get "product" custom = Some customProduct /\
        JSMap.get "ro.product.ab_ota_partitions" customProduct = None) ->
     missingOtaParts r =
     filter (filterValue (filters_partitions config))
            (JSString.split "," ota)).
Proof.
  intros custom Hrun. unfold extractProps in Hrun. fold custom in Hrun.
  set (stock := filterAllProps filterValue (filters_props config)
                               (loadPartitionProps stockSrc)) in *.
  destruct (JSMap.get "system" stock) as [system|] eqn:Es; [|discriminate].
  destruct (JSMap.get "product" stock) as [product|] eqn:Ep; [|discriminate].
  simpl in Hrun.
  destruct (JSMap.get "ro.product.ab_ota_partitions" product) as [ota|] eqn:Eo;
    [|discriminate].
  simpl in Hrun. injection Hrun as <-. simpl.
  exists product, ota. repeat split; auto.
  - apply filter_In in H. tauto.
  - apply filter_In in H. destruct H as [_ H].
    apply andb_true_iff in H. destruct H as [H _].
    intros Hin. apply includes_true_iff in Hin. rewrite Hin in H.
    discriminate.
  - apply filter_In in H. destruct H as [_ H].
    apply andb_true_iff in H. tauto.
  - intros (Hin & Hnot & Hkeep). apply filter_In. split; auto.
    apply andb_true_iff. split; auto.
    destruct (JSArray.includes p (customOtaPartsOf custom)) eqn:E; auto.
    apply includes_true_iff in E. contradiction.
  - intros Hnone.
    assert (Hempty : customOtaPartsOf custom = []).
    { unfold customOtaPartsOf.
      destruct Hnone as [-> | (cp & -> & ->)]; reflexivity. }
    rewrite Hempty. apply filter_ext. intros p. reflexivity.
Qed.

Lemma missingOtaParts_are_stock_only_witness :
  let custom :=
    filterAllProps Sample.filterValue (filters_props Sample.config)
      (customPropsOf Sample.loadPartitionProps None (Some "custom")) in
  let r :=
    {| stockProps :=
         [ ("system",
            [("ro.system.build.fingerprint", "google/raven/raven:12");
             ("ro.a", "1"); ("ro.b", "1")]);
           ("product",
            [("ro.product.ab_ota_partitions", "boot,system,vendor")]) ];
       missingProps :=
         Some [ ("system",
                 [("ro.system.build.fingerprint", "google/raven/raven:12");
                  ("ro.a", "1")]);
                ("product", []) ];
       fingerprint := Some "google/raven/raven:12";
       missingOtaParts := ["vendor"] |} in
  exists product ota,
    JSMap.get "product" (stockProps r) = Some product /\
    JSMap.get "ro.product.ab_ota_partitions" product = Some ota /\
    (forall p,
       In p (missingOtaParts r) <->
       In p (JSString.split "," ota) /\
       ~ In p (customOtaPartsOf custom) /\
       Sample.filterValue (filters_partitions Sample.config) p = true) /\
    ((JSMap.get "product" custom = None \/
      exists customProduct,
        JSMap.get "product" custom = Some customProduct /\
        JSMap.get "ro.product.ab_ota_partitions" customProduct = None) ->
     missingOtaParts r =
     filter (Sample.filterValue (filters_partitions Sample.config))
            (JSString.split "," ota)).
Proof.
  apply (missingOtaParts_are_stock_only Sample.filterValue
           Sample.loadPartitionProps Sample.config None "stock"
           (Some "custom")).
  reflexivity.
Defined.

(** X6: [split(',')] cuts a value at its commas and nowhere else: the
    parts joined by [,] give the value back, there is at least one part,
    and no part holds a comma. *)
Theorem split_join_round_trip (s : string) :
  JSString.join "," (JSString.split "," s) = s /\
  JSString.split "," s <> [] /\
  Forall (fun part => ~ In ","%char (list_ascii_of_string part))
         (JSString.split "," s).
Proof.
  induction s as [|c s (IHj & IHn & IHf)].
  - repeat split; [discriminate | constructor; [simpl; tauto | constructor]].
  - simpl JSString.split.
    destruct (Ascii.eqb c ",") eqn:E.
    + apply Ascii.eqb_eq in E. subst c. split; [|split].
      * rewrite MakeFacts.join_cons.
        destruct (JSString.split "," s) as [|h tl]; [congruence|].
        rewrite MakeFacts.join_cons in IHj. simpl. now rewrite IHj.
      * discriminate.
      * constructor; auto.
    + destruct (JSString.split "," s) as [|h tl]; [congruence|].
      split; [|split].
      * rewrite MakeFacts.join_cons in *. simpl. now rewrite IHj.
      * discriminate.
      * inversion IHf as [|? ? Hh Htl]; subst. constructor; auto.
        simpl. intros [Hc|Hin]; [|contradiction].
        subst c. rewrite Ascii.eqb_refl in E. discriminate.
Qed.

(** ** [resolveSepolicyDirs], continued *)

Section SourceContextsMore.
Variable parseContextsRecursive : string -> string -> SelinuxContexts.

Lemma sourceContextsOf_writes (dirs : list string) :
  sourceContextsOf parseContextsRecursive dirs =
  fold_left (fun sc e => JSMap.set (fst e) (snd e) sc)
            (flat_map (fun dir => parseContextsRecursive dir ".") dirs)
            JSMap.empty.
Proof.
  unfold sourceContextsOf, JSMap.entries.
  generalize (@JSMap.empty string).
  induction dirs as [|d dirs IH]; simpl; intros sc; auto.
  rewrite IH, fold_left_app. reflexivity.
Qed.

Lemma sourceContextsOf_snoc (dirs : list string) (d : string) :
  sourceContextsOf parseContextsRecursive (dirs ++ [d]) =
  fold_left (fun sc e => JSMap.set (fst e) (snd e) sc)
            (parseContextsRecursive d ".")
            (sourceContextsOf parseContextsRecursive dirs).
Proof. unfold sourceContextsOf. now rewrite fold_left_app. Qed.

End SourceContextsMore.

(** X7: the combined table of source contexts is a map (its labels are
    pairwise distinct); its labels are exactly the labels that some
    configured directory defines; and a label maps to what the last
    directory defining it says, whatever the number of directories. *)
Theorem sourceContexts_is_last_definition
    (parseContextsRecursive : string -> string -> SelinuxContexts)
    (dirs : list string) :
  (forall d, In d dirs -> JSMap.wf (parseContextsRecursive d ".")) ->
  let table := sourceContextsOf parseContextsRecursive dirs in
  JSMap.wf table /\
  (forall L,
     In L (JSMap.keys table) <->
     exists d, In d dirs /\ In L (JSMap.keys (parseContextsRecursive d "."))) /\
  (forall L,
     JSMap.get L table =
     fold_left
       (fun found d =>
          match JSMap.get L (parseContextsRecursive d ".") with
          | Some source => Some source
          | None => found
          end)
       dirs None).
Proof.
  intros Hwf table. unfold table. repeat split.
  - rewrite sourceContextsOf_writes. apply JSMapFacts.wf_fold_set.
    constructor.
  - rewrite sourceContextsOf_writes, JSMapMore.In_keys_writes.
    intros [H|[]]. apply in_map_iff in H. destruct H as [[k v] [Hk H]].
    apply in_flat_map in H. destruct H as [d [Hd H]].
    exists d. split; auto. simpl in Hk. subst.
    now apply (in_map fst) in H.
  - intros [d [Hd H]].
    rewrite sourceContextsOf_writes, JSMapMore.In_keys_writes. left.
    unfold JSMap.keys in H. apply in_map_iff in H.
    destruct H as [e [He H]]. apply in_map_iff. exists e. split; auto.
    apply in_flat_map. now exists d.
  - intros L. revert Hwf. induction dirs as [|d ds IH] using rev_ind;
      intros Hwf; auto.
    rewrite sourceContextsOf_snoc, fold_left_app. simpl.
    rewrite JSMapFacts.get_fold_set.
    + rewrite IH; auto. intros d' Hd'. apply Hwf. apply in_or_app. now left.
    + apply Hwf. apply in_or_app. right. now left.
Qed.

Lemma sourceContexts_is_last_definition_witness :
  let table :=
    sourceContextsOf Sample.parseContextsRecursive ["dirA"; "dirB"] in
  JSMap.wf table /\
  (forall L,
     In L (JSMap.keys table) <->
     exists d, In d ["dirA"; "dirB"] /\
               In L (JSMap.keys (Sample.parseContextsRecursive d "."))) /\
  (forall L,
     JSMap.get L table =
     fold_left
       (fun found d =>
          match JSMap.get L (Sample.parseContextsRecursive d ".") with
          | Some source => Some source
          | None => found
          end)
       ["dirA"; "dirB"] None).
Proof.
  apply (sourceContexts_is_last_definition Sample.parseContextsRecursive
           ["dirA"; "dirB"]).
  intros d [<-|[<-|[]]]; nodup_strings.
Defined.

(* ================================================================== *)
(** * The rest of the makefile serializer *)

Module MakeMore.
Import Make.


Record Symlink : Type := {
  moduleName : string;
  linkPartition : string;
  linkSubpath : string;
  targetPath : string
}.

Record ModulesMakefile : Type := {
  device : string;
  vendor : string;
  radioFiles : option (list string);
  symlinks : list Symlink
}.

Record ProductMakefile : Type := {
  namespaces : option (list string);
  copyFiles : option (list string);
  packages : option (list string);
  props : option PartitionProps;
  fingerprint : option string
}.

(** The fields of [BlobEntry] that [blobToFileCopy] reads. *)
Record BlobEntry : Type := {
  partition : string;
  path : string;
  srcPath : string
}.

(** [basename(path)] of the POSIX [path] module, without an extension
    argument: the last component of the path that is not empty, trailing
    slashes ignored; the empty string when there is none.  [cur] is the
    component being read, [prev] the last complete one. *)
Fixpoint basenameFrom (cur prev : string) (s : string) : string :=
  match s with
  | EmptyString => match cur with EmptyString => prev | _ => cur end
  | String c s' =>
      if Ascii.eqb c "/"
      then basenameFrom EmptyString
                        (match cur with EmptyString => prev | _ => cur end) s'
      else basenameFrom (cur ++ String c EmptyString)%string prev s'
  end.

Definition basename (path : string) : string :=
  basenameFrom EmptyString EmptyString path.

(** The character class [[a-z0-9_\-.]]. *)
Definition plainChar (c : ascii) : bool :=
  let n := nat_of_ascii c in
  ((97 <=? n) && (n <=? 122) || (48 <=? n) && (n <=? 57)
   || (n =? 95) || (n =? 45) || (n =? 46))%nat.

(** [s.replaceAll(/[^a-z0-9_\-.]/g, '_')]. *)
Fixpoint replacePlain (s : string) : string :=
  match s with
  | EmptyString => EmptyString
  | String c s' =>
      String (if plainChar c then c else "_"%char) (replacePlain s')
  end.

Definition sanitizeBasename (path : string) : string :=
  replacePlain (basename path).

Section Serialize.

(** [util/headers]. *)
Variable MAKEFILE_HEADER : string.

(** [String.prototype.toUpperCase]. *)
Variable toUpperCase : string -> string.

Definition partPathToMakePath (partition subpath : string) : string :=
  let copyPart :=
    if String.eqb partition "system" then "PRODUCT_OUT"
    else ("TARGET_COPY_OUT_" ++ toUpperCase partition)%string in
  ("$(" ++ copyPart ++ ")/" ++ subpath)%string.

Definition blobToFileCopy (entry : BlobEntry) (proprietaryDir : string)
    : string :=
  let destPath := partPathToMakePath (partition entry) (path entry) in
  (proprietaryDir ++ "/" ++ srcPath entry ++ ":" ++ destPath)%string.




(** Line 125: one [k=v] per property. *)
Definition propLines (props : JSMap.t string) : list string :=
  map (fun e => (fst e ++ "=" ++ snd e)%string) (JSMap.entries props).

(** Lines 121-128: what one partition of the props adds to the blocks. *)
Definition pushProps (blocks : list string) (e : string * JSMap.t string)
    : list string :=
  if (JSMap.size (snd e) =? 0)%nat then blocks
  else blocks
       ++ [("PRODUCT_" ++ toUpperCase (fst e) ++ "_PROPERTIES += "
            ++ backslash ++ JSString.newline ++ "    "
            ++ JSString.join CONT_SEPARATOR (propLines (snd e)))%string].

(** The blocks of [serializeProductMakefile] before they are joined. *)
Definition productBlocks (mk : ProductMakefile) : list string :=
  let blocks := startBlocks MAKEFILE_HEADER in
  let blocks := addContBlock blocks "PRODUCT_SOONG_NAMESPACES" (namespaces mk) in
  let blocks := addContBlock blocks "PRODUCT_COPY_FILES" (copyFiles mk) in
  let blocks := addContBlock blocks "PRODUCT_PACKAGES" (packages mk) in
  let blocks :=
    match props mk with
    | Some pp => fold_left pushProps (JSMap.entries pp) blocks
    | None => blocks
    end in
  match fingerprint mk with
  | Some fp => blocks ++ [("PRODUCT_OVERRIDE_FINGERPRINT := " ++ fp)%string]
  | None => blocks
  end.

Definition serializeProductMakefile (mk : ProductMakefile) : string :=
  finishBlocks (productBlocks mk).

End Serialize.

End MakeMore.

Module MakeMoreFacts.
Import Make MakeMore MakeFacts.

Local Open Scope string_scope.

Lemma length_append (a b : string) :
  String.length (a ++ b) = String.length a + String.length b.
Proof. induction a as [|c a IH]; simpl; auto. Qed.

Lemma list_ascii_append (a b : string) :
  list_ascii_of_string (a ++ b)
  = (list_ascii_of_string a ++ list_ascii_of_string b)%list.
Proof. induction a as [|c a IH]; simpl; congruence. Qed.

(** *** [sanitizeBasename] *)

Lemma replacePlain_chars (s : string) :
  Forall (fun c => plainChar c = true) (list_ascii_of_string (replacePlain s)).
Proof.
  induction s as [|c s IH]; simpl; constructor; auto.
  destruct (plainChar c) eqn:E; auto.
Qed.

Lemma replacePlain_fixed (s : string) :
  Forall (fun c => plainChar c = true) (list_ascii_of_string s) ->
  replacePlain s = s.
Proof.
  induction s as [|c s IH]; simpl; auto.
  intros H. inversion H as [|? ? Hc Hs]; subst.
  rewrite Hc, IH; auto.
Qed.

Lemma length_replacePlain (s : string) :
  String.length (replacePlain s) = String.length s.
Proof. induction s as [|c s IH]; simpl; auto. Qed.

Lemma basenameFrom_no_slash (s : string) : forall cur prev,
  ~ In "/"%char (list_ascii_of_string s) ->
  basenameFrom cur prev s =
  match cur ++ s with EmptyString => prev | _ => cur ++ s end.
Proof.
  induction s as [|c s IH]; simpl; intros cur prev Hno.
  - rewrite append_nil_r. reflexivity.
  - destruct (Ascii.eqb c "/") eqn:E.
    + apply Ascii.eqb_eq in E. tauto.
    + rewrite IH by tauto. rewrite append_assoc. reflexivity.
Qed.

Lemma basename_no_slash (s : string) :
  ~ In "/"%char (list_ascii_of_string s) -> basename s = s.
Proof.
  intros H. unfold basename. rewrite basenameFrom_no_slash by assumption.
  simpl. now destruct s.
Qed.

Lemma length_basenameFrom (s : string) : forall cur prev,
  String.length (basenameFrom cur prev s)
  <= Nat.max (String.length prev) (String.length cur + String.length s).
Proof.
  induction s as [|c s IH]; cbn [basenameFrom String.length];
    intros cur prev.
  - destruct cur; cbn [String.length]; lia.
  - destruct (Ascii.eqb c "/").
    + etransitivity; [apply IH|].
      destruct cur; cbn [String.length]; lia.
    + etransitivity; [apply IH|]. rewrite length_append.
      cbn [String.length]. lia.
Qed.

(** X8: a sanitized base name holds only lower-case letters, digits,
    [_], [-] and [.] (so no slash); it is as long as the base name, hence
    no longer than the path; sanitizing it again changes nothing. *)
Theorem sanitizeBasename_is_plain (path : string) :
  let name := sanitizeBasename path in
  Forall (fun c => plainChar c = true) (list_ascii_of_string name) /\
  ~ In "/"%char (list_ascii_of_string name) /\
  String.length name = String.length (basename path) /\
  String.length name <= String.length path /\
  sanitizeBasename name = name.
Proof.
  intros name.
  assert (Hplain : Forall (fun c => plainChar c = true)
                          (list_ascii_of_string name))
    by apply replacePlain_chars.
  assert (Hslash : ~ In "/"%char (list_ascii_of_string name)).
  { intros Hin. rewrite Forall_forall in Hplain.
    apply Hplain in Hin. discriminate. }
  repeat split; auto.
  - apply length_replacePlain.
  - unfold name, sanitizeBasename. rewrite length_replacePlain.
    unfold basename. etransitivity; [apply length_basenameFrom|].
    simpl. lia.
  - unfold sanitizeBasename at 1. rewrite basename_no_slash by assumption.
    now apply replacePlain_fixed.
Qed.

(** *** Blocks in the text *)

Lemma block_in_text (blocks : list string) (b : string) :
  In b blocks ->
  exists pre post, finishBlocks blocks = pre ++ b ++ post.
Proof.
  intros Hin. destruct (in_split _ _ Hin) as (l1 & l2 & ->).
  unfold finishBlocks. rewrite join_split.
  exists (before (JSString.newline ++ JSString.newline) l1),
         (behind (JSString.newline ++ JSString.newline) l2 ++ JSString.newline).
  rewrite !append_assoc. reflexivity.
Qed.


Section Blocks.
Variable MAKEFILE_HEADER : string.
Variable toUpperCase : string -> string.

(** *** [serializeProductMakefile] *)

Lemma pushProps_blocks (blocks : list string) (e : string * JSMap.t string) :
  pushProps toUpperCase blocks e
  = (blocks ++ pushProps toUpperCase [] e)%list.
Proof.
  unfold pushProps. destruct (JSMap.size (snd e) =? 0)%nat.
  - now rewrite List.app_nil_r.
  - reflexivity.
Qed.

Lemma fold_pushProps (es : list (string * JSMap.t string)) : forall blocks,
  fold_left (pushProps toUpperCase) es blocks
  = (blocks ++ flat_map (pushProps toUpperCase []) es)%list.
Proof.
  induction es as [|e es IH]; simpl; intros blocks.
  - now rewrite List.app_nil_r.
  - rewrite IH, pushProps_blocks, <- List.app_assoc. reflexivity.
Qed.

Lemma flat_map_pushProps_filter (es : list (string * JSMap.t string)) :
  flat_map (pushProps toUpperCase [])
           (filter (fun e => negb (JSMap.size (snd e) =? 0)%nat) es)
  = flat_map (pushProps toUpperCase []) es.
Proof.
  induction es as [|e es IH]; [reflexivity|].
  cbn [filter flat_map].
  destruct (JSMap.size (snd e) =? 0)%nat eqn:E; cbn [negb flat_map].
  - rewrite IH. unfold pushProps at 2. now rewrite E.
  - now rewrite IH.
Qed.

Lemma flat_map_pushProps_empty (es : list (string * JSMap.t string)) :
  Forall (fun e => snd e = []) es ->
  flat_map (pushProps toUpperCase []) es = [].
Proof.
  induction 1 as [|e es He Hes IH]; [reflexivity|].
  cbn [flat_map]. rewrite IH.
  destruct e as [k v]. simpl in He. subst v. reflexivity.
Qed.

End Blocks.

End MakeMoreFacts.

(** ASCII letters in upper case, standing for [toUpperCase] on ASCII
    names. *)
Definition upperAscii (c : ascii) : ascii :=
  let n := nat_of_ascii c in
  if ((97 <=? n) && (n <=? 122))%nat then ascii_of_nat (n - 32) else c.

Fixpoint upperString (s : string) : string :=
  match s with
  | EmptyString => EmptyString
  | String c s' => String (upperAscii c) (upperString s')
  end.

Lemma productBlocks_props
    (MAKEFILE_HEADER : string) (toUpperCase : string -> string)
    (mk : MakeMore.ProductMakefile) (pp : PartitionProps) :
  MakeMore.props mk = Some pp ->
  MakeMore.productBlocks MAKEFILE_HEADER toUpperCase mk
  = MakeMore.productBlocks MAKEFILE_HEADER toUpperCase
      {| MakeMore.namespaces := MakeMore.namespaces mk;
         MakeMore.copyFiles := MakeMore.copyFiles mk;
         MakeMore.packages := MakeMore.packages mk;
         MakeMore.props := None;
         MakeMore.fingerprint := None |}
    ++ flat_map (MakeMore.pushProps toUpperCase []) pp
    ++ match MakeMore.fingerprint mk with
       | Some fp => [("PRODUCT_OVERRIDE_FINGERPRINT := " ++ fp)%string]
       | None => []
       end.
Proof.
  intros Hpp. unfold MakeMore.productBlocks. rewrite Hpp.
  cbn [MakeMore.namespaces MakeMore.copyFiles MakeMore.packages
       MakeMore.props MakeMore.fingerprint].
  unfold JSMap.entries. rewrite MakeMoreFacts.fold_pushProps.
  destruct (MakeMore.fingerprint mk).
  - now rewrite <- List.app_assoc.
  - now rewrite !List.app_nil_r.
Qed.

(** X9: [serializeProductMakefile] skips the partitions that have no
    property: the text is the same as for the props without them, and
    props in which every partition is empty give the text of a makefile
    without props. *)
Theorem empty_props_partitions_are_skipped
    (MAKEFILE_HEADER : string) (toUpperCase : string -> string)
    (mk : MakeMore.ProductMakefile) (pp : PartitionProps) :
  MakeMore.props mk = Some pp ->
  let withProps (p : option PartitionProps) :=
    {| MakeMore.namespaces := MakeMore.namespaces mk;
       MakeMore.copyFiles := MakeMore.copyFiles mk;
       MakeMore.packages := MakeMore.packages mk;
       MakeMore.props := p;
       MakeMore.fingerprint := MakeMore.fingerprint mk |} in
  MakeMore.serializeProductMakefile MAKEFILE_HEADER toUpperCase mk
  = MakeMore.serializeProductMakefile MAKEFILE_HEADER toUpperCase
      (withProps
         (Some (filter (fun e => negb (JSMap.size (snd e) =? 0)%nat) pp))) /\
  (Forall (fun e => snd e = []) pp ->
   MakeMore.serializeProductMakefile MAKEFILE_HEADER toUpperCase mk
   = MakeMore.serializeProductMakefile MAKEFILE_HEADER toUpperCase
       (withProps None)).
Proof.
  intros Hpp withProps.
  unfold MakeMore.serializeProductMakefile.
  rewrite (productBlocks_props MAKEFILE_HEADER toUpperCase mk pp Hpp).
  split.
  - rewrite (productBlocks_props MAKEFILE_HEADER toUpperCase
               (withProps (Some (filter _ pp))) _ eq_refl).
    cbn [withProps MakeMore.namespaces MakeMore.copyFiles MakeMore.packages
         MakeMore.props MakeMore.fingerprint].
    now rewrite MakeMoreFacts.flat_map_pushProps_filter.
  - intros Hempty.
    rewrite MakeMoreFacts.flat_map_pushProps_empty by assumption.
    unfold MakeMore.productBlocks.
    cbn [withProps MakeMore.namespaces MakeMore.copyFiles MakeMore.packages
         MakeMore.props MakeMore.fingerprint].
    destruct (MakeMore.fingerprint mk); cbn [app];
      rewrite ?List.app_nil_r; reflexivity.
Qed.

Lemma empty_props_partitions_are_skipped_witness :
  let mk :=
    {| MakeMore.namespaces := Some ["vendor/google/raven"];
       MakeMore.copyFiles := None;
       MakeMore.packages := Some ["libbar"];
       MakeMore.props := Some [("system", [("ro.a", "1")]); ("product", [])];
       MakeMore.fingerprint := Some "google/raven/raven:12" |} in
  let withProps (p : option PartitionProps) :=
    {| MakeMore.namespaces := MakeMore.namespaces mk;
       MakeMore.copyFiles := MakeMore.copyFiles mk;
       MakeMore.packages := MakeMore.packages mk;
       MakeMore.props := p;
       MakeMore.fingerprint := MakeMore.fingerprint mk |} in
  MakeMore.serializeProductMakefile Sample.MAKEFILE_HEADER upperString mk
  = MakeMore.serializeProductMakefile Sample.MAKEFILE_HEADER upperString
      (withProps
         (Some (filter (fun e => negb (JSMap.size (snd e) =? 0)%nat)
                       [("system", [("ro.a", "1")]); ("product", [])]))) /\
  (Forall (fun e => snd e = [])
          [("system", [("ro.a", "1")]); ("product", @nil (string * string))] ->
   MakeMore.serializeProductMakefile Sample.MAKEFILE_HEADER upperString mk
   = MakeMore.serializeProductMakefile Sample.MAKEFILE_HEADER upperString
       (withProps None)).
Proof.
  apply (empty_props_partitions_are_skipped Sample.MAKEFILE_HEADER
           upperString
           {| MakeMore.namespaces := Some ["vendor/google/raven"];
              MakeMore.copyFiles := None;
              MakeMore.packages := Some ["libbar"];
              MakeMore.props :=
                Some [("system", [("ro.a", "1")]); ("product", [])];
              MakeMore.fingerprint := Some "google/raven/raven:12" |}
           [("system", [("ro.a", "1")]); ("product", [])]).
  reflexivity.
Defined.

(** The text of a sample device makefile: the product partition, which
    has no property, leaves no block. *)
Example serializeProductMakefile_sample :
  MakeMore.serializeProductMakefile Sample.MAKEFILE_HEADER upperString
    {| MakeMore.namespaces := Some ["vendor/google/raven"];
       MakeMore.copyFiles := None;
       MakeMore.packages := Some ["libbar"; "libfoo"];
       MakeMore.props := Some [("system", [("ro.a", "1")]); ("product", [])];
       MakeMore.fingerprint := Some "google/raven/raven:12" |}
  = JSString.join JSString.newline
      [ "# Generated by adevtool; do not edit.";
        "";
        ("PRODUCT_SOONG_NAMESPACES += " ++ Make.backslash)%string;
        "    vendor/google/raven";
        "";
        ("PRODUCT_PACKAGES += " ++ Make.backslash)%string;
        ("    libbar " ++ Make.backslash)%string;
        "    libfoo";
        "";
        ("PRODUCT_SYSTEM_PROPERTIES += " ++ Make.backslash)%string;
        "    ro.a=1";
        "";
        "PRODUCT_OVERRIDE_FINGERPRINT := google/raven/raven:12";
        "" ].
Proof. reflexivity. Qed.

(** X10: every partition of the props that has a property gets its block
    in the text of [serializeProductMakefile], the variable named after
    the partition in upper case followed by the properties, and every
    property of the partition is one of the [key=value] items of that
    block. *)
Theorem props_are_emitted
    (MAKEFILE_HEADER : string) (toUpperCase : string -> string)
    (mk : MakeMore.ProductMakefile) (pp : PartitionProps)
    (partition : string) (props : JSMap.t string) (key value : string) :
  MakeMore.props mk = Some pp ->
  In (partition, props) pp ->
  In (key, value) props ->
  In (key ++ "=" ++ value)%string (MakeMore.propLines props) /\
  exists pre post,
    MakeMore.serializeProductMakefile MAKEFILE_HEADER toUpperCase mk
    = (pre
       ++ ("PRODUCT_" ++ toUpperCase partition ++ "_PROPERTIES += "
           ++ Make.backslash ++ JSString.newline ++ "    "
           ++ JSString.join Make.CONT_SEPARATOR (MakeMore.propLines props))
       ++ post)%string.
Proof.
  intros Hpp Hpart Hprop. split.
  - unfold MakeMore.propLines, JSMap.entries.
    apply (in_map (fun e => (fst e ++ "=" ++ snd e)%string)) in Hprop.
    exact Hprop.
  - unfold MakeMore.serializeProductMakefile.
    apply MakeMoreFacts.block_in_text.
    rewrite (productBlocks_props MAKEFILE_HEADER toUpperCase mk pp Hpp).
    apply in_or_app. right. apply in_or_app. left.
    apply in_flat_map. exists (partition, props). split; auto.
    unfold MakeMore.pushProps.
    destruct props as [|e es]; [contradiction|]. left. reflexivity.
Qed.

Lemma props_are_emitted_witness :
  let mk :=
    {| MakeMore.namespaces := None;
       MakeMore.copyFiles := None;
       MakeMore.packages := None;
       MakeMore.props := Some [("system", [("ro.a", "1")])];
       MakeMore.fingerprint := None |} in
  In ("ro.a" ++ "=" ++ "1")%string (MakeMore.propLines [("ro.a", "1")]) /\
  exists pre post,
    MakeMore.serializeProductMakefile Sample.MAKEFILE_HEADER upperString mk
    = (pre
       ++ ("PRODUCT_" ++ upperString "system" ++ "_PROPERTIES += "
           ++ Make.backslash ++ JSString.newline ++ "    "
           ++ JSString.join Make.CONT_SEPARATOR
                (MakeMore.propLines [("ro.a", "1")]))
       ++ post)%string.
Proof.
  apply (props_are_emitted Sample.MAKEFILE_HEADER upperString
           {| MakeMore.namespaces := None;
              MakeMore.copyFiles := None;
              MakeMore.packages := None;
              MakeMore.props := Some [("system", [("ro.a", "1")])];
              MakeMore.fingerprint := None |}
           [("system", [("ro.a", "1")])] "system" [("ro.a", "1")] "ro.a" "1").
  - reflexivity.
  - simpl. auto.
  - simpl. auto.
Defined.





Lemma flat_map_partitionBlocks_filter (es : SelinuxPartResolutions) :
  flat_map MakeFacts.partitionBlocks
    (filter (fun e => negb ((length (sepolicyDirs (snd e)) =? 0)%nat
                            && (length (missingContexts (snd e)) =? 0)%nat))
            es)
  = flat_map MakeFacts.partitionBlocks es.
Proof.
  induction es as [|e es IH]; [reflexivity|].
  cbn [filter flat_map].
  destruct (sepolicyDirs (snd e)) as [|d ds] eqn:Ed;
    destruct (missingContexts (snd e)) as [|c cs] eqn:Ec;
    cbn [length Nat.eqb andb negb flat_map]; rewrite IH; auto.
  unfold MakeFacts.partitionBlocks. now rewrite Ed, Ec.
Qed.

(** X12: [serializeBoardMakefile] leaves no trace of a partition whose
    resolution has neither a directory nor a missing context: the text is
    the same as for the resolutions without such partitions, and
    resolutions made of such partitions only give the text of a makefile
    without resolutions. *)
Theorem empty_resolutions_are_skipped
    (MAKEFILE_HEADER : string) (mk : Make.BoardMakefile)
    (resolutions : SelinuxPartResolutions) :
  Make.secontextResolutions mk = Some resolutions ->
  let withResolutions (r : option SelinuxPartResolutions) :=
    {| Make.abOtaPartitions := Make.abOtaPartitions mk;
       Make.boardInfo := Make.boardInfo mk;
       Make.secontextResolutions := r |} in
  Make.serializeBoardMakefile MAKEFILE_HEADER mk
  = Make.serializeBoardMakefile MAKEFILE_HEADER
      (withResolutions
         (Some (filter
                  (fun e =>
                     negb ((length (sepolicyDirs (snd e)) =? 0)%nat
                           && (length (missingContexts (snd e)) =? 0)%nat))
                  resolutions))) /\
  (Forall (fun e => sepolicyDirs (snd e) = [] /\ missingContexts (snd e) = [])
          resolutions ->
   Make.serializeBoardMakefile MAKEFILE_HEADER mk
   = Make.serializeBoardMakefile MAKEFILE_HEADER (withResolutions None)).
Proof.
  intros Hres withResolutions. unfold Make.serializeBoardMakefile.
  rewrite (MakeFacts.boardBlocks_resolutions MAKEFILE_HEADER mk resolutions
             Hres).
  split.
  - rewrite (MakeFacts.boardBlocks_resolutions MAKEFILE_HEADER
               (withResolutions (Some (filter _ resolutions))) _ eq_refl).
    now rewrite flat_map_partitionBlocks_filter.
  - intros Hempty.
    assert (Hnil : flat_map MakeFacts.partitionBlocks resolutions = []).
    { clear Hres. induction Hempty as [|e es [Hd Hc] Hes IH];
        [reflexivity|].
      cbn [flat_map]. rewrite IH. unfold MakeFacts.partitionBlocks.
      now rewrite Hd, Hc. }
    rewrite Hnil, app_nil_r. reflexivity.
Qed.

Lemma empty_resolutions_are_skipped_witness :
  let withResolutions (r : option SelinuxPartResolutions) :=
    {| Make.abOtaPartitions := Make.abOtaPartitions Sample.boardMakefile;
       Make.boardInfo := Make.boardInfo Sample.boardMakefile;
       Make.secontextResolutions := r |} in
  Make.serializeBoardMakefile Sample.MAKEFILE_HEADER Sample.boardMakefile
  = Make.serializeBoardMakefile Sample.MAKEFILE_HEADER
      (withResolutions
         (Some (filter
                  (fun e =>
                     negb ((length (sepolicyDirs (snd e)) =? 0)%nat
                           && (length (missingContexts (snd e)) =? 0)%nat))
                  Sample.resolutions))) /\
  (Forall (fun e => sepolicyDirs (snd e) = [] /\ missingContexts (snd e) = [])
          Sample.resolutions ->
   Make.serializeBoardMakefile Sample.MAKEFILE_HEADER Sample.boardMakefile
   = Make.serializeBoardMakefile Sample.MAKEFILE_HEADER
       (withResolutions None)).
Proof.
  apply (empty_resolutions_are_skipped Sample.MAKEFILE_HEADER
           Sample.boardMakefile Sample.resolutions).
  reflexivity.
Defined.

(* ================================================================== *)
(** * The rest of [src/frontend/generate.ts] *)

(** What a function throws: a [TypeError] of the run time, or an [Error]
    made with [new Error(message)]. *)
Inductive Thrown : Type :=
| ThrownTypeError
| ThrownError (message : string).

Inductive completion (A : Type) : Type :=
| Normal (a : A)
| Abrupt (e : Thrown).

Arguments Normal {A} a.
Arguments Abrupt {A} e.

Definition andThen {A B : Type} (c : completion A) (k : A -> completion B)
    : completion B :=
  match c with
  | Normal a => k a
  | Abrupt e => Abrupt e
  end.

(** [o!.member] on a possibly absent [o]. *)
Definition present {A : Type} (o : option A) : completion A :=
  match o with
  | Some a => Normal a
  | None => Abrupt ThrownTypeError
  end.

(** [a ?? b] on optional values. *)
Definition orElse {A : Type} (a b : option A) : option A :=
  match a with
  | Some _ => a
  | None => b
  end.

(** What reaches the file system, in order. *)
Inductive FsEvent : Type :=
| WriteFile (path content : string)
| WriteFirmwareImages (dir : string).

Module Build.

(** The device makefile as [generateBuildFiles] handles it: the fields of
    the product makefile of the serializer and the two more it sets.  An
    optional field is [None] when the object has no such property. *)
Record DeviceMakefile : Type := {
  namespaces : option (list string);
  copyFiles : option (list string);
  packages : option (list string);
  props : option PartitionProps;
  fingerprint : option string;
  vintfManifestPaths : option (JSMap.t string);
  enforceRros : option string
}.

(** The board makefile that [generateBuildFiles] makes (lines 283-291). *)
Record BoardMakefile : Type := {
  sepolicyResolutions : option SelinuxPartResolutions;
  buildPartitions : option (list string);
  abOtaPartitions : option (list string);
  boardInfo : option string
}.

(** Lines 312-318; a property that the product partition lacks is
    [undefined]. *)
Record ProductMakefile : Type := {
  baseProductPath : string;
  name : option string;
  model : option string;
  brand : option string;
  manufacturer : option string
}.

(** Lines 319-321. *)
Record ProductsMakefile : Type := {
  products : list (option string)
}.

(** The build files of [generateBuild], as far as [generateBuildFiles]
    reads and writes them. *)
Record BuildFiles : Type := {
  deviceMakefile : option DeviceMakefile;
  boardMakefile : option BoardMakefile;
  modulesMakefile : option MakeMore.ModulesMakefile;
  productMakefile : option ProductMakefile;
  productsMakefile : option ProductsMakefile
}.

End Build.

(** The further fields of [DeviceConfig] that the functions below read:
    [device.vendor], [generate.products], [platform.product_makefile]. *)
Record GenerateConfig (Filters : Type) : Type := {
  deviceConfig : DeviceConfig Filters;
  device_vendor : string;
  generate_products : bool;
  platform_product_makefile : string
}.

Arguments deviceConfig {Filters} _.
Arguments device_vendor {Filters} _.
Arguments generate_products {Filters} _.
Arguments platform_product_makefile {Filters} _.

Section GenerateMore.

Context {Filters : Type}.
Context {BlobEntry : Type}.

(** [blobs/build], [blobs/file-list], [images/firmware], [blobs/apex],
    [selinux/labels] and the [path] module. *)
Variable generateBuild :
  list BlobEntry -> string -> string -> string -> VendorDirectories
  -> Build.BuildFiles.
Variable serializeBlobList : list BlobEntry -> string.
Variable relative : string -> string -> string.
Variable ANDROID_INFO : string.

Context {FirmwareImages : Type}.
Variable extractFactoryFirmware : string -> FirmwareImages.
Variable writeFirmwareImages : FirmwareImages -> string -> list string.
Variable generateAndroidInfo :
  string -> option string -> option string -> string.

Context {ApexLabels TempState : Type}.
Variable flattenAllApexs :
  list BlobEntry -> string -> TempState -> list BlobEntry * ApexLabels.
Variable generateFileContexts : ApexLabels -> string.

Variable collation : Collation.

(** [flattenApexs]: the file it writes and the entries it returns. *)
Definition flattenApexs (entries : list BlobEntry) (dirs : VendorDirectories)
    (tmp : TempState) (stockSrc : string)
    : list FsEvent * list BlobEntry :=
  let apex := flattenAllApexs entries stockSrc tmp in
  let fileContexts := (sepolicy dirs ++ "/file_contexts")%string in
  ([WriteFile fileContexts (generateFileContexts (snd apex))], fst apex).

(** [extractFirmware]: what it has written when it ends, and how it
    ends. *)
Definition extractFirmware (config : GenerateConfig Filters)
    (dirs : VendorDirectories) (stockProps : PartitionProps)
    (factoryZip : string) : list FsEvent * completion (list string) :=
  let fwImages := extractFactoryFirmware factoryZip in
  let fwPaths := writeFirmwareImages fwImages (firmware dirs) in
  let written := [WriteFirmwareImages (firmware dirs)] in
  match JSMap.get "vendor" stockProps with
  | None => (written, Abrupt ThrownTypeError)
  | Some vendorProps =>
      let androidInfo :=
        generateAndroidInfo (device_name (deviceConfig config))
          (JSMap.get "ro.build.expect.bootloader" vendorProps)
          (JSMap.get "ro.build.expect.baseband" vendorProps) in
      (written
       ++ [WriteFile (firmware dirs ++ "/" ++ ANDROID_INFO)%string androidInfo],
       Normal fwPaths)
  end.

(** Lines 275-280 and 293-296: the device makefile with its device parts;
    the properties of the generated makefile come last in the object
    literal and win.  The generated makefile is taken to hold no property
    with the value [undefined]: such a property would win as well. *)
Definition deviceParts (dm : Build.DeviceMakefile) (sorted : list string)
    (propResults : option PropResults)
    (vintfManifestPaths : option (JSMap.t string)) (enforceAllRros : bool)
    : Build.DeviceMakefile :=
  {| Build.namespaces := Build.namespaces dm;
     Build.copyFiles := Build.copyFiles dm;
     Build.packages := Some sorted;
     Build.props :=
       orElse (Build.props dm)
              (match propResults with
               | Some pr => missingProps pr
               | None => None
               end);
     Build.fingerprint :=
       orElse (Build.fingerprint dm)
              (match propResults with
               | Some pr => fingerprint pr
               | None => None
               end);
     Build.vintfManifestPaths :=
       orElse (Build.vintfManifestPaths dm) vintfManifestPaths;
     Build.enforceRros :=
       if enforceAllRros then Some "*" else Build.enforceRros dm |}.

(** Lines 283-291. *)
Definition boardParts (dirs : VendorDirectories)
    (propResults : option PropResults) (fwPaths : option (list string))
    (sepolicyResolutions : option SelinuxPartResolutions)
    (addAbOtaParts : bool) : Build.BoardMakefile :=
  let missing :=
    match propResults with
    | Some pr =>
        if (0 <? length (missingOtaParts pr))%nat
        then Some (missingOtaParts pr) else None
    | None => None
    end in
  {| Build.sepolicyResolutions := sepolicyResolutions;
     Build.buildPartitions := missing;
     Build.abOtaPartitions := if addAbOtaParts then missing else None;
     Build.boardInfo :=
       match fwPaths with
       | Some _ => Some (firmware dirs ++ "/" ++ ANDROID_INFO)%string
       | None => None
       end |}.

(** [generateBuildFiles] from the return of [generateBuild] up to its two
    awaited writes: the build files that it hands to [writeBuildFiles]
    (line 328) and the file list that it writes before (line 326), or what
    it throws before it writes anything.  [generateBuild] is taken to
    return; a failure of [fs.writeFile] or of [writeBuildFiles] rejects the
    call after this point and is not part of the result. *)
Definition generateBuildFiles (config : GenerateConfig Filters)
    (dirs : VendorDirectories) (entries : list BlobEntry)
    (buildPkgs : list string) (propResults : option PropResults)
    (fwPaths : option (list string))
    (vintfManifestPaths : option (JSMap.t string))
    (sepolicyResolutions : option SelinuxPartResolutions)
    (stockSrc : string) (addAbOtaParts enforceAllRros : bool)
    : completion (Build.BuildFiles * list FsEvent) :=
  let build :=
    generateBuild entries (device_name (deviceConfig config))
                  (device_vendor config) stockSrc dirs in
  andThen (present (Build.deviceMakefile build)) (fun dm =>
  andThen (present (Build.packages dm)) (fun packages =>
  let sorted :=
    JSArray.sort (localeCompare collation) (packages ++ buildPkgs) in
  let device :=
    deviceParts dm sorted propResults vintfManifestPaths enforceAllRros in
  let board :=
    boardParts dirs propResults fwPaths sepolicyResolutions addAbOtaParts in
  andThen
    (match fwPaths with
     | Some paths =>
         andThen (present (Build.modulesMakefile build)) (fun mm =>
         Normal
           (Some {| MakeMore.device := MakeMore.device mm;
                    MakeMore.vendor := MakeMore.vendor mm;
                    MakeMore.radioFiles :=
                      Some (map (relative (out dirs)) paths);
                    MakeMore.symlinks := MakeMore.symlinks mm |}))
     | None => Normal (Build.modulesMakefile build)
     end) (fun modules =>
  andThen
    (if generate_products config then
       match propResults with
       | None =>
           Abrupt (ThrownError "Product generation depends on properties")
       | Some pr =>
           andThen (present (JSMap.get "product" (stockProps pr)))
             (fun productProps =>
           let productName :=
             JSMap.get "ro.product.product.name" productProps in
           Normal
             (Some {| Build.baseProductPath :=
                        platform_product_makefile config;
                      Build.name := productName;
                      Build.model :=
                        JSMap.get "ro.product.product.model" productProps;
                      Build.brand :=
                        JSMap.get "ro.product.product.brand" productProps;
                      Build.manufacturer :=
                        JSMap.get "ro.product.product.manufacturer"
                                  productProps |},
              Some {| Build.products := [productName] |}))
       end
     else Normal (Build.productMakefile build, Build.productsMakefile build))
    (fun product =>
  Normal
    ({| Build.deviceMakefile := Some device;
        Build.boardMakefile := Some board;
        Build.modulesMakefile := modules;
        Build.productMakefile := fst product;
        Build.productsMakefile := snd product |},
     [WriteFile (out dirs ++ "/proprietary-files.txt")%string
                (serializeBlobList entries ++ JSString.newline)%string]))))).

End GenerateMore.

Section GenerateBuildFilesFacts.
Context {Filters BlobEntry : Type}.
Variable generateBuild :
  list BlobEntry -> string -> string -> string -> VendorDirectories
  -> Build.BuildFiles.
Variable serializeBlobList : list BlobEntry -> string.
Variable relative : string -> string -> string.
Variable ANDROID_INFO : string.
Variable collation : Collation.

Variables (config : GenerateConfig Filters) (dirs : VendorDirectories)
          (entries : list BlobEntry) (buildPkgs : list string)
          (propResults : option PropResults) (fwPaths : option (list string))
          (vintfManifestPaths : option (JSMap.t string))
          (sepolicyResolutions : option SelinuxPartResolutions)
          (stockSrc : string) (addAbOtaParts enforceAllRros : bool).

Let build :=
  generateBuild entries (device_name (deviceConfig config))
                (device_vendor config) stockSrc dirs.

Let run :=
  generateBuildFiles generateBuild serializeBlobList relative ANDROID_INFO
    collation config dirs entries buildPkgs propResults fwPaths
    vintfManifestPaths sepolicyResolutions stockSrc addAbOtaParts
    enforceAllRros.

(** What a normal end of [generateBuildFiles] tells about its inputs and
    its result. *)
Lemma generateBuildFiles_Normal (b : Build.BuildFiles) (events : list FsEvent) :
  run = Normal (b, events) ->
  exists dm packages,
    Build.deviceMakefile build = Some dm /\
    Build.packages dm = Some packages /\
    Build.deviceMakefile b =
      Some (deviceParts dm
              (JSArray.sort (localeCompare collation) (packages ++ buildPkgs))
              propResults vintfManifestPaths enforceAllRros) /\
    Build.boardMakefile b =
      Some (boardParts ANDROID_INFO dirs propResults fwPaths
                       sepolicyResolutions addAbOtaParts) /\
    events =
      [WriteFile (out dirs ++ "/proprietary-files.txt")%string
                 (serializeBlobList entries ++ JSString.newline)%string].
Proof.
  unfold run, generateBuildFiles. fold build.
  destruct (Build.deviceMakefile build) as [dm|] eqn:Edm; [|discriminate].
  cbn [present andThen].
  destruct (Build.packages dm) as [packages|] eqn:Epk; [|discriminate].
  cbn [present andThen].
  intros H. exists dm, packages. split; auto. split; auto.
  destruct fwPaths as [paths|];
    [destruct (Build.modulesMakefile build); [|discriminate]|];
    cbn [present andThen] in H;
    (destruct (generate_products config);
     [destruct propResults as [pr|]; [|discriminate];
      destruct (JSMap.get "product" (stockProps pr)); [|discriminate]|]);
    cbn [present andThen] in H; injection H as <- <-;
    repeat split; reflexivity.
Qed.

End GenerateBuildFilesFacts.

(** X13: what [generateBuildFiles] does between the return of
    [generateBuild] and its first write (lines 270-326).  It throws a
    [TypeError] exactly when the generated build has no device makefile
    with packages, or firmware paths are given and it has no modules
    makefile, or products are to be generated and the stock properties of
    the property results have no product partition.  It throws
    [Product generation depends on properties] exactly when the packages
    and the modules makefile are there, products are to be generated and
    there are no property results.  In every other case, and only then, it
    comes to write the file list, followed by a newline, to
    [proprietary-files.txt] in the output directory.  Whether that write
    and the later [writeBuildFiles] succeed is outside of this
    statement. *)
Theorem generateBuildFiles_before_first_write
    {Filters BlobEntry : Type}
    (generateBuild :
       list BlobEntry -> string -> string -> string -> VendorDirectories
       -> Build.BuildFiles)
    (serializeBlobList : list BlobEntry -> string)
    (relative : string -> string -> string) (ANDROID_INFO : string)
    (collation : Collation)
    (config : GenerateConfig Filters) (dirs : VendorDirectories)
    (entries : list BlobEntry) (buildPkgs : list string)
    (propResults : option PropResults) (fwPaths : option (list string))
    (vintfManifestPaths : option (JSMap.t string))
    (sepolicyResolutions : option SelinuxPartResolutions)
    (stockSrc : string) (addAbOtaParts enforceAllRros : bool) :
  let build :=
    generateBuild entries (device_name (deviceConfig config))
                  (device_vendor config) stockSrc dirs in
  let run :=
    generateBuildFiles generateBuild serializeBlobList relative ANDROID_INFO
      collation config dirs entries buildPkgs propResults fwPaths
      vintfManifestPaths sepolicyResolutions stockSrc addAbOtaParts
      enforceAllRros in
  let hasPackages :=
    exists dm packages,
      Build.deviceMakefile build = Some dm /\
      Build.packages dm = Some packages in
  let noPackages :=
    Build.deviceMakefile build = None \/
    exists dm, Build.deviceMakefile build = Some dm /\
               Build.packages dm = None in
  let hasModules :=
    fwPaths = None \/ exists mm, Build.modulesMakefile build = Some mm in
  let noModules :=
    (exists paths, fwPaths = Some paths) /\
    Build.modulesMakefile build = None in
  let noProduct :=
    generate_products config = true /\
    exists pr, propResults = Some pr /\
               JSMap.get "product" (stockProps pr) = None in
  (run = Abrupt ThrownTypeError
   <-> noPackages \/ noModules \/ noProduct) /\
  (run = Abrupt (ThrownError "Product generation depends on properties")
   <-> hasPackages /\ hasModules /\
       generate_products config = true /\ propResults = None) /\
  ((exists b,
      run = Normal
              (b, [WriteFile
                     (out dirs ++ "/proprietary-files.txt")%string
                     (serializeBlobList entries
                      ++ String (ascii_of_nat 10) EmptyString)%string]))
   <-> hasPackages /\ hasModules /\
       (generate_products config = false \/
        exists pr productProps,
          propResults = Some pr /\
          JSMap.get "product" (stockProps pr) = Some productProps)).
Proof.
  intros build run hasPackages noPackages hasModules noModules noProduct.
  unfold run, generateBuildFiles, hasPackages, noPackages, hasModules,
    noModules, noProduct.
  fold build.
  destruct (Build.deviceMakefile build) as [dm|] eqn:Edm;
    cbn [present andThen];
    [destruct (Build.packages dm) as [packages|] eqn:Epk;
     cbn [present andThen];
     [destruct fwPaths as [paths|];
      [destruct (Build.modulesMakefile build) as [mm|] eqn:Emm|];
      cbn [present andThen];
      (destruct (generate_products config);
       [destruct propResults as [pr|];
        [destruct (JSMap.get "product" (stockProps pr)) as [pp|] eqn:Epp|]|]);
      cbn [present andThen]|]|];
    repeat match goal with
           | |- _ /\ _ => split
           | |- _ <-> _ => split
           | |- forall _, _ => intro
           | H : _ /\ _ |- _ => destruct H
           | H : _ \/ _ |- _ => destruct H
           | H : exists _, _ |- _ => destruct H
           | H : Some _ = Some _ |- _ => injection H as H; subst
           end;
    try discriminate; try congruence;
    first [ reflexivity
          | assumption
          | eexists; reflexivity
          | do 2 eexists; split; [reflexivity | eassumption]
          | left; reflexivity
          | right; reflexivity
          | right; eexists; reflexivity
          | right; do 2 eexists; split; [reflexivity | eassumption]
          | left; left; reflexivity
          | left; right; eexists; split; [reflexivity | eassumption]
          | right; left; split; [eexists; reflexivity | reflexivity]
          | right; right; split;
            [reflexivity | eexists; split; [reflexivity | eassumption]] ].
Qed.

(** X14: the board makefile that [generateBuildFiles] hands on is made
    anew from the arguments (the one of [generateBuild] is dropped).  Its
    partition lists are never empty lists; [buildPartitions], when set, is
    the missing A/B partitions of the property results; [abOtaPartitions]
    is set only together with [buildPartitions], to the same list, and only
    when [addAbOtaParts] is on; [boardInfo] is set exactly when firmware
    paths are given; the sepolicy resolutions are passed through.  The one
    file written is the blob list, with a newline at its end. *)
Theorem board_makefile_of_generateBuildFiles
    {Filters BlobEntry : Type}
    (generateBuild :
       list BlobEntry -> string -> string -> string -> VendorDirectories
       -> Build.BuildFiles)
    (serializeBlobList : list BlobEntry -> string)
    (relative : string -> string -> string) (ANDROID_INFO : string)
    (collation : Collation)
    (config : GenerateConfig Filters) (dirs : VendorDirectories)
    (entries : list BlobEntry) (buildPkgs : list string)
    (propResults : option PropResults) (fwPaths : option (list string))
    (vintfManifestPaths : option (JSMap.t string))
    (sepolicyResolutions : option SelinuxPartResolutions)
    (stockSrc : string) (addAbOtaParts enforceAllRros : bool)
    (b : Build.BuildFiles) (events : list FsEvent) :
  generateBuildFiles generateBuild serializeBlobList relative ANDROID_INFO
    collation config dirs entries buildPkgs propResults fwPaths
    vintfManifestPaths sepolicyResolutions stockSrc addAbOtaParts
    enforceAllRros = Normal (b, events) ->
  exists board,
    Build.boardMakefile b = Some board /\
    Build.sepolicyResolutions board = sepolicyResolutions /\
    Build.buildPartitions board <> Some [] /\
    (forall parts,
       Build.buildPartitions board = Some parts <->
       parts <> [] /\
       exists pr, propResults = Some pr /\ missingOtaParts pr = parts) /\
    Build.abOtaPartitions board =
      (if addAbOtaParts then Build.buildPartitions board else None) /\
    Build.boardInfo board =
      match fwPaths with
      | Some _ => Some (firmware dirs ++ "/" ++ ANDROID_INFO)%string
      | None => None
      end /\
    events =
      [WriteFile (out dirs ++ "/proprietary-files.txt")%string
                 (serializeBlobList entries ++ JSString.newline)%string].
Proof.
  intros Hrun. apply generateBuildFiles_Normal in Hrun.
  destruct Hrun as (dm & packages & _ & _ & _ & Hboard & Hev).
  eexists. split; [exact Hboard|].
  unfold boardParts. cbn [Build.sepolicyResolutions Build.buildPartitions
                          Build.abOtaPartitions Build.boardInfo].
  repeat split; auto.
  - destruct propResults as [pr|]; [|discriminate].
    destruct (missingOtaParts pr); simpl; discriminate.
  - destruct propResults as [pr|]; [|discriminate].
    destruct (missingOtaParts pr) as [|p ps]; simpl in H;
      [discriminate|]. injection H as <-. discriminate.
  - destruct propResults as [pr|]; [|discriminate].
    exists pr. split; auto.
    destruct (missingOtaParts pr) as [|p ps]; simpl in H;
      [discriminate|]. now injection H.
  - intros [Hne (pr & -> & <-)].
    destruct (missingOtaParts pr) as [|p ps]; [congruence|]. reflexivity.
Qed.

Lemma board_makefile_of_generateBuildFiles_witness :
  let generateBuild :=
    fun (_ : list Sample.BlobEntry) (_ _ _ : string) (_ : VendorDirectories) =>
      {| Build.deviceMakefile :=
           Some {| Build.namespaces := None;
                   Build.copyFiles := None;
                   Build.packages := Some ["libfoo"];
                   Build.props := None;
                   Build.fingerprint := None;
                   Build.vintfManifestPaths := None;
                   Build.enforceRros := None |};
         Build.boardMakefile := None;
         Build.modulesMakefile := None;
         Build.productMakefile := None;
         Build.productsMakefile := None |} in
  let pr :=
    {| stockProps := [];
       missingProps := None;
       fingerprint := None;
       missingOtaParts := ["vendor"] |} in
  exists board,
    Some {| Build.sepolicyResolutions := None;
            Build.buildPartitions := Some ["vendor"];
            Build.abOtaPartitions := None;
            Build.boardInfo := None |} = Some board /\
    Build.sepolicyResolutions board = None /\
    Build.buildPartitions board <> Some [] /\
    (forall parts,
       Build.buildPartitions board = Some parts <->
       parts <> [] /\
       exists pr', Some pr = Some pr' /\ missingOtaParts pr' = parts) /\
    Build.abOtaPartitions board =
      (if false then Build.buildPartitions board else None) /\
    Build.boardInfo board =
      match @None (list string) with
      | Some _ => Some (firmware Sample.dirs ++ "/" ++ "android-info.txt")%string
      | None => None
      end /\
    [WriteFile (out Sample.dirs ++ "/proprietary-files.txt")%string
               ("" ++ JSString.newline)%string]
    = [WriteFile (out Sample.dirs ++ "/proprietary-files.txt")%string
                 ("" ++ JSString.newline)%string].
Proof.
  intros generateBuild pr.
  apply (board_makefile_of_generateBuildFiles generateBuild
           (fun _ => EmptyString) (fun _ p => p) "android-info.txt"
           codeUnitCollation
           {| deviceConfig := Sample.config;
              device_vendor := "google";
              generate_products := false;
              platform_product_makefile := "device/google/raven/aosp_raven.mk" |}
           Sample.dirs [] ["libbar"] (Some pr) None None None "stock" false
           true
           {| Build.deviceMakefile :=
                Some {| Build.namespaces := None;
                        Build.copyFiles := None;
                        Build.packages := Some ["libbar"; "libfoo"];
                        Build.props := None;
                        Build.fingerprint := None;
                        Build.vintfManifestPaths := None;
                        Build.enforceRros := Some "*" |};
              Build.boardMakefile :=
                Some {| Build.sepolicyResolutions := None;
                        Build.buildPartitions := Some ["vendor"];
                        Build.abOtaPartitions := None;
                        Build.boardInfo := None |};
              Build.modulesMakefile := None;
              Build.productMakefile := None;
              Build.productsMakefile := None |}).
  reflexivity.
Defined.

(** X15: the device makefile that [generateBuildFiles] hands on has the
    generated packages and the build packages as its packages, in the order
    of the host collation, so every build package and every generated
    package is in it; namespaces and copy files are those of
    [generateBuild]; [enforceRros] is [*] when all RROs are to be enforced
    and untouched otherwise. *)
Theorem device_makefile_of_generateBuildFiles
    {Filters BlobEntry : Type}
    (generateBuild :
       list BlobEntry -> string -> string -> string -> VendorDirectories
       -> Build.BuildFiles)
    (serializeBlobList : list BlobEntry -> string)
    (relative : string -> string -> string) (ANDROID_INFO : string)
    (collation : Collation)
    (config : GenerateConfig Filters) (dirs : VendorDirectories)
    (entries : list BlobEntry) (buildPkgs : list string)
    (propResults : option PropResults) (fwPaths : option (list string))
    (vintfManifestPaths : option (JSMap.t string))
    (sepolicyResolutions : option SelinuxPartResolutions)
    (stockSrc : string) (addAbOtaParts enforceAllRros : bool)
    (b : Build.BuildFiles) (events : list FsEvent) :
  generateBuildFiles generateBuild serializeBlobList relative ANDROID_INFO
    collation config dirs entries buildPkgs propResults fwPaths
    vintfManifestPaths sepolicyResolutions stockSrc addAbOtaParts
    enforceAllRros = Normal (b, events) ->
  exists generated device packages,
    Build.deviceMakefile
      (generateBuild entries (device_name (deviceConfig config))
                     (device_vendor config) stockSrc dirs) = Some generated /\
    Build.deviceMakefile b = Some device /\
    Build.packages device = Some packages /\
    generateBuildFiles_packages collation (Build.packages generated) buildPkgs
      = Returns packages /\
    StronglySorted (JSArrayFacts.le collation) packages /\
    (forall p,
       In p packages <->
       In p buildPkgs \/
       exists old, Build.packages generated = Some old /\ In p old) /\
    length packages =
      length buildPkgs
      + match Build.packages generated with
        | Some old => length old
        | None => 0
        end /\
    Build.namespaces device = Build.namespaces generated /\
    Build.copyFiles device = Build.copyFiles generated /\
    Build.enforceRros device =
      (if enforceAllRros then Some "*" else Build.enforceRros generated).
Proof.
  intros Hrun. apply generateBuildFiles_Normal in Hrun.
  destruct Hrun as (dm & old & Hdm & Hold & Hdev & _ & _).
  exists dm. eexists. eexists.
  split; [exact Hdm|]. split; [exact Hdev|].
  cbn [deviceParts Build.packages Build.namespaces Build.copyFiles
       Build.enforceRros].
  split; [reflexivity|]. rewrite Hold.
  split; [reflexivity|].
  split; [apply JSArrayFacts.sort_sorted|].
  split; [|split; [|auto]].
  - intros p. rewrite JSArrayFacts.In_sort, in_app_iff. split.
    + intros [H|H]; auto. right. now exists old.
    + intros [H|(old' & [= <-] & H)]; auto.
  - rewrite <- (Permutation_length
                  (JSArrayFacts.sort_Permutation (localeCompare collation)
                                                 (old ++ buildPkgs))).
    rewrite length_app. lia.
Qed.

Lemma device_makefile_of_generateBuildFiles_witness :
  let generateBuild :=
    fun (_ : list Sample.BlobEntry) (_ _ _ : string) (_ : VendorDirectories) =>
      {| Build.deviceMakefile :=
           Some {| Build.namespaces := None;
                   Build.copyFiles := None;
                   Build.packages := Some ["libfoo"];
                   Build.props := None;
                   Build.fingerprint := None;
                   Build.vintfManifestPaths := None;
                   Build.enforceRros := None |};
         Build.boardMakefile := None;
         Build.modulesMakefile := None;
         Build.productMakefile := None;
         Build.productsMakefile := None |} in
  exists generated device packages,
    Build.deviceMakefile (generateBuild [] "raven" "google" "stock" Sample.dirs)
      = Some generated /\
    Some {| Build.namespaces := None;
            Build.copyFiles := None;
            Build.packages := Some ["libbar"; "libfoo"];
            Build.props := None;
            Build.fingerprint := None;
            Build.vintfManifestPaths := None;
            Build.enforceRros := Some "*" |} = Some device /\
    Build.packages device = Some packages /\
    generateBuildFiles_packages codeUnitCollation (Build.packages generated)
                                ["libbar"]
      = Returns packages /\
    StronglySorted (JSArrayFacts.le codeUnitCollation) packages /\
    (forall p,
       In p packages <->
       In p ["libbar"] \/
       exists old, Build.packages generated = Some old /\ In p old) /\
    length packages =
      length ["libbar"]
      + match Build.packages generated with
        | Some old => length old
        | None => 0
        end /\
    Build.namespaces device = Build.namespaces generated /\
    Build.copyFiles device = Build.copyFiles generated /\
    Build.enforceRros device =
      (if true then Some "*" else Build.enforceRros generated).
Proof.
  intros generateBuild.
  apply (device_makefile_of_generateBuildFiles generateBuild
           (fun _ => EmptyString) (fun _ p => p) "android-info.txt"
           codeUnitCollation
           {| deviceConfig := Sample.config;
              device_vendor := "google";
              generate_products := false;
              platform_product_makefile := "device/google/raven/aosp_raven.mk" |}
           Sample.dirs [] ["libbar"] None None None None "stock" false true
           {| Build.deviceMakefile :=
                Some {| Build.namespaces := None;
                        Build.copyFiles := None;
                        Build.packages := Some ["libbar"; "libfoo"];
                        Build.props := None;
                        Build.fingerprint := None;
                        Build.vintfManifestPaths := None;
                        Build.enforceRros := Some "*" |};
              Build.boardMakefile :=
                Some {| Build.sepolicyResolutions := None;
                        Build.buildPartitions := None;
                        Build.abOtaPartitions := None;
                        Build.boardInfo := None |};
              Build.modulesMakefile := None;
              Build.productMakefile := None;
              Build.productsMakefile := None |}
           [WriteFile (out Sample.dirs ++ "/proprietary-files.txt")%string
                      JSString.newline]).
  reflexivity.
Defined.

(** X16: when [generateBuildFiles] ends normally, the modules makefile
    has one radio file per firmware path, each made relative to the output
    directory, and is otherwise the generated one (it is the generated one
    when no firmware paths are given); with product generation on, the
    product makefile is based on the configured product makefile and named
    by [ro.product.product.name] of the stock product partition, a missing
    property leaving its field undefined, and the products makefile lists
    exactly that name; with product generation off both are the generated
    ones. *)
Theorem modules_and_products_of_generateBuildFiles
    {Filters BlobEntry : Type}
    (generateBuild :
       list BlobEntry -> string -> string -> string -> VendorDirectories
       -> Build.BuildFiles)
    (serializeBlobList : list BlobEntry -> string)
    (relative : string -> string -> string) (ANDROID_INFO : string)
    (collation : Collation)
    (config : GenerateConfig Filters) (dirs : VendorDirectories)
    (entries : list BlobEntry) (buildPkgs : list string)
    (propResults : option PropResults) (fwPaths : option (list string))
    (vintfManifestPaths : option (JSMap.t string))
    (sepolicyResolutions : option SelinuxPartResolutions)
    (stockSrc : string) (addAbOtaParts enforceAllRros : bool)
    (b : Build.BuildFiles) (events : list FsEvent) :
  let build :=
    generateBuild entries (device_name (deviceConfig config))
                  (device_vendor config) stockSrc dirs in
  generateBuildFiles generateBuild serializeBlobList relative ANDROID_INFO
    collation config dirs entries buildPkgs propResults fwPaths
    vintfManifestPaths sepolicyResolutions stockSrc addAbOtaParts
    enforceAllRros = Normal (b, events) ->
  match fwPaths with
  | Some paths =>
      exists generated modules radio,
        Build.modulesMakefile build = Some generated /\
        Build.modulesMakefile b = Some modules /\
        MakeMore.radioFiles modules = Some radio /\
        radio = map (relative (out dirs)) paths /\
        length radio = length paths /\
        MakeMore.device modules = MakeMore.device generated /\
        MakeMore.vendor modules = MakeMore.vendor generated /\
        MakeMore.symlinks modules = MakeMore.symlinks generated
  | None => Build.modulesMakefile b = Build.modulesMakefile build
  end /\
  if generate_products config then
    exists pr productProps product,
      propResults = Some pr /\
      JSMap.get "product" (stockProps pr) = Some productProps /\
      Build.productMakefile b = Some product /\
      Build.baseProductPath product = platform_product_makefile config /\
      Build.name product = JSMap.get "ro.product.product.name" productProps /\
      Build.model product = JSMap.get "ro.product.product.model" productProps /\
      Build.brand product = JSMap.get "ro.product.product.brand" productProps /\
      Build.manufacturer product =
        JSMap.get "ro.product.product.manufacturer" productProps /\
      Build.productsMakefile b
        = Some {| Build.products := [Build.name product] |}
  else
    Build.productMakefile b = Build.productMakefile build /\
    Build.productsMakefile b = Build.productsMakefile build.
Proof.
  intros build. unfold generateBuildFiles. fold build.
  destruct (Build.deviceMakefile build) as [dm|]; [|discriminate].
  cbn [present andThen].
  destruct (Build.packages dm) as [packages|]; [|discriminate].
  cbn [present andThen].
  destruct fwPaths as [paths|];
    [destruct (Build.modulesMakefile build) as [mm|]; [|discriminate]|];
    cbn [present andThen];
    (destruct (generate_products config);
     [destruct propResults as [pr|]; [|discriminate];
      destruct (JSMap.get "product" (stockProps pr)) as [pp|] eqn:Epp;
      [|discriminate]|]);
    cbn [present andThen]; intros [= <- <-];
    cbn [Build.modulesMakefile Build.productMakefile Build.productsMakefile
         fst snd];
    (split;
     [ try reflexivity;
       do 3 eexists; repeat split; try reflexivity; apply length_map
     | try (split; reflexivity);
       do 3 eexists; repeat split; try reflexivity; eassumption ]).
Qed.

Lemma modules_and_products_of_generateBuildFiles_witness :
  let generateBuild :=
    fun (_ : list Sample.BlobEntry) (_ _ _ : string) (_ : VendorDirectories) =>
      {| Build.deviceMakefile :=
           Some {| Build.namespaces := None;
                   Build.copyFiles := None;
                   Build.packages := Some [];
                   Build.props := None;
                   Build.fingerprint := None;
                   Build.vintfManifestPaths := None;
                   Build.enforceRros := None |};
         Build.boardMakefile := None;
         Build.modulesMakefile :=
           Some {| MakeMore.device := "raven";
                   MakeMore.vendor := "google";
                   MakeMore.radioFiles := None;
                   MakeMore.symlinks := [] |};
         Build.productMakefile := None;
         Build.productsMakefile := None |} in
  let pr :=
    {| stockProps := [("product", [("ro.product.product.name", "raven")])];
       missingProps := None;
       fingerprint := None;
       missingOtaParts := [] |} in
  let modules :=
    {| MakeMore.device := "raven";
       MakeMore.vendor := "google";
       MakeMore.radioFiles := Some ["firmware/radio.img"];
       MakeMore.symlinks := [] |} in
  let product :=
    {| Build.baseProductPath := "device/google/raven/aosp_raven.mk";
       Build.name := Some "raven";
       Build.model := None;
       Build.brand := None;
       Build.manufacturer := None |} in
  (exists generated modules' radio,
     Build.modulesMakefile
       (generateBuild [] "raven" "google" "stock" Sample.dirs)
       = Some generated /\
     Some modules = Some modules' /\
     MakeMore.radioFiles modules' = Some radio /\
     radio = map (fun p : string => p) ["firmware/radio.img"] /\
     length radio = length ["firmware/radio.img"] /\
     MakeMore.device modules' = MakeMore.device generated /\
     MakeMore.vendor modules' = MakeMore.vendor generated /\
     MakeMore.symlinks modules' = MakeMore.symlinks generated) /\
  (exists pr' productProps product',
     Some pr = Some pr' /\
     JSMap.get "product" (stockProps pr') = Some productProps /\
     Some product = Some product' /\
     Build.baseProductPath product' = "device/google/raven/aosp_raven.mk" /\
     Build.name product' = JSMap.get "ro.product.product.name" productProps /\
     Build.model product' = JSMap.get "ro.product.product.model" productProps /\
     Build.brand product' = JSMap.get "ro.product.product.brand" productProps /\
     Build.manufacturer product' =
       JSMap.get "ro.product.product.manufacturer" productProps /\
     Some {| Build.products := [Some "raven"] |}
       = Some {| Build.products := [Build.name product'] |}).
Proof.
  intros generateBuild pr modules product.
  apply (modules_and_products_of_generateBuildFiles generateBuild
           (fun _ => EmptyString) (fun _ p => p) "android-info.txt"
           codeUnitCollation
           {| deviceConfig := Sample.config;
              device_vendor := "google";
              generate_products := true;
              platform_product_makefile := "device/google/raven/aosp_raven.mk" |}
           Sample.dirs [] [] (Some pr) (Some ["firmware/radio.img"]) None None
           "stock" true false
           {| Build.deviceMakefile :=
                Some {| Build.namespaces := None;
                        Build.copyFiles := None;
                        Build.packages := Some [];
                        Build.props := None;
                        Build.fingerprint := None;
                        Build.vintfManifestPaths := None;
                        Build.enforceRros := None |};
              Build.boardMakefile :=
                Some {| Build.sepolicyResolutions := None;
                        Build.buildPartitions := None;
                        Build.abOtaPartitions := None;
                        Build.boardInfo :=
                          Some "vendor/google/raven/firmware/android-info.txt" |};
              Build.modulesMakefile := Some modules;
              Build.productMakefile := Some product;
              Build.productsMakefile :=
                Some {| Build.products := [Some "raven"] |} |}
           [WriteFile (out Sample.dirs ++ "/proprietary-files.txt")%string
                      JSString.newline]).
  reflexivity.
Defined.

(** X17: [extractFirmware] writes the firmware images first.  When the
    stock properties have no vendor partition it then throws a
    [TypeError], the images written and [android-info] not; otherwise it
    writes the android info (an absent bootloader or baseband property goes
    in as undefined) into the firmware directory and returns the image
    paths.  The file it writes is the one that [generateBuildFiles], given
    firmware paths, names as [boardInfo]. *)
Theorem extractFirmware_writes_board_info
    {Filters BlobEntry FirmwareImages : Type}
    (generateBuild :
       list BlobEntry -> string -> string -> string -> VendorDirectories
       -> Build.BuildFiles)
    (serializeBlobList : list BlobEntry -> string)
    (relative : string -> string -> string) (ANDROID_INFO : string)
    (extractFactoryFirmware : string -> FirmwareImages)
    (writeFirmwareImages : FirmwareImages -> string -> list string)
    (generateAndroidInfo : string -> option string -> option string -> string)
    (collation : Collation)
    (config : GenerateConfig Filters) (dirs : VendorDirectories)
    (stockProps : PartitionProps) (factoryZip : string) :
  let run :=
    extractFirmware ANDROID_INFO extractFactoryFirmware writeFirmwareImages
      generateAndroidInfo config dirs stockProps factoryZip in
  let infoPath := (firmware dirs ++ "/" ++ ANDROID_INFO)%string in
  (JSMap.get "vendor" stockProps = None ->
   run = ([WriteFirmwareImages (firmware dirs)], Abrupt ThrownTypeError)) /\
  (forall vendorProps,
     JSMap.get "vendor" stockProps = Some vendorProps ->
     run =
       ([ WriteFirmwareImages (firmware dirs);
          WriteFile infoPath
            (generateAndroidInfo (device_name (deviceConfig config))
               (JSMap.get "ro.build.expect.bootloader" vendorProps)
               (JSMap.get "ro.build.expect.baseband" vendorProps)) ],
        Normal (writeFirmwareImages (extractFactoryFirmware factoryZip)
                                    (firmware dirs)))) /\
  (forall entries buildPkgs propResults fwPaths vintf resolutions stockSrc
          addAbOtaParts enforceAllRros b events,
     generateBuildFiles generateBuild serializeBlobList relative ANDROID_INFO
       collation config dirs entries buildPkgs propResults (Some fwPaths)
       vintf resolutions stockSrc addAbOtaParts enforceAllRros
     = Normal (b, events) ->
     exists board,
       Build.boardMakefile b = Some board /\
       Build.boardInfo board = Some infoPath).
Proof.
  intros run infoPath. unfold run, extractFirmware. repeat split.
  - intros ->. reflexivity.
  - intros vendorProps ->. reflexivity.
  - intros entries buildPkgs propResults fwPaths vintf resolutions stockSrc
           addAbOtaParts enforceAllRros b events Hrun.
    apply generateBuildFiles_Normal in Hrun.
    destruct Hrun as (dm & packages & _ & _ & _ & Hboard & _).
    eexists. split; [exact Hboard|]. reflexivity.
Qed.

Lemma get_vendor_addApexLabels (dirs : VendorDirectories)
    (ctxResolutions : SelinuxPartResolutions) (r : SelinuxResolutions) :
  JSMap.get "vendor" (addApexLabels dirs ctxResolutions) = Some r ->
  exists before,
    JSMap.get "vendor" ctxResolutions = Some before /\
    sepolicyDirs r = sepolicyDirs before ++ [sepolicy dirs] /\
    missingContexts r = missingContexts before.
Proof.
  unfold addApexLabels, JSMap.has.
  destruct (JSMap.get "vendor" ctxResolutions) as [before|] eqn:E.
  - rewrite JSMapFacts.get_set_same. intros [= <-]. now exists before.
  - rewrite E. discriminate.
Qed.

(** X18: [flattenApexs] writes one file, [file_contexts] with the
    generated labels, and returns the flattened entries.  The file lies in
    the directory that [resolveSepolicyDirs] appends to the vendor
    partition's sepolicy directories: whenever the resolutions have a
    vendor entry, the last of its directories is the directory of that
    file, and the directories before it are those of the resolution. *)
Theorem flattenApexs_writes_into_vendor_sepolicy_dir
    {Filters BlobEntry ApexLabels TempState : Type}
    (filterValue : Filters -> string -> bool)
    (parsePartContexts : string -> JSMap.t SelinuxContexts)
    (parseContextsRecursive : string -> string -> SelinuxContexts)
    (sourceDirOf : string -> string)
    (flattenAllApexs :
       list BlobEntry -> string -> TempState -> list BlobEntry * ApexLabels)
    (generateFileContexts : ApexLabels -> string)
    (config : DeviceConfig Filters) (customState : option SystemState)
    (dirs : VendorDirectories) (entries : list BlobEntry) (tmp : TempState)
    (stockSrc customSrc : string) (r : SelinuxResolutions) :
  JSMap.get "vendor"
    (resolveSepolicyDirs filterValue parsePartContexts parseContextsRecursive
       sourceDirOf config customState dirs stockSrc customSrc) = Some r ->
  flattenApexs flattenAllApexs generateFileContexts entries dirs tmp stockSrc
  = ([WriteFile (last (sepolicyDirs r) EmptyString ++ "/file_contexts")%string
                (generateFileContexts
                   (snd (flattenAllApexs entries stockSrc tmp)))],
     fst (flattenAllApexs entries stockSrc tmp)) /\
  exists resolved,
    JSMap.get "vendor"
      (ctxResolutionsOf filterValue parsePartContexts parseContextsRecursive
         sourceDirOf config customState stockSrc customSrc) = Some resolved /\
    removelast (sepolicyDirs r) = sepolicyDirs resolved.
Proof.
  intros Hr. unfold resolveSepolicyDirs in Hr.
  apply get_vendor_addApexLabels in Hr.
  destruct Hr as (before & Hb & Hdirs & _).
  rewrite Hdirs, last_last, removelast_last. split.
  - reflexivity.
  - now exists before.
Qed.

Lemma flattenApexs_writes_into_vendor_sepolicy_dir_witness :
  let flattenAllApexs :=
    fun (entries : list Sample.BlobEntry) (_ : string) (_ : unit) =>
      (entries, "u:object_r:vendor_file:s0") in
  let r :=
    {| sepolicyDirs := ["dirB"; "vendor/google/raven/sepolicy"];
       missingContexts := ["ctxC"] |} in
  flattenApexs flattenAllApexs (fun labels : string => labels) [] Sample.dirs
               tt "stock"
  = ([WriteFile (last (sepolicyDirs r) EmptyString ++ "/file_contexts")%string
                (snd (flattenAllApexs [] "stock" tt))],
     fst (flattenAllApexs [] "stock" tt)) /\
  exists resolved,
    JSMap.get "vendor"
      (ctxResolutionsOf Sample.filterValue Sample.parsePartContexts
         Sample.parseContextsRecursive Sample.sourceDirOf Sample.config None
         "stock" "custom") = Some resolved /\
    removelast (sepolicyDirs r) = sepolicyDirs resolved.
Proof.
  intros flattenAllApexs r.
  apply (flattenApexs_writes_into_vendor_sepolicy_dir Sample.filterValue
           Sample.parsePartContexts Sample.parseContextsRecursive
           Sample.sourceDirOf flattenAllApexs (fun labels : string => labels)
           Sample.config None Sample.dirs [] tt "stock" "custom" r).
  reflexivity.
Defined.

Lemma extractFirmware_writes_board_info_witness :
  extractFirmware "android-info.txt" (fun zip : string => zip)
    (fun (images dir : string) => [(dir ++ "/radio.img")%string])
    (fun device bootloader baseband => device)
    {| deviceConfig := Sample.config;
       device_vendor := "google";
       generate_products := false;
       platform_product_makefile := "device/google/raven/aosp_raven.mk" |}
    Sample.dirs (Sample.loadPartitionProps "stock") "raven-factory.zip"
  = ([WriteFirmwareImages (firmware Sample.dirs)], Abrupt ThrownTypeError).
Proof.
  apply (proj1
           (extractFirmware_writes_board_info
              (fun (_ : list Sample.BlobEntry) (_ _ _ : string)
                   (_ : VendorDirectories) =>
                 {| Build.deviceMakefile := None;
                    Build.boardMakefile := None;
                    Build.modulesMakefile := None;
                    Build.productMakefile := None;
                    Build.productsMakefile := None |})
              (fun _ => EmptyString) (fun _ p => p) "android-info.txt"
              (fun zip : string => zip)
              (fun (images dir : string) => [(dir ++ "/radio.img")%string])
              (fun device bootloader baseband => device)
              codeUnitCollation
              {| deviceConfig := Sample.config;
                 device_vendor := "google";
                 generate_products := false;
                 platform_product_makefile :=
                   "device/google/raven/aosp_raven.mk" |}
              Sample.dirs (Sample.loadPartitionProps "stock")
              "raven-factory.zip")).
  reflexivity.
Defined.

(** ** Sorting again *)

Lemma sort_of_sorted (c : Collation) (l : list string) :
  StronglySorted (JSArrayFacts.le c) l ->
  JSArray.sort (localeCompare c) l = l.
Proof.
  induction 1 as [|x l Hs IH Hall]; simpl; auto.
  rewrite IH. destruct l as [|y l]; auto.
  simpl. inversion Hall as [|? ? Hxy _]; subst.
  unfold JSArrayFacts.le in Hxy. apply Z.leb_le in Hxy. now rewrite Hxy.
Qed.

Lemma filter_selects_nothing {A : Type} (p : A -> bool) (l : list A) :
  (forall x, In x l -> p x = false) -> filter p l = [].
Proof.
  induction l as [|x l IH]; simpl; intros H; auto.
  rewrite (H x) by now left. apply IH. intros y Hy. apply H. now right.
Qed.

(** X19: the sorts of [enumerateFiles] and [generateBuildFiles] settle:
    sorting the merged missing list or the packages once more changes
    nothing; and a force-include filter set that selects no stock file
    leaves an ordered diff exactly as it is without force-include
    filters. *)
Theorem sorting_again_changes_nothing
    {Filters : Type} (filterValue : Filters -> string -> bool)
    (collation : Collation) (forced : Filters)
    (filesNew filesRef generated buildPkgs : list string) :
  let merged :=
    mergedMissingFiles filterValue collation (Some forced) filesNew filesRef in
  JSArray.sort (localeCompare collation) merged = merged /\
  (exists packages,
     generateBuildFiles_packages collation (Some generated) buildPkgs
       = Returns packages /\
     generateBuildFiles_packages collation (Some packages) []
       = Returns packages) /\
  ((forall f, In f filesRef -> filterValue forced f = false) ->
   StronglySorted (JSArrayFacts.le collation) (diffLists filesNew filesRef) ->
   merged = mergedMissingFiles filterValue collation None filesNew filesRef).
Proof.
  intros merged. split; [|split].
  - apply sort_of_sorted. apply JSArrayFacts.sort_sorted.
  - eexists. split; [reflexivity|].
    unfold generateBuildFiles_packages. simpl. rewrite app_nil_r.
    f_equal. apply sort_of_sorted. apply JSArrayFacts.sort_sorted.
  - intros Hnone Hsorted. unfold merged, mergedMissingFiles.
    assert (Hf : filterValues filterValue forced filesRef = []).
    { unfold filterValues. now apply filter_selects_nothing. }
    rewrite Hf, app_nil_r. now apply sort_of_sorted.
Qed.

Lemma sorting_again_changes_nothing_witness :
  mergedMissingFiles Sample.filterValue codeUnitCollation (Some ["no/match"])
    ["system/bin/a"] ["system/bin/a"; "system/bin/b"; "system/bin/c"]
  = mergedMissingFiles Sample.filterValue codeUnitCollation None
      ["system/bin/a"] ["system/bin/a"; "system/bin/b"; "system/bin/c"].
Proof.
  apply (proj2 (proj2
           (sorting_again_changes_nothing Sample.filterValue codeUnitCollation
              ["no/match"] ["system/bin/a"]
              ["system/bin/a"; "system/bin/b"; "system/bin/c"] [] []))).
  - intros f [<-|[<-|[<-|[]]]]; reflexivity.
  - apply (JSArrayFacts.sort_sorted codeUnitCollation
             ["system/bin/b"; "system/bin/c"]).
Defined.

(** X20: [enumerateFiles] keeps every entry in step with its key: if each
    entry of the map it is given was built from its key and some partition,
    so is each entry of the map it leaves; and an entry that is new or
    changed was built from its key and a partition of the partition
    list. *)
Theorem enumerateFiles_entries_match_keys
    {Filters : Type} (filterValue : Filters -> string -> bool)
    {BlobEntry : Type}
    (combinedPartPathToEntry : string -> string -> BlobEntry)
    (ALL_SYS_PARTITIONS : list string)
    (listPart : string -> string -> Filters -> option (list string))
    (collation : Collation)
    (filters : Filters) (forceIncludeFilters : option Filters)
    (customState : option SystemState) (stockSrc : string)
    (customSrc : option string) (st : EnumState BlobEntry) :
  let result :=
    enumerateFiles filterValue combinedPartPathToEntry ALL_SYS_PARTITIONS
      listPart collation filters forceIncludeFilters customState stockSrc
      customSrc st in
  (forall key entry,
     JSMap.get key (namedEntries result) = Some entry ->
     JSMap.get key (namedEntries st) = Some entry \/
     exists partition,
       In partition ALL_SYS_PARTITIONS /\
       entry = combinedPartPathToEntry partition key) /\
  ((forall key entry,
      JSMap.get key (namedEntries st) = Some entry ->
      exists partition, entry = combinedPartPathToEntry partition key) ->
   forall key entry,
     JSMap.get key (namedEntries result) = Some entry ->
     exists partition, entry = combinedPartPathToEntry partition key).
Proof.
  intros result.
  assert (Hget : forall key entry,
    JSMap.get key (namedEntries result) = Some entry ->
    JSMap.get key (namedEntries st) = Some entry \/
    exists partition,
      In partition ALL_SYS_PARTITIONS /\
      entry = combinedPartPathToEntry partition key).
  { intros key entry. unfold result, enumerateFiles.
    rewrite namedEntries_fold, JSMapMore.get_writes.
    destruct (JSMap.get key (rev _)) as [e|] eqn:E; auto.
    intros [= ->]. right.
    apply JSMapFacts.get_In in E. apply in_rev in E.
    apply in_flat_map in E. destruct E as [p [Hp E]].
    exists p. split; auto.
    unfold partitionWrites in E.
    destruct (listPart p stockSrc filters); [|contradiction].
    destruct (customFiles listPart filters customState customSrc p);
      [|contradiction].
    apply in_map_iff in E. destruct E as [path [[= <- <-] _]]. reflexivity. }
  split; auto.
  intros Hst key entry Hres. apply Hget in Hres.
  destruct Hres as [H|[p [_ H]]]; eauto.
Qed.
